(** * BestStars: the conversational shopping assistant of [app.py]

    A shallow embedding of [app.py]: its pure core (price and field
    normalisation, the product pipeline, the intent detector, the chat
    wrapper), the check of the configuration, the advice on a product,
    the update of the user's context and the runs of the script over
    the session state, together with the parts of the Python runtime
    they call: [str] methods, the [re] patterns used, [int], [float],
    the comparison of values and, by its contract, [list.sort].

    Conventions of the embedding.
    - A Python [str] is a [string] whose characters are the code points
      0..255 (Latin-1), one [ascii] per character; the character classes
      below are Python's on that range. Text that only travels to the
      user interface or to the chat service is spelled as in the source
      file.
    - A Python [float] is an IEEE binary64 value, kept as sign, integer
      mantissa and binary exponent; decimal text is rounded to the
      nearest such value, ties to even. [int] reads 4300 digits at
      most, the limit the interpreter starts with.
    - The body of a search response is any JSON value, and so is every
      field of a search result; what the code does on each type of
      value is kept, the exceptions included.
    - Code that can raise runs in the error monad [M]; [try]/[except] is
      a match on its result. *)

From Stdlib Require Import Bool Arith ZArith NArith QArith Qpower Lia List.
From Stdlib Require Import Ascii String DecimalString.
From Stdlib Require Import Sorting.Sorted Sorting.Permutation.
Import ListNotations.

Close Scope Q_scope.
Open Scope string_scope.
Open Scope nat_scope.

(** ** Exceptions *)

Inductive exn : Type :=
| ValueError (msg : string)
| TypeError (msg : string)
| IndexError (msg : string)
| AttributeError (msg : string)
| RequestException (msg : string)   (* connection errors, timeouts *)
| HTTPError (msg : string)
| JSONDecodeError (msg : string)
| APIError (msg : string).          (* raised by the chat-completion client *)

Definition M (A : Type) : Type := (exn + A)%type.

Definition ret {A} (a : A) : M A := inr a.
Definition raise {A} (e : exn) : M A := inl e.
Definition bind {A B} (c : M A) (f : A -> M B) : M B :=
  match c with
  | inl e => inl e
  | inr a => f a
  end.

Notation "x <- c ;; k" := (bind c (fun x => k))
  (at level 61, c at next level, right associativity).

Definition is_ValueError (e : exn) : bool :=
  match e with ValueError _ => true | _ => false end.

(** [str(e)] *)
Definition exn_str (e : exn) : string :=
  match e with
  | ValueError m | TypeError m | IndexError m | AttributeError m
  | RequestException m | HTTPError m | JSONDecodeError m | APIError m => m
  end.

(** ** Python [str] *)

Module Str.

Definition code (a : ascii) : N := N_of_ascii a.

Definition between (lo hi : N) (a : ascii) : bool :=
  ((lo <=? code a) && (code a <=? hi))%N.

(** [\d] and [str.isdigit] on Latin-1: the ten ASCII digits. *)
Definition is_digit (a : ascii) : bool := between 48 57 a.

(** [\s], [str.isspace], and the separators of [split()] and [strip()]. *)
Definition is_space (a : ascii) : bool :=
  between 9 13 a || between 28 32 a || (code a =? 133)%N || (code a =? 160)%N.

(** The blanks that [int()] and [float()] skip around a numeral. *)
Definition is_numeral_blank (a : ascii) : bool :=
  between 9 13 a || (code a =? 32)%N || (code a =? 133)%N || (code a =? 160)%N.

(** [.] without DOTALL: anything but a line feed. *)
Definition not_newline (a : ascii) : bool := negb (code a =? 10)%N.

Definition lower_char (a : ascii) : ascii :=
  if between 65 90 a || (between 192 222 a && negb (code a =? 215)%N)
  then ascii_of_N (code a + 32)
  else a.

(** [s.lower()] *)
Fixpoint lower (s : string) : string :=
  match s with
  | EmptyString => EmptyString
  | String a s' => String (lower_char a) (lower s')
  end.

Fixpoint lstrip_by (blank : ascii -> bool) (s : string) : string :=
  match s with
  | String a s' => if blank a then lstrip_by blank s' else s
  | EmptyString => EmptyString
  end.

Fixpoint rstrip_by (blank : ascii -> bool) (s : string) : string :=
  match s with
  | EmptyString => EmptyString
  | String a s' =>
      match rstrip_by blank s' with
      | EmptyString => if blank a then EmptyString else String a EmptyString
      | t => String a t
      end
  end.

Definition strip_by (blank : ascii -> bool) (s : string) : string :=
  rstrip_by blank (lstrip_by blank s).

(** [s.strip()] *)
Definition strip (s : string) : string := strip_by is_space s.

(** [s.split()]: the maximal runs of non-blank characters; [tok] is the
    run being read. *)
Fixpoint split_from (tok : string) (s : string) : list string :=
  match s with
  | EmptyString => if (tok =? "")%string then [] else [tok]
  | String a s' =>
      if is_space a
      then (if (tok =? "")%string then split_from "" s'
            else tok :: split_from "" s')
      else split_from (tok ++ String a "") s'
  end.

Definition split (s : string) : list string := split_from "" s.

(** [s.replace(a, b)] for one-character [a] and [b]. *)
Fixpoint replace_char (a b : ascii) (s : string) : string :=
  match s with
  | EmptyString => EmptyString
  | String c s' =>
      String (if Ascii.eqb c a then b else c) (replace_char a b s')
  end.

(** [s[:n]] for [n >= 0] *)
Fixpoint take (n : nat) (s : string) : string :=
  match n, s with
  | S n', String a s' => String a (take n' s')
  | _, _ => EmptyString
  end.

Fixpoint drop (n : nat) (s : string) : string :=
  match n, s with
  | S n', String _ s' => drop n' s'
  | _, _ => s
  end.

(** [t.startswith(p)] *)
Fixpoint starts_with (p t : string) : bool :=
  match p, t with
  | EmptyString, _ => true
  | String a p', String b t' => Ascii.eqb a b && starts_with p' t'
  | String _ _, EmptyString => false
  end.

(** [t.find(p)]: the offset of the first occurrence of [p] in [t]. *)
Fixpoint find (p t : string) : option nat :=
  if starts_with p t then Some 0
  else match t with
       | EmptyString => None
       | String _ t' => option_map S (find p t')
       end.

Fixpoint all_chars (f : ascii -> bool) (s : string) : bool :=
  match s with
  | EmptyString => true
  | String a s' => f a && all_chars f s'
  end.

Definition no_digit (s : string) : bool :=
  all_chars (fun a => negb (is_digit a)) s.

Definition all_digits (s : string) : bool := all_chars is_digit s.

(** The length of the longest prefix of [s] made of [p] characters. *)
Fixpoint span_len (p : ascii -> bool) (s : string) : nat :=
  match s with
  | String a s' => if p a then S (span_len p s') else 0
  | EmptyString => 0
  end.

End Str.

(** ** The fragment of [re] the program uses

    Patterns are kept as syntax and run by a backtracking matcher with
    Python's priorities: alternatives left to right, greedy repetition
    longest first, lazy repetition shortest first. Repetition is over a
    single character class, which is all the program's patterns need. *)

Module Re.

Inductive regex : Type :=
| Eps
| Chr (a : ascii)                          (* a literal character *)
| Cls (p : ascii -> bool)                  (* one character of a class *)
| Seq (r1 r2 : regex)
| Alt (r1 r2 : regex)                      (* r1|r2 *)
| Opt (r : regex)                          (* r? *)
| Rep (greedy : bool) (lo : nat) (p : ascii -> bool)
                                           (* p* p+ (greedy), p+? (lazy) *)
| Grp (n : nat) (r : regex)                (* capturing group n *)
| Eos.                                     (* $ *)

(** A literal word. *)
Fixpoint word (w : string) : regex :=
  match w with
  | EmptyString => Eps
  | String a w' => Seq (Chr a) (word w')
  end.

(** [r1 r2 ... rn] *)
Fixpoint seq (rs : list regex) : regex :=
  match rs with
  | [] => Eps
  | r :: rs' => Seq r (seq rs')
  end.

(** [r|r1|...|rn] *)
Fixpoint alt (r : regex) (rs : list regex) : regex :=
  match rs with
  | [] => r
  | r' :: rs' => Alt r (alt r' rs')
  end.

(** A pattern without capturing groups. *)
Fixpoint groupless (r : regex) : bool :=
  match r with
  | Grp _ _ => false
  | Seq r1 r2 | Alt r1 r2 => groupless r1 && groupless r2
  | Opt r1 => groupless r1
  | _ => true
  end.

(** Groups seen so far, latest first: number, start and end offsets. *)
Definition groups : Type := list (nat * (nat * nat)).

Fixpoint rep_greedy {R} (p : ascii -> bool) (lo : nat) (s : string) (i : nat)
    (k : string -> nat -> option R) {struct s} : option R :=
  let stop := match lo with O => k s i | S _ => None end in
  match s with
  | String a s' =>
      if p a then
        match rep_greedy p (pred lo) s' (S i) k with
        | Some r => Some r
        | None => stop
        end
      else stop
  | EmptyString => stop
  end.

Fixpoint rep_lazy {R} (p : ascii -> bool) (lo : nat) (s : string) (i : nat)
    (k : string -> nat -> option R) {struct s} : option R :=
  let more :=
    match s with
    | String a s' => if p a then rep_lazy p (pred lo) s' (S i) k else None
    | EmptyString => None
    end in
  match lo with
  | S _ => more
  | O => match k s i with
         | Some r => Some r
         | None => more
         end
  end.

(** [exec r s i g k]: match [r] at offset [i], where [s] is the text from
    [i] on, then continue with [k]; [None] makes the caller backtrack. *)
Fixpoint exec {R} (r : regex) (s : string) (i : nat) (g : groups)
    (k : string -> nat -> groups -> option R) : option R :=
  match r with
  | Eps => k s i g
  | Chr a =>
      match s with
      | String b s' => if Ascii.eqb a b then k s' (S i) g else None
      | EmptyString => None
      end
  | Cls p =>
      match s with
      | String b s' => if p b then k s' (S i) g else None
      | EmptyString => None
      end
  | Seq r1 r2 => exec r1 s i g (fun s' j g' => exec r2 s' j g' k)
  | Alt r1 r2 =>
      match exec r1 s i g k with
      | Some x => Some x
      | None => exec r2 s i g k
      end
  | Opt r1 =>
      match exec r1 s i g k with
      | Some x => Some x
      | None => k s i g
      end
  | Rep true lo p => rep_greedy p lo s i (fun s' j => k s' j g)
  | Rep false lo p => rep_lazy p lo s i (fun s' j => k s' j g)
  | Grp n r1 => exec r1 s i g (fun s' j g' => k s' j ((n, (i, j)) :: g'))
  | Eos =>
      match s with
      | EmptyString => k s i g
      | String a EmptyString => if (Str.code a =? 10)%N then k s i g else None
      | _ => None
      end
  end.

(** A match object: the text from the start of the match on, the length
    of the match, and the groups as offsets into that text. *)
Record match_obj : Type := MatchObj {
  m_text : string;
  m_end : nat;
  m_groups : groups
}.

(** [re.match(r, s)] without anchoring at the end. *)
Definition match_here (r : regex) (s : string) : option match_obj :=
  exec r s 0 [] (fun _ j g => Some (MatchObj s j g)).

(** [re.search(r, s)]: the match at the leftmost offset that has one. *)
Fixpoint search (r : regex) (s : string) : option match_obj :=
  match match_here r s with
  | Some m => Some m
  | None =>
      match s with
      | String _ s' => search r s'
      | EmptyString => None
      end
  end.

Fixpoint lookup (n : nat) (g : groups) : option (nat * nat) :=
  match g with
  | [] => None
  | (n', span) :: g' => if n =? n' then Some span else lookup n g'
  end.

(** [m.group(n)] for [n >= 1]; [None] when the group took no part. *)
Definition group (n : nat) (m : match_obj) : option string :=
  match lookup n (m_groups m) with
  | Some (a, b) => Some (Str.take (b - a) (Str.drop a (m_text m)))
  | None => None
  end.

(** [m.group(0)] *)
Definition group0 (m : match_obj) : string := Str.take (m_end m) (m_text m).

(** [re.findall(r, s)] for a pattern without groups that cannot match
    the empty string: the successive leftmost matches. *)
Fixpoint findall_fuel (fuel : nat) (r : regex) (s : string) : list string :=
  match fuel with
  | O => []
  | S fuel' =>
      match search r s with
      | Some m =>
          group0 m :: findall_fuel fuel' r (Str.drop (Nat.max 1 (m_end m)) (m_text m))
      | None => []
      end
  end.

Definition findall (r : regex) (s : string) : list string :=
  findall_fuel (S (String.length s)) r s.

(** [re.sub(c, '', s)] for a one-character class [c]. *)
Fixpoint delete_class (p : ascii -> bool) (s : string) : string :=
  match s with
  | EmptyString => EmptyString
  | String a s' => if p a then delete_class p s' else String a (delete_class p s')
  end.

End Re.

(** ** Python [float] and [int] *)

Module Float.

Inductive float64 : Type :=
| Finite (neg : bool) (m : N) (e : Z)      (* (-1)^neg * m * 2^e *)
| Infinite (neg : bool)
| NaN.

(** [0.0] *)
Definition zero : float64 := Finite false 0 0.

(** The integer nearest to [n/d], ties to even, for [0 <= n], [0 < d]. *)
Definition round_half_even (n d : Z) : Z :=
  let q := (n / d)%Z in
  match (2 * (n mod d) ?= d)%Z with
  | Lt => q
  | Gt => (q + 1)%Z
  | Eq => if Z.even q then q else (q + 1)%Z
  end.

Fixpoint odd_part (p : positive) (e : Z) : positive * Z :=
  match p with
  | xO p' => odd_part p' (e + 1)
  | _ => (p, e)
  end.

(** One representation per value: odd mantissa, or [0 * 2^0]. *)
Definition normal (neg : bool) (m e : Z) : float64 :=
  match m with
  | Zpos p => let (p', e') := odd_part p e in Finite neg (Npos p') e'
  | _ => Finite neg 0 0
  end.

(** The binary64 nearest to [n/d] ([0 <= n], [0 < d]): 53 bits of
    mantissa, exponent no less than -1074, overflow to infinity. *)
Definition of_ratio (neg : bool) (n d : Z) : float64 :=
  if (n =? 0)%Z then Finite neg 0 0 else
  let lg := (Z.log2 n - Z.log2 d)%Z in
  let fl := if (d * 2 ^ Z.max 0 lg <=? n * 2 ^ Z.max 0 (- lg))%Z
            then lg else (lg - 1)%Z in
  let e := Z.max (fl - 52) (-1074) in
  let m := round_half_even (n * 2 ^ Z.max 0 (- e)) (d * 2 ^ Z.max 0 e) in
  if ((971 <? e) || ((e =? 971) && (m =? 2 ^ 53)))%Z
  then Infinite neg
  else normal neg m e.

(** The binary64 nearest to [m * 10^e], [0 <= m]. *)
Definition of_decimal (neg : bool) (m e : Z) : float64 :=
  if (0 <=? e)%Z then of_ratio neg (m * 10 ^ e) 1
  else of_ratio neg m (10 ^ (- e)).

Definition digit_value (a : ascii) : Z := (Z.of_N (Str.code a) - 48)%Z.

Fixpoint digits_value (acc : Z) (s : string) : Z :=
  match s with
  | EmptyString => acc
  | String a s' => digits_value (10 * acc + digit_value a)%Z s'
  end.

Definition starts_with_digit (s : string) : bool :=
  match s with
  | String a _ => Str.is_digit a
  | EmptyString => false
  end.

(** Reads [digit (["_"] digit)*]: the digits read and the text left. *)
Fixpoint scan_digits (after_digit : bool) (s : string) : string * string :=
  match s with
  | String a s' =>
      if Str.is_digit a then
        let (ds, r) := scan_digits true s' in (String a ds, r)
      else if after_digit && Ascii.eqb a "_" && starts_with_digit s'
      then scan_digits false s'
      else (EmptyString, s)
  | EmptyString => (EmptyString, EmptyString)
  end.

Definition scan_sign (s : string) : bool * string :=
  match s with
  | String "+" r => (false, r)
  | String "-" r => (true, r)
  | _ => (false, s)
  end.

(** [digits ["." digits] [("e"|"E") ["+"|"-"] digits]] with at least one
    digit before the exponent: mantissa and decimal exponent. *)
Definition parse_decimal (s : string) : option (Z * Z) :=
  let (ip, r1) := scan_digits false s in
  let (fp, r2) :=
    match r1 with
    | String "." r => scan_digits false r
    | _ => (EmptyString, r1)
    end in
  if ((ip =? "") && (fp =? ""))%string then None else
  let mant := digits_value 0 (ip ++ fp) in
  let scale := Z.of_nat (String.length fp) in
  match r2 with
  | EmptyString => Some (mant, (- scale)%Z)
  | String c r3 =>
      if (Ascii.eqb c "e" || Ascii.eqb c "E") then
        let (eneg, r4) := scan_sign r3 in
        match scan_digits false r4 with
        | (String d ds, EmptyString) =>
            let x := digits_value 0 (String d ds) in
            Some (mant, ((if eneg then - x else x) - scale)%Z)
        | _ => None
        end
      else None
  end.

(** [float(s)] for a [str] *)
Definition float (s : string) : M float64 :=
  let (neg, u) := scan_sign (Str.strip_by Str.is_numeral_blank s) in
  let l := Str.lower u in
  if ((l =? "inf") || (l =? "infinity"))%string then ret (Infinite neg)
  else if (l =? "nan")%string then ret NaN
  else match parse_decimal u with
       | Some (m, e) => ret (of_decimal neg m e)
       | None => raise (ValueError ("could not convert string to float: " ++ s))
       end.

Definition string_of_Z (z : Z) : string := NilZero.string_of_int (Z.to_int z).

Definition two_digits (n : Z) : string :=
  (if (n <? 10)%Z then "0" else "") ++ string_of_Z n.

(** [f"{x:.2f}"]: the exact value rounded to hundredths, ties to even. *)
Definition format_2f (x : float64) : string :=
  match x with
  | NaN => "nan"
  | Infinite neg => (if neg then "-" else "") ++ "inf"
  | Finite neg m e =>
      let h := round_half_even (Z.of_N m * 100 * 2 ^ Z.max 0 e)
                               (2 ^ Z.max 0 (- e)) in
      (if neg then "-" else "") ++
      string_of_Z (h / 100) ++ "." ++ two_digits (h mod 100)
  end.

End Float.

Module Int.

Import Float.

(** [sys.get_int_max_str_digits()], as the interpreter starts. *)
Definition max_str_digits : nat := 4300.

(** [int(s)] for a [str], base 10. The digits are scanned first, and an
    underscore out of place ends the scan as a syntax error; then more
    digits than the limit are refused; only then is what follows the
    digits looked at. *)
Definition int (s : string) : M Z :=
  let (neg, u) := scan_sign (Str.strip_by Str.is_numeral_blank s) in
  let (ds, r) := scan_digits false u in
  let invalid := ValueError ("invalid literal for int() with base 10: " ++ s) in
  match r with
  | String "_" _ => raise invalid
  | _ =>
      if max_str_digits <? String.length ds then
        raise (ValueError
                 ("Exceeds the limit (4300 digits) for integer string conversion: value has " ++
                  string_of_Z (Z.of_nat (String.length ds)) ++
                  " digits; use sys.set_int_max_str_digits() to increase the limit"))
      else
        match ds, r with
        | String _ _, EmptyString =>
            let x := digits_value 0 ds in
            ret (if neg then (- x)%Z else x)
        | _, _ => raise invalid
        end
  end.

End Int.

(** ** Python numbers: [int] and [float], compared by value *)

Inductive pynum : Type :=
| PyInt (z : Z)
| PyFloat (f : Float.float64).

Module Num.

Import Float.

(** The extended real a number denotes; [nan] denotes none. *)
Inductive xreal : Type :=
| NegInf
| Real (q : Q)
| PosInf.

Definition float_value (f : float64) : option xreal :=
  match f with
  | Finite neg m e =>
      let q := (inject_Z (Z.of_N m) * (2 # 1) ^ e)%Q in
      Some (Real (if neg then (- q)%Q else q))
  | Infinite true => Some NegInf
  | Infinite false => Some PosInf
  | NaN => None
  end.

Definition value (x : pynum) : option xreal :=
  match x with
  | PyInt z => Some (Real (inject_Z z))
  | PyFloat f => float_value f
  end.

Definition xle (a b : xreal) : bool :=
  match a, b with
  | NegInf, _ => true
  | _, PosInf => true
  | Real p, Real q => Qle_bool p q
  | _, _ => false
  end.

(** [x <= y] *)
Definition le (x y : pynum) : bool :=
  match value x, value y with
  | Some a, Some b => xle a b
  | _, _ => false
  end.

(** [x < y] *)
Definition lt (x y : pynum) : bool := le x y && negb (le y x).

(** [x == y] *)
Definition eq (x y : pynum) : bool := le x y && le y x.

Definition is_nan (x : pynum) : bool :=
  match value x with
  | Some _ => false
  | None => true
  end.

End Num.

(** ** Python lists *)

Module PyList.

(** [l[0]] *)
Definition first {A} (l : list A) : M A :=
  match l with
  | x :: _ => ret x
  | [] => raise (IndexError "list index out of range")
  end.

(** [l[:n]]: a negative [n] counts from the end. *)
Definition slice_to {A} (n : Z) (l : list A) : list A :=
  if (0 <=? n)%Z then firstn (Z.to_nat n) l
  else firstn (Z.to_nat (Z.of_nat (List.length l) + n)) l.

(** [l[-n:]] for [n > 0]: the last [n] elements, or all of them. *)
Definition last_n {A} (n : nat) (l : list A) : list A :=
  skipn (List.length l - n) l.

(** [l[-1]] *)
Definition last_item {A} (l : list A) : M A :=
  match rev l with
  | x :: _ => ret x
  | [] => raise (IndexError "list index out of range")
  end.

Fixpoint insert_desc {A} (lt : A -> A -> bool) (x : A) (l : list A) : list A :=
  match l with
  | [] => [x]
  | y :: l' => if lt x y then y :: insert_desc lt x l' else x :: l
  end.

(** The stable descending arrangement of a list: where [lt] is a strict
    weak order, the one permutation that is descending and keeps the
    elements of equal rank in their order ([stable_descending_unique]
    below). Insertion from the right builds it. *)
Definition stable_descending {A} (lt : A -> A -> bool) (l : list A) : list A :=
  fold_right (insert_desc lt) [] l.

End PyList.

(** [d.get(key, default)] on the fields of a record that may be absent. *)
Definition get {A} (field : option A) (default : A) : A :=
  match field with
  | Some v => v
  | None => default
  end.

(** [d.get(key, default)] on a [dict] with [str] keys, kept as the list
    of its items: the item of a key is the first one with that key. *)
Fixpoint dict_get {A} (d : list (string * A)) (key : string) (default : A) : A :=
  match d with
  | [] => default
  | (k, v) :: d' => if (k =? key)%string then v else dict_get d' key default
  end.

(** [d[key]], and whether the key is there. *)
Fixpoint dict_find {A} (d : list (string * A)) (key : string) : option A :=
  match d with
  | [] => None
  | (k, v) :: d' => if (k =? key)%string then Some v else dict_find d' key
  end.

Import Float.

(** ** JSON values, as [json.loads] returns them

    [None], [bool], [int] and [float], [str], [list] and [dict]. Of the
    identity of objects one fact bears on the program: every [NaN] of a
    decoded document is one and the same [float] object, the constant
    of the [json] module, where two calls of [float()] give two
    objects. *)

#[warnings="-register-all"] Inductive json_value : Type :=
| JNull
| JBool (b : bool)
| JNumber (n : pynum)
| JString (s : string)
| JArray (l : list json_value)
| JObject (l : list (string * json_value)).

(** [bool(v)] *)
Definition json_truthy (v : json_value) : bool :=
  match v with
  | JNull => false
  | JBool b => b
  | JNumber n => negb (Num.eq n (PyInt 0))
  | JString s => negb (s =? "")%string
  | JArray l => match l with [] => false | _ => true end
  | JObject l => match l with [] => false | _ => true end
  end.

(** ** What is taken of Python by its contract

    [str()] of a value that is no [str], a text this development does
    not spell out; and [list.sort(key=..., reverse=True)], given as the
    comparison [lt a b] of two keys, [key(a) < key(b)], which may
    raise. Of the sort Python promises this much: what it returns is a
    permutation of the list; what it raises, a comparison raised; and
    where [<] raises nothing and is a strict weak order on the keys at
    hand, the result is the stable descending arrangement. On other
    keys, such as nan, the order it leaves depends on the algorithm of
    the interpreter and is not fixed here. *)
Class Python : Type := {
  str_value : json_value -> string;
  sort_reverse : forall A : Type, (A -> A -> M bool) -> list A -> M (list A);
  sort_reverse_permutes :
    forall (A : Type) (lt : A -> A -> M bool) (l l' : list A),
      sort_reverse A lt l = inr l' -> Permutation l l';
  sort_reverse_raises :
    forall (A : Type) (lt : A -> A -> M bool) (l : list A) (e : exn),
      sort_reverse A lt l = inl e ->
      exists a b, In a l /\ In b l /\ lt a b = inl e;
  sort_reverse_ordered :
    forall (A : Type) (lt : A -> A -> M bool) (below : A -> A -> bool) (l : list A),
      (forall a b, In a l -> In b l -> lt a b = inr (below a b)) ->
      (forall a b, In a l -> In b l -> below a b = true -> below b a = false) ->
      (forall a b c, In a l -> In b l -> In c l ->
         below a b = false -> below b c = false -> below a c = false) ->
      sort_reverse A lt l = inr (PyList.stable_descending below l)
}.

Arguments sort_reverse {Python A} lt l.

Module Json.

(** A [dict] with [str] keys. *)
Definition dict : Type := list (string * json_value).

(** [type(v).__name__] *)
Definition type_name (v : json_value) : string :=
  match v with
  | JNull => "NoneType"
  | JBool _ => "bool"
  | JNumber (PyInt _) => "int"
  | JNumber (PyFloat _) => "float"
  | JString _ => "str"
  | JArray _ => "list"
  | JObject _ => "dict"
  end.

(** The number a value is, when it is one: a [bool] is an [int]. *)
Definition number_of (v : json_value) : option pynum :=
  match v with
  | JNumber n => Some n
  | JBool b => Some (PyInt (if b then 1 else 0))
  | _ => None
  end.

Definition is_nan (v : json_value) : bool :=
  match v with
  | JNumber n => Num.is_nan n
  | _ => false
  end.

(** [a is b or a == b], the way [list], [dict] and [tuple] compare their
    items: two [NaN] of a document are the same object. *)
Fixpoint same (a b : json_value) {struct a} : bool :=
  match a, b with
  | JNull, JNull => true
  | JString s, JString t => (s =? t)%string
  | JArray l, JArray m =>
      (fix same_items (l m : list json_value) {struct l} : bool :=
         match l, m with
         | [], [] => true
         | x :: l', y :: m' => same x y && same_items l' m'
         | _, _ => false
         end) l m
  | JObject d, JObject e =>
      (fix same_values (seen : list string) (d : list (string * json_value))
           {struct d} : bool :=
         match d with
         | [] => true
         | (k, v) :: d' =>
             (if existsb (String.eqb k) seen then true
              else match dict_find e k with
                   | Some w => same v w
                   | None => false
                   end)
             && same_values (k :: seen) d'
         end) [] d
      && forallb (fun item => match dict_find d (fst item) with
                              | Some _ => true
                              | None => false
                              end) e
  | _, _ =>
      match number_of a, number_of b with
      | Some x, Some y => Num.eq x y || (is_nan a && is_nan b)
      | _, _ => false
      end
  end.

(** [a < b] *)
Fixpoint less (a b : json_value) {struct a} : M bool :=
  match a, b with
  | JString s, JString t => ret (String.ltb s t)
  | JArray l, JArray m =>
      (fix less_items (l m : list json_value) {struct l} : M bool :=
         match l, m with
         | x :: l', y :: m' => if same x y then less_items l' m' else less x y
         | [], _ :: _ => ret true
         | _, [] => ret false
         end) l m
  | _, _ =>
      match number_of a, number_of b with
      | Some x, Some y => ret (Num.lt x y)
      | _, _ =>
          raise (TypeError ("'<' not supported between instances of '" ++
                            type_name a ++ "' and '" ++ type_name b ++ "'"))
      end
  end.

(** [str(v)] *)
Definition str {P : Python} (v : json_value) : string :=
  match v with
  | JString s => s
  | _ => str_value v
  end.

(** [v[:n]] for [n >= 0] *)
Definition slice_to (n : nat) (v : json_value) : M json_value :=
  match v with
  | JString s => ret (JString (Str.take n s))
  | JArray l => ret (JArray (firstn n l))
  | JObject _ => raise (TypeError "unhashable type: 'slice'")
  | _ => raise (TypeError ("'" ++ type_name v ++ "' object is not subscriptable"))
  end.

(** The keys of a [dict], each once, in order. *)
Fixpoint keys (d : dict) : list string :=
  match d with
  | [] => []
  | (k, _) :: d' => k :: filter (fun k' => negb (k' =? k)%string) (keys d')
  end.

(** [for x in v]: what the loop goes through. *)
Definition iterate (v : json_value) : M (list json_value) :=
  match v with
  | JArray l => ret l
  | JString s => ret (map (fun a => JString (String a "")) (list_ascii_of_string s))
  | JObject d => ret (map JString (keys d))
  | _ => raise (TypeError ("'" ++ type_name v ++ "' object is not iterable"))
  end.

(** [v.get]: the method is there on a [dict] only. *)
Definition as_dict (v : json_value) : M dict :=
  match v with
  | JObject d => ret d
  | _ => raise (AttributeError ("'" ++ type_name v ++ "' object has no attribute 'get'"))
  end.

End Json.

(** ** Data model *)

(** A price as [extract_price] sees it: absent ([None]), a string, a
    list, or some other value. It sees of a list element, and of a
    value of another type, only the text [str()] gives for it (for a
    string, the string itself) and whether the value is truthy; that is
    how they are kept here. *)
Inductive price_repr : Type :=
| PriceNone
| PriceStr (s : string)
| PriceList (l : list string)
| PriceOther (truthy : bool) (str : string).

(** The rating of a product record: the value of the search result as
    it was decoded, or the [float] that line 121 made of a text, an
    object of its own. *)
Inductive rating_value : Type :=
| Kept (v : json_value)
| Parsed (f : float64).

(** The product record of [fetch_amazon_products]. Its title, link,
    description, image, delivery and prime are values of the search
    result, of whatever type. *)
Record product : Type := {
  title : json_value;
  price : float64;
  price_str : string;
  rating : rating_value;
  reviews_count : json_value;
  link : json_value;
  description : json_value;
  image : json_value;
  delivery : json_value;
  prime : json_value
}.

Record response : Type := {
  status_code : Z;
  reason : string;
  url : string;
  json : M json_value             (* what [response.json()] does *)
}.

Record search_params : Type := {
  p_engine : string;
  p_amazon_domain : string;
  p_api_key : string;
  p_k : string;
  p_s : string;
  p_num : Z
}.

(** A conversation turn, a [dict] with the keys ['role'] and ['content']. *)
Definition turn : Type := list (string * string).

Record intent : Type := {
  query : string;
  min_price : pynum;
  max_price : pynum
}.

Record chat_request : Type := {
  model : string;
  messages : list turn;
  max_tokens : Z;
  temperature : Q
}.

(** ** [extract_price] and [format_delivery] *)

(** [bool(x)] *)
Definition price_truthy (p : price_repr) : bool :=
  match p with
  | PriceNone => false
  | PriceStr s => negb (s =? "")%string
  | PriceList l => match l with [] => false | _ => true end
  | PriceOther truthy _ => truthy
  end.

(** [[\d.,]] *)
Definition price_char (a : ascii) : bool :=
  Str.is_digit a || Ascii.eqb a "." || Ascii.eqb a ",".

(** [\d+\.?\d*] *)
Definition number_pattern : Re.regex :=
  Re.seq [Re.Rep true 1 Str.is_digit; Re.Opt (Re.Chr "."); Re.Rep true 0 Str.is_digit].

Definition extract_price (price_str : price_repr) : M float64 :=
  if negb (price_truthy price_str) then ret Float.zero else
  text <- match price_str with
          | PriceList l =>
              match l with
              | [] => ret "0"
              | _ => PyList.first l
              end
          | PriceStr s => ret s
          | PriceOther _ str => ret str
          | PriceNone => ret "None"
          end ;;
  let price_clean := Re.delete_class (fun a => negb (price_char a)) text in
  let price_clean := Str.replace_char "," "." price_clean in
  let numbers := Re.findall number_pattern price_clean in
  match numbers with
  | first_number :: _ =>
      match Float.float first_number with
      | inl (ValueError _) => ret Float.zero
      | r => r
      end
  | [] => ret Float.zero
  end.

(** What is returned is a [str], or the slice of a list when the first
    element of [delivery_info] is a list itself. *)
Definition format_delivery {P : Python} (delivery_info : json_value)
    : M json_value :=
  if negb (json_truthy delivery_info) then ret (JString "Standard") else
  match delivery_info with
  | JArray l =>
      match l with
      | [] => ret (JString "Standard")
      | _ => d <- PyList.first l ;; Json.slice_to 30 d
      end
  | _ => ret (JString (Str.take 30 (Json.str delivery_info)))
  end.

(** ** [fetch_amazon_products] *)

Section ProductSearch.

Context {P : Python}.

(** [requests.get(url, params=..., timeout=...)] and [config["serp_key"]].
    The user-interface text is spelled as in the source file. *)
Variable requests_get : string -> search_params -> Z -> M response.
Variable serp_key : string.

(** A decoded value, as [extract_price] sees it. *)
Definition as_price (v : json_value) : price_repr :=
  match v with
  | JNull => PriceNone
  | JString s => PriceStr s
  | JArray l => PriceList (map Json.str l)
  | _ => PriceOther (json_truthy v) (Json.str v)
  end.

(** [product.get("price_str") or product.get("price", "0")] *)
Definition price_field (raw : Json.dict) : json_value :=
  let p := dict_get raw "price_str" JNull in
  if json_truthy p then p else dict_get raw "price" (JString "0").

(** Lines 118-123: the rating, kept as it is, or a text whose first
    word is read as a float, any failure giving 0. *)
Definition read_rating (raw : Json.dict) : rating_value :=
  match dict_get raw "rating" (JNumber (PyInt 0)) with
  | JString s =>
      match (w <- PyList.first (Str.split s) ;; Float.float w) with
      | inr f => Parsed f
      | inl _ => Kept (JNumber (PyInt 0))
      end
  | v => Kept v
  end.

(** Lines 125-127: the review count, kept as it is, or the digits of a
    text, [int(re.sub(r'[^\d]', '', reviews_count) or 0)]. *)
Definition read_reviews_count (raw : Json.dict) : M json_value :=
  match dict_get raw "ratings_total" (JNumber (PyInt 0)) with
  | JString s =>
      let digits := Re.delete_class (fun a => negb (Str.is_digit a)) s in
      if (digits =? "")%string then ret (JNumber (PyInt 0))
      else n <- Int.int digits ;; ret (JNumber (PyInt n))
  | v => ret v
  end.

(** [f"${price_val:.2f}" if price_val > 0 else "Prix non disponible"] *)
Definition price_label (price_val : float64) : string :=
  if Num.lt (PyInt 0) (PyFloat price_val)
  then "$" ++ Float.format_2f price_val
  else "Prix non disponible".

(** Lines 118-140: the record appended for an entry that passed the
    price filter. *)
Definition make_product (raw : Json.dict) (price_val : float64)
    : M product :=
  let rating := read_rating raw in
  reviews_count <- read_reviews_count raw ;;
  ret {| title := dict_get raw "title" (JString "Produit sans titre");
         price := price_val;
         price_str := price_label price_val;
         rating := rating;
         reviews_count := reviews_count;
         link := dict_get raw "link" (JString "");
         description := dict_get raw "snippet" (JString "Description non disponible");
         image := dict_get raw "image" (JString "");
         delivery := dict_get raw "delivery" (JString "");
         prime := dict_get raw "prime" (JBool false) |}.

(** [min_price <= price_val <= max_price] *)
Definition in_band (min_price max_price : pynum) (price_val : float64) : bool :=
  Num.le min_price (PyFloat price_val) && Num.le (PyFloat price_val) max_price.

(** The loop of lines 114-140, over what the [for] goes through. The
    first [product.get] of line 115 needs a [dict]. *)
Fixpoint collect (results : list json_value) (min_price max_price : pynum)
    : M (list product) :=
  match results with
  | [] => ret []
  | product :: rest =>
      product <- Json.as_dict product ;;
      price_val <- extract_price (as_price (price_field product)) ;;
      if in_band min_price max_price price_val then
        p <- make_product product price_val ;;
        ps <- collect rest min_price max_price ;;
        ret (p :: ps)
      else collect rest min_price max_price
  end.

(** The rating as a value, whichever way it came. *)
Definition rating_json (r : rating_value) : json_value :=
  match r with
  | Kept v => v
  | Parsed f => JNumber (PyFloat f)
  end.

(** [a is b or a == b] on two ratings: a [float] made at line 121 is
    the same as nothing else, and equal by value only. *)
Definition rating_same (a b : rating_value) : bool :=
  match a, b with
  | Kept v, Kept w => Json.same v w
  | _, _ =>
      match Json.number_of (rating_json a), Json.number_of (rating_json b) with
      | Some x, Some y => Num.eq x y
      | _, _ => false
      end
  end.

(** [(a["rating"], a["reviews_count"]) == (b["rating"], b["reviews_count"])] *)
Definition key_same (a b : product) : bool :=
  rating_same (rating a) (rating b) &&
  Json.same (reviews_count a) (reviews_count b).

(** [(a["rating"], a["reviews_count"]) < (b["rating"], b["reviews_count"])]:
    the first items that are not the same decide. *)
Definition key_lt (a b : product) : M bool :=
  if rating_same (rating a) (rating b) then
    if Json.same (reviews_count a) (reviews_count b) then ret false
    else Json.less (reviews_count a) (reviews_count b)
  else Json.less (rating_json (rating a)) (rating_json (rating b)).

(** Lines 142-143. *)
Definition rank (num_results : Z) (products : list product)
    : M (list product) :=
  products <- sort_reverse key_lt products ;;
  ret (PyList.slice_to num_results products).

(** [response.raise_for_status()] *)
Definition raise_for_status (r : response) : M unit :=
  if ((400 <=? status_code r) && (status_code r <? 600))%Z
  then raise (HTTPError
                (Float.string_of_Z (status_code r) ++
                 (if (status_code r <? 500)%Z then " Client Error: "
                  else " Server Error: ") ++
                 reason r ++ " for url: " ++ url r))
  else ret tt.

Definition default_min_price : pynum := PyInt 0.
Definition default_max_price : pynum := PyInt 1000.
Definition default_num_results : Z := 4.

Definition search_url : string := "https://serpapi.com/search.json".

Definition request_params (query : string) (num_results : Z) : search_params :=
  {| p_engine := "amazon";
     p_amazon_domain := "amazon.fr";
     p_api_key := serp_key;
     p_k := query;
     p_s := "review-rank";
     p_num := (num_results * 2)%Z |}.

(** The body of the [try]. *)
Definition search_products (query : string) (min_price max_price : pynum)
    (num_results : Z) : M (list product) :=
  let url := search_url in
  let params := request_params query num_results in
  response <- requests_get url params 15 ;;
  _ <- raise_for_status response ;;
  data <- json response ;;
  data <- Json.as_dict data ;;
  results <- Json.iterate (dict_get data "organic_results" (JArray [])) ;;
  products <- collect results min_price max_price ;;
  rank num_results products.

(** The products returned and the messages shown with [st.error]. *)
Definition fetch_amazon_products (query : string) (min_price max_price : pynum)
    (num_results : Z) : list product * list string :=
  match search_products query min_price max_price num_results with
  | inr products => (products, [])
  | inl e => ([], ["⚠️ Erreur recherche : " ++ exn_str e])
  end.

End ProductSearch.

(** ** [extract_search_intent] *)

Definition space1 : Re.regex := Re.Rep true 1 Str.is_space.   (* \s+ *)
Definition space0 : Re.regex := Re.Rep true 0 Str.is_space.   (* \s* *)
Definition a_grave : ascii := "224".                          (* à *)

(** [(?:\s+entre|\s+dans|\s+à|\s+pour|\.|$)] *)
Definition phrase_end : Re.regex :=
  Re.alt (Re.Seq space1 (Re.word "entre"))
         [Re.Seq space1 (Re.word "dans");
          Re.Seq space1 (Re.Chr a_grave);
          Re.Seq space1 (Re.word "pour");
          Re.Chr ".";
          Re.Eos].

(** [verb\s+(.+?)(?:...)] *)
Definition trigger (verb : Re.regex) : Re.regex :=
  Re.seq [verb; space1; Re.Grp 1 (Re.Rep false 1 Str.not_newline); phrase_end].

Definition search_patterns : list Re.regex :=
  [ trigger (Re.Seq (Re.word "cherchon") (Re.Opt (Re.Chr "s")));
    trigger (Re.word "recherche");
    trigger (Re.Seq (Re.word "regardon") (Re.Opt (Re.Chr "s"))) ].

(** [entre\s+(\d+)\s*(?:et|à|-)\s*(\d+)] *)
Definition budget_pattern : Re.regex :=
  Re.seq [Re.word "entre"; space1;
          Re.Grp 1 (Re.Rep true 1 Str.is_digit);
          space0;
          Re.alt (Re.word "et") [Re.Chr a_grave; Re.Chr "-"];
          space0;
          Re.Grp 2 (Re.Rep true 1 Str.is_digit)].

(** [m.group(n)] used as a [str]. *)
Definition group_str (n : nat) (m : Re.match_obj) : M string :=
  match Re.group n m with
  | Some s => ret s
  | None => raise (AttributeError "'NoneType' object has no attribute")
  end.

(** [float(budget_match.group(n)) if budget_match else default] *)
Definition budget_bound (budget_match : option Re.match_obj) (n : nat)
    (default : pynum) : M pynum :=
  match budget_match with
  | Some b => g <- group_str n b ;; f <- Float.float g ;; ret (PyFloat f)
  | None => ret default
  end.

(** The loop of lines 198-212 over the lowered last message. *)
Fixpoint first_intent (patterns : list Re.regex) (text : string)
    : M (option intent) :=
  match patterns with
  | [] => ret None
  | pattern :: rest =>
      match Re.search pattern text with
      | Some m =>
          g <- group_str 1 m ;;
          let query := Str.strip g in
          let budget_match := Re.search budget_pattern text in
          min_price <- budget_bound budget_match 1 (PyInt 0) ;;
          max_price <- budget_bound budget_match 2 (PyInt 1000) ;;
          ret (Some {| query := query;
                       min_price := min_price;
                       max_price := max_price |})
      | None => first_intent rest text
      end
  end.

Definition extract_search_intent (conversation_history : list turn)
    : M (option intent) :=
  match conversation_history with
  | [] => ret None
  | _ =>
      last_turn <- PyList.last_item conversation_history ;;
      let last_message := dict_get last_turn "content" "" in
      first_intent search_patterns (Str.lower last_message)
  end.

(** ** [chat_with_assistant] *)

Definition nl : string := String "010" EmptyString.
Definition dquote : string := String "034" EmptyString.

Definition message (role content : string) : turn :=
  [("role", role); ("content", content)].

(** [response.choices[0].message.content.strip()] *)
Definition reply_text (choices : list (option string)) : M string :=
  choice <- PyList.first choices ;;
  match choice with
  | Some content => ret (Str.strip content)
  | None => raise (AttributeError "'NoneType' object has no attribute 'strip'")
  end.

Section Chat.

(** The user context, [json.dumps(..., indent=2, ensure_ascii=False)] on
    it and on a history, the persona text, and the client's
    [chat.completions.create], which answers with the message contents
    of its choices or raises. *)
Variable context : Type.
Variable dumps_context : context -> string.
Variable dumps_history : list turn -> string.
Variable ASSISTANT_PERSONA : string.
Variable create : chat_request -> M (list (option string)).

(** The definition of line 149. The one of line 442 rebinds the name
    before [main()] runs, so no call reaches this one. *)
Definition shadowed_request (user_message : string)
    (conversation_history : list turn) (user_context : context)
    : chat_request :=
  let recent :=
    if 4 <? List.length conversation_history
    then PyList.last_n 4 conversation_history
    else conversation_history in
  let context_info :=
    nl ++
    "    CONTEXTE UTILISATEUR ACTUEL :" ++
    nl ++
    "    " ++
    dumps_context user_context ++
    nl ++
    "    " ++
    nl ++
    "    HISTORIQUE RÉCENT :" ++
    nl ++
    "    " ++
    dumps_history recent ++
    nl ++
    "    " in
  let messages :=
    ([message "system" (ASSISTANT_PERSONA ++ nl ++ nl ++ context_info)]
     ++ PyList.last_n 6 conversation_history
     ++ [message "user" user_message])%list in
  {| model := "gpt-4o-mini";
     messages := messages;
     max_tokens := 400;
     temperature := 8 # 10 |}.

Definition chat_with_assistant_shadowed (user_message : string)
    (conversation_history : list turn) (user_context : context) : string :=
  match (choices <- create (shadowed_request user_message
                              conversation_history user_context) ;;
         reply_text choices) with
  | inr text => text
  | inl e => "Désolé, j'ai un problème technique : " ++ exn_str e
  end.

Definition fallback_reply : string :=
  "Désolé, j'ai un petit souci technique... Pouvez-vous répéter ? 😅".

(** The definition of line 442, the one the program calls: the request
    it sends, then the call and its handler. *)
Definition completion_request (user_message : string)
    (conversation_history : list turn) (user_context : context)
    : chat_request :=
  let context_info :=
    nl ++
    "    INFORMATIONS COLLECTÉES SUR L'UTILISATEUR :" ++
    nl ++
    "    " ++
    dumps_context user_context ++
    nl ++
    "    " ++
    nl ++
    "    INSTRUCTIONS SPÉCIALES :" ++
    nl ++
    "    - Si tu as assez d'informations pour faire une recherche, utilise ce format exact : " ++
    dquote ++
    "cherchons [terme de recherche] entre [prix_min] et [prix_max]" ++
    dquote ++
    nl ++
    "    - Sinon, pose 1-2 questions naturelles pour mieux cerner les besoins" ++
    nl ++
    "    - Vulgarise toujours les aspects techniques" ++
    nl ++
    "    - Reste dans ton rôle d'Alex, conseiller sympa et expert" ++
    nl ++
    "    " in
  let messages :=
    ([message "system" (ASSISTANT_PERSONA ++ nl ++ nl ++ context_info)]
     ++ PyList.last_n 8 conversation_history
     ++ [message "user" user_message])%list in
  {| model := "gpt-4o-mini";
     messages := messages;
     max_tokens := 300;
     temperature := 8 # 10 |}.

Definition chat_with_assistant (user_message : string)
    (conversation_history : list turn) (user_context : context) : string :=
  match (choices <- create (completion_request user_message
                              conversation_history user_context) ;;
         reply_text choices) with
  | inr text => text
  | inl e => fallback_reply
  end.

End Chat.

(** ** Auxiliary definitions for the statements *)

(** *** Prices *)

(** Digits, with the full stop they may hold. *)
Definition numeral_char (a : ascii) : bool := Str.is_digit a || Ascii.eqb a ".".

(** Where [scan_digits] stops: at the end, or before a character that is
    neither a digit nor an underscore. *)
Definition ends_digits (r : string) : bool :=
  match r with
  | EmptyString => true
  | String c _ => negb (Str.is_digit c) && negb (Ascii.eqb c "_")
  end.

(** The length of what [\d+\.?\d*] takes at the head of [s]. *)
Definition number_len (s : string) : nat :=
  let n := Str.span_len Str.is_digit s in
  match Str.drop n s with
  | String "." r => n + 1 + Str.span_len Str.is_digit r
  | _ => n
  end.

(** A float that is [0.0], positive or [inf]. *)
Definition nonneg_float (f : float64) : bool :=
  match f with
  | Finite false _ _ | Infinite false => true
  | _ => false
  end.

(** The float of the numeral [ip.fp]: the binary64 nearest to it. *)
Definition decimal (ip fp : string) : float64 :=
  of_decimal false (digits_value 0 (ip ++ fp)) (- Z.of_nat (String.length fp)).

(** The text [extract_price] reads: the string, the head of the list,
    the text of a truthy value of another type. *)
Definition price_text (p : price_repr) : option string :=
  match p with
  | PriceStr s => Some s
  | PriceList (s :: _) => Some s
  | PriceOther true s => Some s
  | _ => None
  end.

(** [price_clean] of lines 75-76. *)
Definition clean (text : string) : string :=
  Str.replace_char "," "." (Re.delete_class (fun a => negb (price_char a)) text).

(** Lines 75-84 of [extract_price], on the text it reads. *)
Definition price_of_text (text : string) : M float64 :=
  match Re.findall number_pattern (clean text) with
  | first_number :: _ =>
      match Float.float first_number with
      | inl (ValueError _) => ret Float.zero
      | r => r
      end
  | [] => ret Float.zero
  end.

(** *** The pipeline, entry by entry *)

(** The digits of a text, in order. *)
Definition digits_of (s : string) : string :=
  Re.delete_class (fun a => negb (Str.is_digit a)) s.

(** The review count of an entry can be read: it is no text, or a text
    with no more digits than [int] takes. *)
Definition count_readable (raw : Json.dict) : bool :=
  match dict_get raw "ratings_total" (JNumber (PyInt 0)) with
  | JString s => String.length (digits_of s) <=? Int.max_str_digits
  | _ => true
  end.

Definition reviews_of (raw : Json.dict) : json_value :=
  match read_reviews_count raw with
  | inr n => n
  | inl _ => JNumber (PyInt 0)
  end.


(** The ways the product-search call fails: the request raises, the
    status is an error status, the body is not what [json()] decodes. *)
Definition call_fails (outcome : M response) : Prop :=
  match outcome with
  | inl _ => True
  | inr r => (400 <= status_code r < 600)%Z \/ exists e, json r = inl e
  end.

Section Entries.

Context {P : Python}.

(** The normalized price of an entry: what [extract_price] returns for
    it, which it always does. *)
Definition normalized_price (raw : Json.dict) : float64 :=
  match extract_price (as_price (price_field raw)) with
  | inr f => f
  | inl _ => Float.zero
  end.

(** The record the loop appends for an entry, when its review count can
    be read. *)
Definition record_of (raw : Json.dict) : product :=
  {| title := dict_get raw "title" (JString "Produit sans titre");
     price := normalized_price raw;
     price_str := price_label (normalized_price raw);
     rating := read_rating raw;
     reviews_count := reviews_of raw;
     link := dict_get raw "link" (JString "");
     description := dict_get raw "snippet" (JString "Description non disponible");
     image := dict_get raw "image" (JString "");
     delivery := dict_get raw "delivery" (JString "");
     prime := dict_get raw "prime" (JBool false) |}.

(** The entry's normalized price lies in the requested band. *)
Definition within_band (min_price max_price : pynum) (raw : Json.dict) : bool :=
  in_band min_price max_price (normalized_price raw).

End Entries.

(** *** Ranking keys *)

(** Two pairs of numbers, the way Python compares tuples. *)
Definition pair_lt (a b : pynum * pynum) : bool :=
  if Num.eq (fst a) (fst b)
  then Num.lt (snd a) (snd b)
  else Num.lt (fst a) (fst b).

(** Both numbers of a pair are ordered by [<]: neither is nan. *)
Definition pair_ordered (k : pynum * pynum) : Prop :=
  Num.is_nan (fst k) = false /\ Num.is_nan (snd k) = false.

(** The key of a record whose rating and review count are numbers. *)
Definition key_of (p : product) : option (pynum * pynum) :=
  match Json.number_of (rating_json (rating p)),
        Json.number_of (reviews_count p) with
  | Some r, Some c => Some (r, c)
  | _, _ => None
  end.

(** Rating and review count are numbers that [<] orders: neither is nan. *)
Definition key_ordered (p : product) : Prop :=
  match key_of p with
  | Some k => pair_ordered k
  | None => False
  end.

(** The key of [a] is below the key of [b]: the comparison says so. *)
Definition key_below (a b : product) : bool :=
  match key_lt a b with
  | inr true => true
  | _ => false
  end.

(** [key(a) >= key(b)]: the key of [a] is above the key of [b], or the
    two are the same. *)
Definition key_ge (a b : product) : Prop :=
  key_lt b a = inr true \/ key_same a b = true.

(** Sorted by key, descending: the key of each record is greater than
    or equal to the key of every record after it. *)
Definition descending (l : list product) : Prop := StronglySorted key_ge l.

(** Pairwise distinct keys: no two records have the same key. *)
Definition distinct_keys (l : list product) : Prop :=
  ForallOrdPairs (fun a b => key_same a b = false) l.

(** *** The intent detector, pattern by pattern *)

(** The match of the first pattern, in the order of the list, that
    matches somewhere in the text. *)
Fixpoint first_match (patterns : list Re.regex) (text : string)
    : option Re.match_obj :=
  match patterns with
  | [] => None
  | pattern :: rest =>
      match Re.search pattern text with
      | Some m => Some m
      | None => first_match rest text
      end
  end.

(** Lines 201-212: the intent built from a trigger match. *)
Definition intent_of (m : Re.match_obj) (text : string) : M (option intent) :=
  g <- group_str 1 m ;;
  let budget_match := Re.search budget_pattern text in
  min_price <- budget_bound budget_match 1 (PyInt 0) ;;
  max_price <- budget_bound budget_match 2 (PyInt 1000) ;;
  ret (Some {| query := Str.strip g;
               min_price := min_price;
               max_price := max_price |}).

(** The text the detector scans: the last turn's content, lowered. *)
Definition scanned (t : turn) : string := Str.lower (dict_get t "content" "").

Definition has_group (n : nat) (g : Re.groups) : Prop := Re.lookup n g <> None.

(** *** Sample data *)

(** Insertion from the right with a comparison that may raise: a sort
    that keeps the contract of [list.sort]. *)
Fixpoint insert_by {A} (lt : A -> A -> M bool) (x : A) (l : list A) : M (list A) :=
  match l with
  | [] => ret [x]
  | y :: l' =>
      below <- lt x y ;;
      if below then l'' <- insert_by lt x l' ;; ret (y :: l'')
      else ret (x :: l)
  end.

Fixpoint insertion_sort {A} (lt : A -> A -> M bool) (l : list A) : M (list A) :=
  match l with
  | [] => ret []
  | x :: l' => sorted <- insertion_sort lt l' ;; insert_by lt x sorted
  end.

(** [str()] on [None], the booleans and the integers; the samples apply
    it to nothing else. *)
Definition sample_str (v : json_value) : string :=
  match v with
  | JNull => "None"
  | JBool true => "True"
  | JBool false => "False"
  | JNumber (PyInt z) => Float.string_of_Z z
  | _ => ""
  end.

Definition sample_python : Python.
Proof.
  refine {| str_value := sample_str; sort_reverse := @insertion_sort |}.
  - intros A lt l. induction l as [|x l IH]; intros l' H; cbn in H.
    + injection H as <-. constructor.
    + destruct (insertion_sort lt l) as [e|sorted]; [discriminate|]. cbn in H.
      specialize (IH sorted Logic.eq_refl).
      transitivity (x :: sorted); [now constructor|].
      clear IH. revert l' H.
      induction sorted as [|y sorted IH]; intros l' H; cbn in H.
      * injection H as <-. reflexivity.
      * destruct (lt x y) as [e|[|]]; cbn in H; [discriminate| |].
        -- destruct (insert_by lt x sorted) as [e|l'']; [discriminate|].
           injection H as <-. rewrite perm_swap. constructor. now apply IH.
        -- injection H as <-. reflexivity.
  - intros A lt l. induction l as [|x l IH]; intros e H; cbn in H; [discriminate|].
    destruct (insertion_sort lt l) as [e'|sorted] eqn:Es; cbn in H.
    + injection H as <-. destruct (IH e' Logic.eq_refl) as (a & b & Ha & Hb & Hab).
      exists a, b. repeat split; auto; now right.
    + assert (Hin : forall y, In y sorted -> In y l).
      { clear H IH. revert sorted Es.
        induction l as [|z l IHl]; intros sorted Es y Hy; cbn in Es.
        - injection Es as <-. destruct Hy.
        - destruct (insertion_sort lt l) as [e'|s'] eqn:E'; [discriminate|]. cbn in Es.
          specialize (IHl s' Logic.eq_refl).
          assert (Hs : In y (z :: s')).
          { clear IHl E'. revert sorted Es Hy.
            induction s' as [|w s' IHs]; intros sorted Es Hy; cbn in Es.
            - injection Es as <-. exact Hy.
            - destruct (lt z w) as [e'|[|]]; cbn in Es; [discriminate| |].
              + destruct (insert_by lt z s') as [e'|l'']; [discriminate|].
                injection Es as <-. destruct Hy as [<-|Hy]; [right; now left|].
                destruct (IHs l'' Logic.eq_refl Hy) as [<-|H']; [now left|right; now right].
              + injection Es as <-. exact Hy. }
          destruct Hs as [<-|Hs]; [now left|right; now apply IHl]. }
      clear IH Es. induction sorted as [|y sorted IH]; cbn in H; [discriminate|].
      destruct (lt x y) as [e'|[|]] eqn:Exy; cbn in H.
      * injection H as <-. exists x, y. repeat split; auto; [now left|right; apply Hin; now left].
      * destruct (insert_by lt x sorted) as [e'|l'']; [|discriminate].
        injection H as <-. apply IH; auto. intros z Hz. apply Hin. now right.
      * discriminate.
  - intros A lt below l Hlt _ _.
    induction l as [|x l IH]; [reflexivity|].
    cbn [insertion_sort PyList.stable_descending fold_right].
    rewrite IH by (intros a b Ha Hb; apply Hlt; now right).
    cbn [bind]. fold (PyList.stable_descending below l).
    assert (Hin : forall y, In y (PyList.stable_descending below l) -> In y l).
    { clear. induction l as [|z l IHl]; intros y Hy; [destruct Hy|].
      cbn [PyList.stable_descending fold_right] in Hy.
      fold (PyList.stable_descending below l) in Hy.
      assert (Hs : In y (z :: PyList.stable_descending below l)).
      { revert Hy. generalize (PyList.stable_descending below l) as s.
        induction s as [|w s IHs]; intros Hy; cbn in Hy; [exact Hy|].
        destruct (below z w).
        - destruct Hy as [<-|Hy]; [right; now left|].
          destruct (IHs Hy) as [<-|H']; [now left|right; now right].
        - exact Hy. }
      destruct Hs as [<-|Hs]; [now left|right; now apply IHl]. }
    revert Hin. generalize (PyList.stable_descending below l) as s.
    induction s as [|y s IHs]; intros Hin; [reflexivity|].
    cbn [insert_by PyList.insert_desc].
    assert (Hx : In x (x :: l)) by now left.
    assert (Hy : In y (x :: l)) by (right; apply Hin; now left).
    rewrite (Hlt x y Hx Hy).
    cbn [bind]. destruct (below x y); [|reflexivity].
    rewrite IHs by (intros z Hz; apply Hin; now right). reflexivity.
Defined.

Definition sample_field (key : string) (v : option json_value) : Json.dict :=
  match v with
  | Some v => [(key, v)]
  | None => []
  end.

Definition sample_entry (t : string) (p r n : option json_value) : Json.dict :=
  (("title", JString t) :: sample_field "price" p ++ sample_field "rating" r
   ++ sample_field "ratings_total" n)%list.

(** Six entries; the second, fourth and fifth cost between 10 and 50. *)
Definition sample_results_with (second fifth : Json.dict) : list Json.dict :=
  [ sample_entry "A" (Some (JString "$5.99")) (Some (JNumber (PyInt 5)))
      (Some (JNumber (PyInt 10)));
    second;
    sample_entry "C" (Some (JString "$120.00")) (Some (JNumber (PyInt 4)))
      (Some (JNumber (PyInt 7)));
    sample_entry "D" (Some (JArray [JString "$49.90"; JString "$59.90"]))
      (Some (JString "4.5")) (Some (JNumber (PyInt 2000)));
    fifth;
    sample_entry "F" None (Some (JNumber (PyInt 3))) (Some (JString "12")) ].

Definition sample_results : list Json.dict :=
  sample_results_with
    (sample_entry "B" (Some (JString "12,99 EUR")) (Some (JString "4.5 sur 5"))
       (Some (JString "1 234 avis")))
    (sample_entry "E" (Some (JString "$25")) (Some (JString "n/a")) None).

(** A text of [n] nines. *)
Fixpoint nines (n : nat) : string :=
  match n with
  | O => ""
  | S k => String "9" (nines k)
  end.

(** The same entries, the review count of the second a text of 4301
    digits. *)
Definition long_count_results : list Json.dict :=
  sample_results_with
    (sample_entry "B" (Some (JString "12,99 EUR")) (Some (JString "4.5 sur 5"))
       (Some (JString (nines 4301))))
    (sample_entry "E" (Some (JString "$25")) (Some (JString "n/a")) None).

(** Six entries again, the second, the fourth and the fifth between 10
    and 50, with the ratings 1, "nan" and 2. *)
Definition nan_results : list Json.dict :=
  [ sample_entry "A" (Some (JString "$5.99")) (Some (JNumber (PyInt 5)))
      (Some (JNumber (PyInt 10)));
    sample_entry "N1" (Some (JString "$20")) (Some (JNumber (PyInt 1)))
      (Some (JNumber (PyInt 10)));
    sample_entry "C" (Some (JString "$120.00")) (Some (JNumber (PyInt 4)))
      (Some (JNumber (PyInt 7)));
    sample_entry "N2" (Some (JString "$30")) (Some (JString "nan"))
      (Some (JNumber (PyInt 20)));
    sample_entry "N3" (Some (JString "$40")) (Some (JNumber (PyInt 2)))
      (Some (JNumber (PyInt 30)));
    sample_entry "F" None (Some (JNumber (PyInt 3))) (Some (JString "12")) ].

(** A record with a rating and a review count. *)
Definition sample_record (t : string) (r : rating_value) (c : json_value)
    : product :=
  {| title := JString t;
     price := Float.zero;
     price_str := "Prix non disponible";
     rating := r;
     reviews_count := c;
     link := JString "";
     description := JString "Description non disponible";
     image := JString "";
     delivery := JString "";
     prime := JBool false |}.

(** Three records with the keys (1, 10), (nan, 20) and (2, 30), the nan
    read from a text; and two with the keys (None, 1) and (2, 3). *)
Definition nan_records : list product :=
  [ sample_record "p1" (Kept (JNumber (PyInt 1))) (JNumber (PyInt 10));
    sample_record "p2" (Parsed NaN) (JNumber (PyInt 20));
    sample_record "p3" (Kept (JNumber (PyInt 2))) (JNumber (PyInt 30)) ].

Definition null_records : list product :=
  [ sample_record "q1" (Kept JNull) (JNumber (PyInt 1));
    sample_record "q2" (Kept (JNumber (PyInt 2))) (JNumber (PyInt 3)) ].

(** The body of an answer with these entries. *)
Definition sample_body (entries : list Json.dict) : json_value :=
  JObject [("organic_results", JArray (map JObject entries))].

Definition sample_response : response :=
  {| status_code := 200; reason := "OK"; url := search_url;
     json := inr (sample_body sample_results) |}.

Definition sample_get (url : string) (params : search_params) (timeout : Z)
    : M response := inr sample_response.

(** The service that answers with these entries. *)
Definition answering (entries : list Json.dict)
    (url : string) (params : search_params) (timeout : Z) : M response :=
  inr {| status_code := 200; reason := "OK"; url := search_url;
         json := inr (sample_body entries) |}.

Definition failing_get (url : string) (params : search_params) (timeout : Z)
    : M response := inl (RequestException "timed out").

Definition failing_create (r : chat_request) : M (list (option string)) :=
  inl (APIError "rate limit").

(** * The rest of the program *)

(** ** Configuration: [load_config], [check_api_keys] and the start of
    the script *)

(** The dictionary [load_config] returns; [None] is what [os.getenv]
    gives for a variable that is not set. *)
Record config : Type := {
  config_openai_key : option string;
  config_serp_key : option string
}.

Definition load_config (getenv : string -> option string) : config :=
  {| config_openai_key := getenv "OPENAI_API_KEY";
     config_serp_key := getenv "SERPAPI_API_KEY" |}.

(** [bool(k)] for [k] that is [None] or a [str] *)
Definition key_truthy (k : option string) : bool :=
  match k with
  | Some s => negb (s =? "")%string
  | None => false
  end.

(** The value returned and the messages shown with [st.error]. *)
Definition check_api_keys (config : config) : bool * list string :=
  if negb (key_truthy (config_openai_key config))
     || negb (key_truthy (config_serp_key config))
  then (false, ["⚠️ Clés API manquantes (OPENAI_API_KEY, SERPAPI_API_KEY)"])
  else (true, []).

(** Lines 27-36: the configuration the script goes on with, [None] when
    [st.stop()] ends it, and the messages shown. *)
Definition startup (getenv : string -> option string)
    : option config * list string :=
  let config := load_config getenv in
  let (ok, shown) := check_api_keys config in
  if negb ok then (None, shown) else (Some config, shown).

(** ** More of Python's [str] and [list] *)

(** [l[n]] for [n >= 0] *)
Definition list_item {A} (n : nat) (l : list A) : M A :=
  match nth_error l n with
  | Some x => ret x
  | None => raise (IndexError "list index out of range")
  end.

(** [s.split(sep)] for a separator that is not empty: the pieces between
    the occurrences of [sep], found from the left and not overlapping.
    [skip] counts the characters of an occurrence still to pass, [tok]
    is the piece being read. *)
Fixpoint split_on_from (sep : string) (skip : nat) (tok : string) (s : string)
    : list string :=
  match s with
  | EmptyString => [tok]
  | String a s' =>
      match skip with
      | S k => split_on_from sep k tok s'
      | O =>
          if Str.starts_with sep s
          then tok :: split_on_from sep (String.length sep - 1) "" s'
          else split_on_from sep 0 (tok ++ String a "") s'
      end
  end.

Definition split_on (sep s : string) : list string := split_on_from sep 0 "" s.

(** ** [analyze_product_conversational] and [update_user_context] *)

Section Advice.

Context {P : Python}.

(** The user context, [json.dumps(..., ensure_ascii=False)] on it,
    [json.loads], and the client's [chat.completions.create]. A field of
    the product stands in the prompt as [str()] gives it. *)
Variable context : Type.
Variable dumps : context -> string.
Variable loads : string -> M json_value.
Variable create : chat_request -> M (list (option string)).

Definition analysis_prompt (product : product) (user_context : context) : string :=
  nl ++
  "    Tu es Alex, conseiller en achat. Présente ce produit à ton client en restant conversationnel :" ++
  nl ++
  nl ++
  "    PRODUIT : " ++ Json.str (title product) ++
  nl ++
  "    Prix : " ++ price_str product ++
  " | Note : " ++ Json.str (rating_json (rating product)) ++
  "/5 | Avis : " ++ Json.str (reviews_count product) ++
  nl ++
  "    Description : " ++ Json.str (description product) ++
  nl ++
  nl ++
  "    PROFIL CLIENT : " ++ dumps user_context ++
  nl ++
  nl ++
  "    Donne ton avis en 2-3 phrases comme si tu parlais à un ami :" ++
  nl ++
  "    - Pourquoi ça match avec ses besoins (ou pas)" ++
  nl ++
  "    - Un point fort technique vulgarisé" ++
  nl ++
  "    - Ton conseil final (je recommande / correct mais / à éviter)" ++
  nl ++
  nl ++
  "    Reste naturel et direct, pas commercial." ++
  nl ++
  "    ".

Definition analysis_request (product : product) (user_context : context)
    : chat_request :=
  {| model := "gpt-4o-mini";
     messages := [message "user" (analysis_prompt product user_context)];
     max_tokens := 120;
     temperature := 8 # 10 |}.

Definition analyze_product_conversational (product : product)
    (user_context : context) : string :=
  match (choices <- create (analysis_request product user_context) ;;
         reply_text choices) with
  | inr text => text
  | inl _ => "Analyse en cours..."
  end.

Definition update_prompt (user_message : string) (current_context : context)
    : string :=
  nl ++
  "    Message utilisateur : " ++ dquote ++ user_message ++ dquote ++
  nl ++
  "    Contexte actuel : " ++ dumps current_context ++
  nl ++
  "    " ++
  nl ++
  "    Extrait SEULEMENT les nouvelles informations concrètes du message utilisateur." ++
  nl ++
  "    Retourne un JSON avec les clés pertinentes. " ++
  nl ++
  "    " ++
  nl ++
  "    Exemples de clés : produit_cherche, budget, usage, taille_logement, animaux, sensibilite_bruit, priorites, contraintes, marque_preferee, etc." ++
  nl ++
  "    " ++
  nl ++
  "    Si aucune nouvelle info, retourne {}" ++
  nl ++
  "    Ne répète pas les infos déjà connues." ++
  nl ++
  "    ".

Definition update_request (user_message : string) (current_context : context)
    : chat_request :=
  {| model := "gpt-4o-mini";
     messages := [message "user" (update_prompt user_message current_context)];
     max_tokens := 100;
     temperature := 3 # 10 |}.

(** Lines 433-436: the text handed to [json.loads], once the fence and
    the language tag are off. *)
Definition json_text (result : string) : M string :=
  result <- (if Str.starts_with "```" result
             then list_item 1 (split_on "```" result)
             else ret result) ;;
  ret (if Str.starts_with "json" result then Str.drop 4 result else result).

Definition update_user_context (user_message : string)
    (current_context : context) : json_value :=
  match (choices <- create (update_request user_message current_context) ;;
         result <- reply_text choices ;;
         text <- json_text result ;;
         loads text) with
  | inr v => v
  | inl _ => JObject []
  end.

End Advice.

(** ** Auxiliary definitions for the further properties *)

(** A float that is [0.0] itself, or greater than 0. *)
Definition zero_or_positive (f : float64) : Prop :=
  f = Float.zero \/ Num.lt (PyInt 0) (PyFloat f) = true.

(** The first numeral of a cleaned text: its first run of digits and,
    when a full stop follows the run, the digits after the stop. *)
Definition first_numeral (t : string) : string * string :=
  let u := Str.drop (Str.span_len (fun a => negb (Str.is_digit a)) t) t in
  let n := Str.span_len Str.is_digit u in
  (Str.take n u,
   match Str.drop n u with
   | String "." r => Str.take (Str.span_len Str.is_digit r) r
   | _ => ""
   end).

(** The price of a text, read without pattern matching: the first
    numeral of the cleaned text as a decimal, [0.0] when there is none. *)
Definition price_read (text : string) : float64 :=
  let (ip, fp) := first_numeral (clean text) in
  if (ip =? "")%string then Float.zero else decimal ip fp.

(** Nothing, or a blank first: where a word ends. *)
Definition word_end (rest : string) : bool :=
  match rest with
  | EmptyString => true
  | String c _ => Str.is_space c
  end.

(** A text without blank. *)
Definition no_space (w : string) : bool :=
  Str.all_chars (fun a => negb (Str.is_space a)) w.

(** A text without backquote. *)
Definition no_backquote (s : string) : bool :=
  Str.all_chars (fun a => negb (Ascii.eqb a "`")) s.

(** The first character is no blank: the text is empty or starts with
    something else. *)
Definition starts_blank (b : ascii -> bool) (s : string) : bool :=
  match s with
  | String a _ => b a
  | EmptyString => false
  end.

(** Every character is one that [lower] leaves as it is. *)
Definition lowered (s : string) : bool :=
  Str.all_chars (fun a => Ascii.eqb (Str.lower_char a) a) s.

(** ** [main]: a run of the script

    Streamlit runs [main] again at every interaction;
    [st.session_state] is what lasts from one run to the next. A run is
    kept here as what it does to the session state and how it ends. The
    calls that draw write nothing there; those that are given a text
    of the script return and are left out, and of the others only
    whether they raise is kept. *)

(** A text of the source file, where a letter outside ASCII stands as
    its two bytes of UTF-8, as the [str] it denotes, one character per
    letter. The emoji of the texts, outside Latin-1, stay as their
    bytes, none of which is a blank, a digit or a letter that [lower]
    changes. *)
Fixpoint source_text (s : string) : string :=
  match s with
  | EmptyString => EmptyString
  | String a t =>
      match t with
      | String b t' =>
          if (Str.code a =? 194)%N then String b (source_text t')
          else if (Str.code a =? 195)%N
          then String (ascii_of_N (Str.code b + 64)) (source_text t')
          else String a (source_text t)
      | EmptyString => String a EmptyString
      end
  end.

(** What ends a run before its last line. *)
Inductive halt : Type :=
| Rerun                          (* st.rerun() *)
| KeyError (key : string)        (* d[key] without that key *)
| Uncaught (e : exn).            (* another exception, which nothing catches *)

Definition welcome_msg : string :=
  source_text
    (nl ++
     "        Salut ! 👋 Je suis Alex, votre conseiller d'achat personnel." ++
     nl ++
     "        " ++
     nl ++
     "        Je suis là pour vous aider à trouver exactement ce qu'il vous faut ! " ++
     nl ++
     "        " ++
     nl ++
     "        Dites-moi simplement ce que vous cherchez et parlons-en ensemble. " ++
     nl ++
     "        Par exemple : " ++ dquote ++ "Je cherche un aspirateur" ++ dquote ++
     " ou " ++ dquote ++ "J'ai besoin d'un casque pour le télétravail" ++ dquote ++
     nl ++
     "        " ++
     nl ++
     "        Qu'est-ce que je peux vous aider à trouver aujourd'hui ? 😊" ++
     nl ++
     "        ").

(** [f"Recherche effectuée pour '{query}' - {n} produits trouvés"] *)
Definition search_summary (query : string) (n : nat) : string :=
  source_text "Recherche effectuée pour '" ++ query ++ "' - " ++
  Float.string_of_Z (Z.of_nat n) ++ source_text " produits trouvés".

(** What the script runs with. Of the Python runtime: the user context,
    a [dict], with [{}]; [json.dumps] on it with and without
    [indent=2]; [json.loads]; [c.update(v)], which changes [c] in place
    and may raise, perhaps after a part of the change; and the drawing
    that may raise on what it is given: the format specifications of
    lines 311 and 313, [st.image] of line 332, and the lines 381-386 on
    the context. Of the module: the text of [ASSISTANT_PERSONA] and
    [config["serp_key"]]. *)
Class Runtime : Type := {
  context : Type;
  empty_context : context;
  dumps_indented : context -> string;
  dumps : context -> string;
  loads : string -> M json_value;
  dict_update : context -> json_value -> context * option exn;
  format_metrics : product -> M unit;
  show_image : json_value -> M unit;
  show_context : context -> M unit;
  ASSISTANT_PERSONA : string;
  serp_key : string
}.

Section Script.

Context {P : Python} {R : Runtime}.

(** [st.session_state]: each of its three keys is there or not. *)
Record session : Type := {
  conversation : option (list turn);
  user_context : option context;
  products_shown : option bool
}.

Definition no_session : session :=
  {| conversation := None; user_context := None; products_shown := None |}.

(** A piece of a run: the session state it leaves, and its value or
    what ended the run. *)
Definition Run (A : Type) : Type := session -> session * (halt + A).

Definition done {A} (a : A) : Run A := fun s => (s, inr a).

Definition stop {A} (h : halt) : Run A := fun s => (s, inl h).

Definition next {A B} (c : Run A) (f : A -> Run B) : Run B :=
  fun s =>
    match c s with
    | (s', inr a) => f a s'
    | (s', inl h) => (s', inl h)
    end.

Notation "x <~ c ;; k" := (next c (fun x => k))
  (at level 61, c at next level, right associativity).

(** A computation that may raise, inside a run. *)
Definition lift {A} (c : M A) : Run A :=
  fun s =>
    match c with
    | inr a => (s, inr a)
    | inl e => (s, inl (Uncaught e))
    end.

(** [st.session_state.conversation] *)
Definition the_conversation : Run (list turn) :=
  fun s =>
    match conversation s with
    | Some c => (s, inr c)
    | None => (s, inl (Uncaught (AttributeError "st.session_state has no attribute conversation")))
    end.

(** [st.session_state.user_context] *)
Definition the_user_context : Run context :=
  fun s =>
    match user_context s with
    | Some c => (s, inr c)
    | None => (s, inl (Uncaught (AttributeError "st.session_state has no attribute user_context")))
    end.

Definition set_conversation (c : list turn) : Run unit :=
  fun s => ({| conversation := Some c;
               user_context := user_context s;
               products_shown := products_shown s |}, inr tt).

Definition set_user_context (c : context) : Run unit :=
  fun s => ({| conversation := conversation s;
               user_context := Some c;
               products_shown := products_shown s |}, inr tt).

Definition set_products_shown (b : bool) : Run unit :=
  fun s => ({| conversation := conversation s;
               user_context := user_context s;
               products_shown := Some b |}, inr tt).

Definition session_state : Run session := fun s => (s, inr s).

(** Lines 392-394: the three keys are deleted. *)
Definition clear_session : Run unit := fun _ => (no_session, inr tt).

(** [st.session_state.conversation.append(t)] *)
Definition append_turn (t : turn) : Run unit :=
  c <~ the_conversation ;; set_conversation (c ++ [t]).

(** [message[key]] *)
Definition item (message : turn) (key : string) : Run string :=
  match dict_find message key with
  | Some v => done v
  | None => stop (KeyError key)
  end.

(** Lines 253-267. *)
Definition start_session : Run unit :=
  fun s =>
    match conversation s with
    | None =>
        ({| conversation := Some [message "assistant" welcome_msg];
            user_context := Some empty_context;
            products_shown := products_shown s |}, inr tt)
    | Some _ => (s, inr tt)
    end.

(** Lines 274-280: every turn is drawn, under its role. *)
Fixpoint show_history (turns : list turn) : Run unit :=
  match turns with
  | [] => done tt
  | message :: rest =>
      _ <~ item message "role" ;;
      _ <~ item message "content" ;;
      show_history rest
  end.

Section Services.

(** The two services: the chat completion and the product search. *)
Variable create : chat_request -> M (list (option string)).
Variable requests_get : string -> search_params -> Z -> M response.

(** What may raise while a product is drawn, in the order of lines
    301-332: the slice of the title, the two format specifications,
    [format_delivery], and [st.image]. *)
Definition card (product : product) : list (M unit) :=
  [ (_ <- Json.slice_to 70 (title product) ;; ret tt);
    format_metrics product;
    (_ <- format_delivery (delivery product) ;; ret tt);
    (if json_truthy (image product) then show_image (image product)
     else ret tt) ].

(** Lines 301-332: one product. *)
Definition show_product (product : product) : Run unit :=
  _ <~ lift (Json.slice_to 70 (title product)) ;;
  _ <~ lift (format_metrics product) ;;
  _ <~ lift (format_delivery (delivery product)) ;;
  user_context <~ the_user_context ;;
  let analysis :=
    analyze_product_conversational context dumps create product user_context in
  if json_truthy (image product)
  then lift (show_image (image product))
  else done tt.

Fixpoint show_products (products : list product) : Run unit :=
  match products with
  | [] => done tt
  | product :: rest => _ <~ show_product product ;; show_products rest
  end.

(** Lines 283-347: the search, when the last turn asks for one and none
    was shown since the last input. *)
Definition search_step : Run unit :=
  conv <~ the_conversation ;;
  search_intent <~ lift (extract_search_intent conv) ;;
  s <~ session_state ;;
  match search_intent with
  | Some search_intent =>
      if negb (get (products_shown s) false) then
        _ <~ set_products_shown true ;;
        let products :=
          fst (fetch_amazon_products requests_get serp_key
                 (query search_intent) (min_price search_intent)
                 (max_price search_intent) default_num_results) in
        match products with
        | [] => done tt
        | _ =>
            _ <~ show_products products ;;
            append_turn
              (message "assistant"
                 (search_summary (query search_intent) (List.length products)))
        end
      else done tt
  | None => done tt
  end.

(** Lines 350-375: the user's message and the assistant's reply. *)
Definition input_step (user_input : option string) : Run unit :=
  match user_input with
  | Some user_input =>
      if (user_input =? "")%string then done tt else
      _ <~ append_turn (message "user" user_input) ;;
      _ <~ set_products_shown false ;;
      conv <~ the_conversation ;;
      current <~ the_user_context ;;
      let response :=
        chat_with_assistant context dumps_indented ASSISTANT_PERSONA create
          user_input (PyList.slice_to (-1) conv) current in
      current <~ the_user_context ;;
      let context_update :=
        update_user_context context dumps loads create user_input current in
      _ <~ (if json_truthy context_update then
              current <~ the_user_context ;;
              let (updated, raised) := dict_update current context_update in
              _ <~ set_user_context updated ;;
              match raised with
              | Some e => stop (Uncaught e)
              | None => done tt
              end
            else done tt) ;;
      _ <~ append_turn (message "assistant" response) ;;
      stop Rerun
  | None => done tt
  end.

(** Lines 378-395: the context, and the button that starts anew. *)
Definition sidebar (new_conversation : bool) : Run unit :=
  current <~ the_user_context ;;
  _ <~ lift (show_context current) ;;
  if new_conversation then
    _ <~ clear_session ;;
    stop Rerun
  else done tt.

(** [user_input] is what [st.chat_input] returns, [new_conversation]
    what the button returns. *)
Definition main (user_input : option string) (new_conversation : bool)
    : Run unit :=
  _ <~ start_session ;;
  conv <~ the_conversation ;;
  _ <~ show_history conv ;;
  _ <~ search_step ;;
  _ <~ input_step user_input ;;
  sidebar new_conversation.

(** Lines 248-347: the run, up to the input. *)
Definition before_input : Run unit :=
  _ <~ start_session ;;
  conv <~ the_conversation ;;
  _ <~ show_history conv ;;
  search_step.

(** The update of the context a run makes at line 369, when it gets
    there with a message and what [update_user_context] returned is
    truthy: the context as it is then, and what it is updated with. *)
Definition context_update (user_input : option string) (s : session)
    : option (context * json_value) :=
  match before_input s, user_input with
  | (s', inr _), Some user_input =>
      if (user_input =? "")%string then None else
      match user_context s' with
      | Some current =>
          let context_update :=
            update_user_context context dumps loads create user_input current in
          if json_truthy context_update then Some (current, context_update)
          else None
      | None => None
      end
  | _, _ => None
  end.

(** The update the run makes, if it makes one, does not raise. *)
Definition update_passes (user_input : option string) (s : session) : Prop :=
  match context_update user_input s with
  | Some (current, context_update) =>
      snd (dict_update current context_update) = None
  | None => True
  end.

End Services.

(** The session states the script can be in: none at first, then what a
    run leaves, whatever the user does and the services answer. *)
Inductive reachable : session -> Prop :=
| reach_start : reachable no_session
| reach_run (s : session)
    (create : chat_request -> M (list (option string)))
    (requests_get : string -> search_params -> Z -> M response)
    (user_input : option string) (new_conversation : bool) :
    reachable s ->
    reachable (fst (main create requests_get user_input new_conversation s)).

(** The session states the script can be in when no update of the
    context that a run made on the way raised. *)
Inductive reachable_updating : session -> Prop :=
| updating_start : reachable_updating no_session
| updating_run (s : session)
    (create : chat_request -> M (list (option string)))
    (requests_get : string -> search_params -> Z -> M response)
    (user_input : option string) (new_conversation : bool) :
    reachable_updating s ->
    update_passes create requests_get user_input s ->
    reachable_updating
      (fst (main create requests_get user_input new_conversation s)).

(** A turn the script wrote: it has its role and its content. *)
Definition written (t : turn) : Prop :=
  exists role content, t = message role content.

(** A session under way: a conversation that starts with the welcome,
    made of turns the script wrote, and a context. *)
Definition started (s : session) : Prop :=
  exists rest current,
    conversation s = Some (message "assistant" welcome_msg :: rest) /\
    Forall written rest /\
    user_context s = Some current.

(** Under way, or with neither conversation nor context. *)
Definition well_formed (s : session) : Prop :=
  started s \/ (conversation s = None /\ user_context s = None).

(** The run makes a search: the last turn reads as a request and no
    products were shown since the last input. *)
Definition searches (s : session) : bool :=
  match conversation s with
  | Some conv =>
      match extract_search_intent conv with
      | inr (Some _) => negb (get (products_shown s) false)
      | _ => false
      end
  | None => false
  end.

(** The role of the last turn. *)
Definition last_role (s : session) : option string :=
  match conversation s with
  | Some conv =>
      match rev conv with
      | t :: _ => dict_find t "role"
      | [] => None
      end
  | None => None
  end.

(** Drawing a product raised [e]. *)
Definition card_raises (e : exn) : Prop :=
  exists p, In (inl e) (card p).


(** The session once the flag of shown products is up. *)
Definition shown_session (s : session) : session :=
  {| conversation := conversation s;
     user_context := user_context s;
     products_shown := Some true |}.

(** The session the first run leaves. *)
Definition fresh_session : session :=
  {| conversation := Some [message "assistant" welcome_msg];
     user_context := Some empty_context;
     products_shown := None |}.

(** Nothing was said yet, or the assistant spoke last. *)
Definition assistant_spoke_last (s : session) : Prop :=
  conversation s = None \/ last_role s = Some "assistant".

(** How a piece of a run may end from a session under way: with a
    value, or by [st.rerun()], or by an exception [e] for which [E e]
    holds; the session it leaves is under way, or cleared before a
    rerun. [I] holds of the session in every case. *)
Definition ends_well (E : exn -> Prop) (I : session -> Prop) {A}
    (out : session * (halt + A)) : Prop :=
  I (fst out) /\
  match snd out with
  | inr _ => started (fst out)
  | inl Rerun => well_formed (fst out)
  | inl (KeyError _) => False
  | inl (Uncaught e) => started (fst out) /\ E e
  end.

End Script.

(** *** A sample runtime and sample services *)

Definition sample_update (c : unit) (v : json_value) : unit * option exn :=
  (c, None).

Definition sample_draw {A} (x : A) : M unit := inr tt.

Definition sample_dumps (c : unit) : string := "{}".

Definition sample_loads (text : string) : M json_value :=
  if (text =? "{}")%string then inr (JObject [])
  else inl (JSONDecodeError text).

Definition sample_create (r : chat_request) : M (list (option string)) :=
  inr [Some "Cherchons un casque entre 10 et 50."].

Definition sample_runtime : Runtime :=
  {| context := unit;
     empty_context := tt;
     dumps_indented := sample_dumps;
     dumps := sample_dumps;
     loads := sample_loads;
     dict_update := sample_update;
     format_metrics := sample_draw;
     show_image := sample_draw;
     show_context := sample_draw;
     ASSISTANT_PERSONA := "Tu es Alex.";
     serp_key := "key" |}.

(** The session after the first run and one message of the user. *)
Definition sample_session : @session sample_runtime :=
  fst (main (P := sample_python) sample_create sample_get (Some "Bonjour")
         false no_session).

(** * Facts *)

Module NumOrder.

Import Num.

(** ** Order on numbers *)

Lemma xle_refl a : xle a a = true.
Proof. destruct a; simpl; auto. apply Qle_bool_iff, Qle_refl. Qed.

Lemma xle_trans a b c : xle a b = true -> xle b c = true -> xle a c = true.
Proof.
  destruct a, b, c; simpl; auto; try discriminate.
  rewrite !Qle_bool_iff. apply Qle_trans.
Qed.

Lemma xle_total a b : xle a b = true \/ xle b a = true.
Proof.
  destruct a, b; simpl; auto.
  rewrite !Qle_bool_iff.
  destruct (Qlt_le_dec q q0) as [H|H]; [left; apply Qlt_le_weak, H | right; exact H].
Qed.

Lemma le_value x y :
  le x y = true <-> exists a b, value x = Some a /\ value y = Some b /\ xle a b = true.
Proof.
  unfold le. split.
  - destruct (value x) as [a|], (value y) as [b|]; try discriminate.
    intros H. now exists a, b.
  - intros (a & b & -> & -> & H). exact H.
Qed.

Lemma is_nan_value x : is_nan x = false <-> exists a, value x = Some a.
Proof.
  unfold is_nan. destruct (value x) as [a|]; split; try discriminate; eauto.
  intros [a H]; discriminate.
Qed.

Lemma le_trans x y z : le x y = true -> le y z = true -> le x z = true.
Proof.
  rewrite !le_value. intros (a & b & Ha & Hb & H1) (b' & c & Hb' & Hc & H2).
  rewrite Hb in Hb'. injection Hb' as <-.
  exists a, c. repeat split; auto. eapply xle_trans; eauto.
Qed.

Lemma le_total x y :
  is_nan x = false -> is_nan y = false -> le x y = true \/ le y x = true.
Proof.
  rewrite !is_nan_value. intros [a Ha] [b Hb]. unfold le. rewrite Ha, Hb.
  apply xle_total.
Qed.

Lemma le_not_nan x y : le x y = true -> is_nan x = false /\ is_nan y = false.
Proof.
  rewrite le_value, !is_nan_value. intros (a & b & Ha & Hb & _). eauto.
Qed.

Lemma lt_le x y : lt x y = true -> le x y = true.
Proof. unfold lt. now intros [H _]%andb_prop. Qed.

Lemma lt_asym x y : lt x y = true -> lt y x = false.
Proof.
  unfold lt. intros [H1 H2]%andb_prop. rewrite H1. now rewrite andb_false_r.
Qed.

Lemma lt_trans x y z : lt x y = true -> lt y z = true -> lt x z = true.
Proof.
  unfold lt. intros [H1 H2]%andb_prop [H3 H4]%andb_prop.
  rewrite (le_trans _ _ _ H1 H3). simpl.
  destruct (le z x) eqn:E; auto.
  rewrite (le_trans _ _ _ E H1) in H4. discriminate.
Qed.

Lemma eq_sym x y : eq x y = eq y x.
Proof. unfold eq. apply andb_comm. Qed.

Lemma eq_trans x y z : eq x y = true -> eq y z = true -> eq x z = true.
Proof.
  unfold eq. intros [H1 H2]%andb_prop [H3 H4]%andb_prop.
  now rewrite (le_trans _ _ _ H1 H3), (le_trans _ _ _ H4 H2).
Qed.

Lemma eq_lt_false x y : eq x y = true -> lt x y = false.
Proof.
  unfold eq, lt. intros [H1 H2]%andb_prop. rewrite H2. now rewrite andb_false_r.
Qed.

Lemma eq_lt_l x y z : eq x y = true -> lt y z = true -> lt x z = true.
Proof.
  unfold eq, lt. intros [H1 H2]%andb_prop [H3 H4]%andb_prop.
  rewrite (le_trans _ _ _ H1 H3). simpl.
  destruct (le z x) eqn:E; auto.
  rewrite (le_trans _ _ _ E H1) in H4. discriminate.
Qed.

Lemma eq_lt_r x y z : lt x y = true -> eq y z = true -> lt x z = true.
Proof.
  unfold eq, lt. intros [H1 H2]%andb_prop [H3 H4]%andb_prop.
  rewrite (le_trans _ _ _ H1 H3). simpl.
  destruct (le z x) eqn:E; auto.
  rewrite (le_trans _ _ _ H3 E) in H2. discriminate.
Qed.

Lemma trichotomy x y :
  is_nan x = false -> is_nan y = false ->
  lt x y = true \/ eq x y = true \/ lt y x = true.
Proof.
  intros Hx Hy. unfold lt, eq.
  destruct (le_total x y Hx Hy) as [H|H]; rewrite H; simpl;
    destruct (le y x) eqn:E1, (le x y) eqn:E2; auto; discriminate.
Qed.

End NumOrder.

Module Ranking.

Import Num NumOrder.

(** ** Order on pairs of numbers *)

Lemma pair_lt_asym a b : pair_lt a b = true -> pair_lt b a = false.
Proof.
  unfold pair_lt. rewrite (eq_sym (fst b)).
  destruct (eq (fst a) (fst b)); apply lt_asym.
Qed.

Lemma pair_lt_trans a b c :
  pair_lt a b = true -> pair_lt b c = true -> pair_lt a c = true.
Proof.
  unfold pair_lt.
  destruct (eq (fst a) (fst b)) eqn:Eab,
           (eq (fst b) (fst c)) eqn:Ebc; intros H1 H2.
  - rewrite (eq_trans _ _ _ Eab Ebc). eapply lt_trans; eauto.
  - assert (H : lt (fst a) (fst c) = true) by (eapply eq_lt_l; eauto).
    destruct (eq (fst a) (fst c)) eqn:E; auto.
    rewrite (eq_lt_false _ _ E) in H. discriminate.
  - assert (H : lt (fst a) (fst c) = true) by (eapply eq_lt_r; eauto).
    destruct (eq (fst a) (fst c)) eqn:E; auto.
    rewrite (eq_lt_false _ _ E) in H. discriminate.
  - assert (H : lt (fst a) (fst c) = true) by (eapply lt_trans; eauto).
    destruct (eq (fst a) (fst c)) eqn:E; auto.
    rewrite (eq_lt_false _ _ E) in H. discriminate.
Qed.

Lemma pair_trichotomy a b :
  pair_ordered a -> pair_ordered b ->
  pair_lt a b = true \/ pair_lt b a = true \/
  (eq (fst a) (fst b) = true /\ eq (snd a) (snd b) = true).
Proof.
  intros [Ha1 Ha2] [Hb1 Hb2]. unfold pair_lt. rewrite (eq_sym (fst b)).
  destruct (trichotomy (fst a) (fst b) Ha1 Hb1) as [H|[H|H]].
  - left. destruct (eq (fst a) (fst b)) eqn:E; auto.
    rewrite (eq_lt_false _ _ E) in H. discriminate.
  - rewrite H.
    destruct (trichotomy (snd a) (snd b) Ha2 Hb2) as [H'|[H'|H']]; auto.
  - right; left. destruct (eq (fst a) (fst b)) eqn:E; auto.
    rewrite eq_sym in E. rewrite (eq_lt_false _ _ E) in H. discriminate.
Qed.

Lemma pair_lt_congr_l a b c :
  eq (fst a) (fst b) = true ->
  eq (snd a) (snd b) = true ->
  pair_lt a c = true -> pair_lt b c = true.
Proof.
  unfold pair_lt. intros Hr Hv.
  assert (Hr' : eq (fst b) (fst a) = true) by now rewrite eq_sym.
  assert (Hv' : eq (snd b) (snd a) = true) by now rewrite eq_sym.
  destruct (eq (fst a) (fst c)) eqn:E; intros H.
  - rewrite (eq_trans _ _ _ Hr' E). eapply eq_lt_l; eauto.
  - destruct (eq (fst b) (fst c)) eqn:E'.
    + rewrite (eq_trans _ _ _ Hr E') in E. discriminate.
    + eapply eq_lt_l; eauto.
Qed.

Lemma pair_lt_neg_trans a b c :
  pair_ordered a -> pair_ordered b ->
  pair_lt a b = false -> pair_lt b c = false -> pair_lt a c = false.
Proof.
  intros Ha Hb Hab Hbc. destruct (pair_lt a c) eqn:Hac; auto.
  destruct (pair_trichotomy a b Ha Hb) as [H|[H|[H1 H2]]].
  - congruence.
  - rewrite (pair_lt_trans _ _ _ H Hac) in Hbc. discriminate.
  - rewrite (pair_lt_congr_l _ _ _ H1 H2 Hac) in Hbc. discriminate.
Qed.

Lemma pair_lt_irrefl a : pair_lt a a = false.
Proof.
  destruct (pair_lt a a) eqn:E; [|reflexivity].
  pose proof (pair_lt_asym _ _ E) as E'. congruence.
Qed.

(** ** Insertion from the right *)

Section Sorting.

Context {A : Type} (lt : A -> A -> bool).

Lemma insert_desc_perm x l : Permutation (x :: l) (PyList.insert_desc lt x l).
Proof.
  induction l as [|y l IH]; simpl; auto.
  destruct (lt x y); auto.
  rewrite perm_swap. now constructor.
Qed.

Lemma stable_descending_perm l : Permutation l (PyList.stable_descending lt l).
Proof.
  induction l as [|x l IH]; simpl; auto.
  rewrite <- insert_desc_perm. now constructor.
Qed.

Lemma stable_descending_length l :
  List.length (PyList.stable_descending lt l) = List.length l.
Proof. symmetry. apply Permutation_length, stable_descending_perm. Qed.

Lemma filter_insert_out f x l :
  f x = false -> filter f (PyList.insert_desc lt x l) = filter f l.
Proof.
  intros Hx. induction l as [|y l IH]; simpl.
  - now rewrite Hx.
  - destruct (lt x y); simpl.
    + now rewrite IH.
    + now rewrite Hx.
Qed.

Lemma filter_insert_in f x l :
  f x = true ->
  (forall y, In y l -> lt x y = true -> f y = false) ->
  filter f (PyList.insert_desc lt x l) = x :: filter f l.
Proof.
  intros Hx. induction l as [|y l IH]; simpl; intros H.
  - now rewrite Hx.
  - destruct (lt x y) eqn:E; simpl.
    + rewrite (H y (or_introl Logic.eq_refl) E). apply IH.
      intros z Hz. apply H. now right.
    + now rewrite Hx.
Qed.

(** Descending and stable, on a domain [ok] where [lt] is a strict weak
    order. *)
Variable ok : A -> Prop.
Hypothesis asym : forall a b, ok a -> ok b -> lt a b = true -> lt b a = false.
Hypothesis neg_trans : forall a b c, ok a -> ok b -> ok c ->
  lt a b = false -> lt b c = false -> lt a c = false.
Hypothesis trans : forall a b c, ok a -> ok b -> ok c ->
  lt a b = true -> lt b c = true -> lt a c = true.

(** Strictly descending, when any two elements are ordered one way. *)
Lemma insert_desc_strict x l :
  ok x -> Forall ok l ->
  Forall (fun y => lt x y = true \/ lt y x = true) l ->
  StronglySorted (fun a b => lt b a = true) l ->
  StronglySorted (fun a b => lt b a = true) (PyList.insert_desc lt x l).
Proof.
  intros Hx Hok Hc Hs. induction Hs as [|y l Hs IH Hy]; simpl.
  - repeat constructor.
  - inversion Hc as [|? ? Hxy Hc']; subst.
    inversion Hok as [|? ? Hoy Hol]; subst.
    destruct (lt x y) eqn:E.
    + constructor; auto.
      eapply Permutation_Forall; [apply insert_desc_perm|].
      constructor; auto.
    + destruct Hxy as [Hxy|Hxy]; [congruence|].
      constructor; [now constructor|].
      constructor; auto.
      rewrite Forall_forall in *. intros z Hz. apply (trans z y x); auto.
Qed.

Lemma stable_descending_strict l :
  Forall ok l ->
  ForallOrdPairs (fun a b => lt a b = true \/ lt b a = true) l ->
  StronglySorted (fun a b => lt b a = true) (PyList.stable_descending lt l).
Proof.
  intros Hok H. induction H as [|x l Hx H IH]; simpl.
  - constructor.
  - inversion Hok as [|? ? Hox Hol]; subst.
    apply insert_desc_strict; auto.
    + eapply Permutation_Forall; [apply stable_descending_perm|exact Hol].
    + eapply Permutation_Forall; [apply stable_descending_perm|exact Hx].
Qed.

Lemma insert_desc_sorted x l :
  ok x -> Forall ok l ->
  StronglySorted (fun a b => lt a b = false) l ->
  StronglySorted (fun a b => lt a b = false) (PyList.insert_desc lt x l).
Proof.
  intros Hx Hok Hs. induction Hs as [|y l Hs IH Hy]; simpl.
  - repeat constructor.
  - inversion Hok as [|? ? Hoky Hok']; subst.
    destruct (lt x y) eqn:E.
    + constructor; auto.
      eapply Permutation_Forall; [apply insert_desc_perm|].
      constructor; auto.
    + constructor; [now constructor|].
      constructor; auto.
      rewrite Forall_forall in *. intros z Hz.
      apply (neg_trans x y z); auto.
Qed.

Lemma stable_descending_sorted l :
  Forall ok l ->
  StronglySorted (fun a b => lt a b = false) (PyList.stable_descending lt l).
Proof.
  intros H. induction H as [|x l Hx H IH]; simpl.
  - constructor.
  - apply insert_desc_sorted; auto.
    eapply Permutation_Forall; [apply stable_descending_perm|exact H].
Qed.

(** A list that is descending already stays as it is. *)
Lemma insert_desc_head x l :
  Forall (fun y => lt x y = false) l -> PyList.insert_desc lt x l = x :: l.
Proof.
  intros H. destruct l as [|y l]; [reflexivity|].
  inversion H as [|? ? Hy _]; subst. simpl. now rewrite Hy.
Qed.

Lemma stable_descending_sorted_id l :
  StronglySorted (fun a b => lt a b = false) l ->
  PyList.stable_descending lt l = l.
Proof.
  induction 1 as [|x l Hs IH Hx]; [reflexivity|].
  cbn [PyList.stable_descending fold_right].
  fold (PyList.stable_descending lt l). rewrite IH.
  now apply insert_desc_head.
Qed.

End Sorting.

Lemma slice_to_nat {A} (n : nat) (l : list A) :
  PyList.slice_to (Z.of_nat n) l = firstn n l.
Proof.
  unfold PyList.slice_to.
  destruct (0 <=? Z.of_nat n)%Z eqn:E.
  - now rewrite Nat2Z.id.
  - apply Z.leb_gt in E. lia.
Qed.

(** ** Order on the ranking key

    On numbers other than nan the comparison of two keys is the order
    of two pairs of numbers, and raises nothing. *)

Lemma same_numbers v w x y :
  Json.number_of v = Some x -> Json.number_of w = Some y ->
  is_nan x = false ->
  Json.same v w = eq x y.
Proof.
  intros Hv Hw Hx.
  destruct v as [|b|n|s|l|d]; try discriminate;
    destruct w as [|b'|n'|s'|l'|d']; try discriminate;
    cbn in Hv, Hw; injection Hv as <-; injection Hw as <-;
    cbn [Json.same Json.number_of Json.is_nan];
    rewrite ?andb_false_r, ?orb_false_r; auto.
  cbn [Json.is_nan]. now rewrite Hx, orb_false_r.
Qed.

Lemma less_numbers v w x y :
  Json.number_of v = Some x -> Json.number_of w = Some y ->
  Json.less v w = inr (lt x y).
Proof.
  intros Hv Hw.
  destruct v as [|b|n|s|l|d]; try discriminate;
    destruct w as [|b'|n'|s'|l'|d']; try discriminate;
    cbn in Hv, Hw; injection Hv as <-; injection Hw as <-; reflexivity.
Qed.

Lemma rating_same_numbers a b x y :
  Json.number_of (rating_json a) = Some x ->
  Json.number_of (rating_json b) = Some y ->
  is_nan x = false ->
  rating_same a b = eq x y.
Proof.
  intros Ha Hb Hx. destruct a as [v|f], b as [w|g]; cbn [rating_same].
  - now apply same_numbers.
  - now rewrite Ha, Hb.
  - now rewrite Ha, Hb.
  - now rewrite Ha, Hb.
Qed.

Lemma key_of_numbers p k :
  key_of p = Some k ->
  Json.number_of (rating_json (rating p)) = Some (fst k) /\
  Json.number_of (reviews_count p) = Some (snd k).
Proof.
  unfold key_of.
  destruct (Json.number_of (rating_json (rating p))) as [r|]; [|discriminate].
  destruct (Json.number_of (reviews_count p)) as [c|]; [|discriminate].
  intros [= <-]. split; reflexivity.
Qed.

Lemma key_lt_pairs a b ka kb :
  key_of a = Some ka -> key_of b = Some kb -> pair_ordered ka ->
  key_lt a b = inr (pair_lt ka kb) /\
  key_same a b = eq (fst ka) (fst kb) && eq (snd ka) (snd kb).
Proof.
  intros Ha Hb [Hr Hc].
  apply key_of_numbers in Ha as [Ha1 Ha2]. apply key_of_numbers in Hb as [Hb1 Hb2].
  unfold key_lt, key_same, pair_lt.
  rewrite (rating_same_numbers _ _ _ _ Ha1 Hb1 Hr).
  rewrite (same_numbers _ _ _ _ Ha2 Hb2 Hc).
  rewrite (less_numbers _ _ _ _ Ha1 Hb1), (less_numbers _ _ _ _ Ha2 Hb2).
  split; [|reflexivity].
  destruct (eq (fst ka) (fst kb)); [|reflexivity].
  destruct (eq (snd ka) (snd kb)) eqn:E; [|reflexivity].
  now rewrite (eq_lt_false _ _ E).
Qed.

Lemma key_ordered_key p :
  key_ordered p -> exists k, key_of p = Some k /\ pair_ordered k.
Proof.
  unfold key_ordered. destruct (key_of p) as [k|]; [|tauto]. eauto.
Qed.

Lemma key_below_pairs a b ka kb :
  key_of a = Some ka -> key_of b = Some kb -> pair_ordered ka ->
  key_below a b = pair_lt ka kb.
Proof.
  intros Ha Hb Hk. unfold key_below.
  destruct (key_lt_pairs a b ka kb Ha Hb Hk) as [-> _]. now destruct (pair_lt ka kb).
Qed.

Lemma key_lt_below a b :
  key_ordered a -> key_ordered b -> key_lt a b = inr (key_below a b).
Proof.
  intros (ka & Ha & Hka)%key_ordered_key (kb & Hb & Hkb)%key_ordered_key.
  rewrite (key_below_pairs a b ka kb) by assumption.
  now destruct (key_lt_pairs a b ka kb Ha Hb Hka).
Qed.

Lemma key_below_asym a b :
  key_ordered a -> key_ordered b -> key_below a b = true -> key_below b a = false.
Proof.
  intros (ka & Ha & Hka)%key_ordered_key (kb & Hb & Hkb)%key_ordered_key.
  rewrite (key_below_pairs a b ka kb), (key_below_pairs b a kb ka) by assumption.
  apply pair_lt_asym.
Qed.

Lemma key_below_neg_trans a b c :
  key_ordered a -> key_ordered b -> key_ordered c ->
  key_below a b = false -> key_below b c = false -> key_below a c = false.
Proof.
  intros (ka & Ha & Hka)%key_ordered_key (kb & Hb & Hkb)%key_ordered_key
         (kc & Hc & Hkc)%key_ordered_key.
  rewrite (key_below_pairs a b ka kb), (key_below_pairs b c kb kc),
    (key_below_pairs a c ka kc) by assumption.
  now apply pair_lt_neg_trans.
Qed.

Lemma key_below_trans a b c :
  key_ordered a -> key_ordered b -> key_ordered c ->
  key_below a b = true -> key_below b c = true -> key_below a c = true.
Proof.
  intros (ka & Ha & Hka)%key_ordered_key (kb & Hb & Hkb)%key_ordered_key
         (kc & Hc & Hkc)%key_ordered_key.
  rewrite (key_below_pairs a b ka kb), (key_below_pairs b c kb kc),
    (key_below_pairs a c ka kc) by assumption.
  apply pair_lt_trans.
Qed.

Lemma key_below_irrefl a : key_ordered a -> key_below a a = false.
Proof.
  intros (ka & Ha & Hka)%key_ordered_key.
  rewrite (key_below_pairs a a ka ka) by assumption. apply pair_lt_irrefl.
Qed.

(** Of two ordered keys one is below the other, or they are the same. *)
Lemma key_trichotomy a b :
  key_ordered a -> key_ordered b ->
  key_below a b = true \/ key_below b a = true \/ key_same a b = true.
Proof.
  intros (ka & Ha & Hka)%key_ordered_key (kb & Hb & Hkb)%key_ordered_key.
  rewrite (key_below_pairs a b ka kb), (key_below_pairs b a kb ka) by assumption.
  destruct (key_lt_pairs a b ka kb Ha Hb Hka) as [_ ->].
  destruct (pair_trichotomy ka kb Hka Hkb) as [H|[H|[H1 H2]]]; auto.
  right; right. now rewrite H1, H2.
Qed.

Lemma key_same_below a b :
  key_ordered a -> key_ordered b ->
  key_same a b = true -> key_below a b = false /\ key_below b a = false.
Proof.
  intros (ka & Ha & Hka)%key_ordered_key (kb & Hb & Hkb)%key_ordered_key.
  rewrite (key_below_pairs a b ka kb), (key_below_pairs b a kb ka) by assumption.
  destruct (key_lt_pairs a b ka kb Ha Hb Hka) as [_ ->].
  intros [H1 H2]%andb_prop. unfold pair_lt.
  rewrite H1. rewrite (eq_sym (fst kb)), H1.
  split; apply eq_lt_false; auto. now rewrite eq_sym.
Qed.

Lemma key_same_refl a : key_ordered a -> key_same a a = true.
Proof.
  intros Ha. destruct (key_trichotomy a a Ha Ha) as [H|[H|H]]; auto;
    rewrite key_below_irrefl in H by exact Ha; discriminate.
Qed.

Lemma key_same_lt p x y :
  key_ordered p -> key_ordered x -> key_ordered y ->
  key_same p x = true -> key_below x y = true -> key_same p y = false.
Proof.
  intros (kp & Hp & Hkp)%key_ordered_key (kx & Hx & Hkx)%key_ordered_key
         (ky & Hy & Hky)%key_ordered_key.
  rewrite (key_below_pairs x y kx ky) by assumption.
  destruct (key_lt_pairs p x kp kx Hp Hx Hkp) as [_ ->].
  destruct (key_lt_pairs p y kp ky Hp Hy Hkp) as [_ ->].
  intros [H1 H2]%andb_prop Hxy.
  destruct (eq (fst kp) (fst ky) && eq (snd kp) (snd ky)) eqn:E; [|reflexivity].
  apply andb_prop in E as [E1 E2].
  assert (F1 : eq (fst kx) (fst ky) = true)
    by (apply eq_trans with (fst kp); auto; now rewrite eq_sym).
  assert (F2 : eq (snd kx) (snd ky) = true)
    by (apply eq_trans with (snd kp); auto; now rewrite eq_sym).
  unfold pair_lt in Hxy. rewrite F1 in Hxy.
  rewrite (eq_lt_false _ _ F2) in Hxy. discriminate.
Qed.

(** ** The stable descending arrangement of records *)

Lemma stable_descending_no_inversion l :
  Forall key_ordered l ->
  StronglySorted (fun a b => key_below a b = false)
    (PyList.stable_descending key_below l).
Proof.
  apply (stable_descending_sorted key_below key_ordered).
  - exact key_below_asym.
  - exact key_below_neg_trans.
Qed.

(** On ordered keys there is one stable descending arrangement of a
    list, so every stable descending sort returns what
    [stable_descending] returns. *)
Lemma stable_descending_unique (l1 l2 : list product) :
  Forall key_ordered l1 ->
  Permutation l1 l2 ->
  StronglySorted (fun a b => key_below a b = false) l1 ->
  StronglySorted (fun a b => key_below a b = false) l2 ->
  (forall p, key_ordered p -> filter (key_same p) l1 = filter (key_same p) l2) ->
  l1 = l2.
Proof.
  revert l2. induction l1 as [|x t1 IH]; intros l2 Hok Hperm Hs1 Hs2 Hst.
  - now apply Permutation_nil in Hperm.
  - destruct l2 as [|y t2].
    + symmetry in Hperm. now apply Permutation_nil in Hperm.
    + inversion Hok as [|? ? Hx Hok']; subst.
      inversion Hs1 as [|? ? Hs1' Hx1]; subst.
      inversion Hs2 as [|? ? Hs2' Hy2]; subst.
      assert (Hy : key_ordered y).
      { eapply Forall_forall; [exact Hok|].
        eapply Permutation_in; [symmetry; exact Hperm|now left]. }
      assert (Hxy : key_below x y = false).
      { assert (Hin : In y (x :: t1))
          by (eapply Permutation_in; [symmetry; exact Hperm|now left]).
        destruct Hin as [->|Hin]; [now apply key_below_irrefl|].
        rewrite Forall_forall in Hx1. auto. }
      assert (Hyx : key_below y x = false).
      { assert (Hin : In x (y :: t2))
          by (eapply Permutation_in; [exact Hperm|now left]).
        destruct Hin as [->|Hin]; [now apply key_below_irrefl|].
        rewrite Forall_forall in Hy2. auto. }
      pose proof (Hst x Hx) as Hf. cbn [filter] in Hf.
      assert (E1 : key_same x x = true) by now apply key_same_refl.
      assert (E2 : key_same x y = true).
      { destruct (key_trichotomy x y Hx Hy) as [H|[H|H]]; auto; congruence. }
      rewrite E1, E2 in Hf. injection Hf as <- Hf.
      f_equal. apply IH; auto.
      * eapply Permutation_cons_inv; exact Hperm.
      * intros p Hp. specialize (Hst p Hp). cbn [filter] in Hst.
        destruct (key_same p x); [now injection Hst|exact Hst].
Qed.

Lemma stable_descending_stable (p : product) l :
  key_ordered p -> Forall key_ordered l ->
  filter (key_same p) (PyList.stable_descending key_below l) = filter (key_same p) l.
Proof.
  intros Hp H. induction H as [|x l Hx H IH]; simpl; auto.
  destruct (key_same p x) eqn:E.
  - rewrite filter_insert_in; auto.
    + now rewrite IH.
    + intros y Hy Hxy. eapply key_same_lt; eauto.
      eapply Forall_forall; [|exact Hy].
      eapply Permutation_Forall; [apply stable_descending_perm|exact H].
  - rewrite filter_insert_out; auto.
Qed.

Lemma stable_descending_only_stable_sort (l l' : list product) :
  Forall key_ordered l ->
  Permutation l l' ->
  StronglySorted (fun a b => key_below a b = false) l' ->
  (forall p, key_ordered p -> filter (key_same p) l' = filter (key_same p) l) ->
  l' = PyList.stable_descending key_below l.
Proof.
  intros Hok Hperm Hs Hst. symmetry. apply stable_descending_unique.
  - eapply Permutation_Forall; [apply stable_descending_perm|exact Hok].
  - rewrite <- Hperm. symmetry. apply stable_descending_perm.
  - now apply stable_descending_no_inversion.
  - exact Hs.
  - intros p Hp. rewrite Hst by exact Hp. now apply stable_descending_stable.
Qed.

(** No inversion is the same as descending, on ordered keys. *)
Lemma no_inversion_descending l :
  Forall key_ordered l ->
  StronglySorted (fun a b => key_below a b = false) l -> descending l.
Proof.
  intros Hok Hs. unfold descending.
  induction Hs as [|x l Hs IH Hx]; [constructor|].
  inversion Hok as [|? ? Hox Hol]; subst.
  constructor; auto.
  rewrite Forall_forall in *. intros y Hy. unfold key_ge.
  destruct (key_trichotomy x y Hox (Hol y Hy)) as [H|[H|H]].
  - rewrite Hx in H by exact Hy. discriminate.
  - left. rewrite key_lt_below by auto. now rewrite H.
  - now right.
Qed.

(** With distinct keys, strictly. *)
Lemma stable_descending_strict_keys l :
  Forall key_ordered l -> distinct_keys l ->
  StronglySorted (fun a b => key_lt b a = inr true)
    (PyList.stable_descending key_below l).
Proof.
  intros Hok Hd.
  assert (Hs : StronglySorted (fun a b => key_below b a = true)
                 (PyList.stable_descending key_below l)).
  { apply (stable_descending_strict key_below key_ordered); auto.
    - exact key_below_trans.
    - clear -Hok Hd. induction Hd as [|x l Hx Hd IH]; [constructor|].
      inversion Hok as [|? ? Hox Hol]; subst.
      constructor; auto.
      rewrite Forall_forall in *. intros y Hy.
      destruct (key_trichotomy x y Hox (Hol y Hy)) as [H|[H|H]]; auto.
      rewrite Hx in H by exact Hy. discriminate. }
  assert (Hok' : Forall key_ordered (PyList.stable_descending key_below l))
    by (eapply Permutation_Forall; [apply stable_descending_perm|exact Hok]).
  revert Hs Hok'. generalize (PyList.stable_descending key_below l) as s.
  induction 1 as [|x s Hs IH Hx]; intros Hok'; [constructor|].
  inversion Hok' as [|? ? Hox Hos]; subst.
  constructor; auto.
  rewrite Forall_forall in *. intros y Hy.
  rewrite key_lt_below by auto. now rewrite (Hx y Hy).
Qed.

(** What the sort of the program returns on ordered keys. *)
Lemma sort_ordered {P : Python} l :
  Forall key_ordered l ->
  sort_reverse key_lt l = inr (PyList.stable_descending key_below l).
Proof.
  intros Hok. rewrite Forall_forall in Hok.
  apply sort_reverse_ordered.
  - intros a b Ha Hb. apply key_lt_below; auto.
  - intros a b Ha Hb. apply key_below_asym; auto.
  - intros a b c Ha Hb Hc. apply key_below_neg_trans; auto.
Qed.

End Ranking.

(** ** Strings *)

Lemma append_assoc (a b c : string) : (a ++ b) ++ c = a ++ (b ++ c).
Proof. induction a; simpl; congruence. Qed.

Lemma append_nil_r (a : string) : a ++ "" = a.
Proof. induction a; simpl; congruence. Qed.

Lemma length_append (a b : string) :
  String.length (a ++ b) = String.length a + String.length b.
Proof. induction a; simpl; congruence. Qed.

Lemma drop_append (a b : string) : Str.drop (String.length a) (a ++ b) = b.
Proof. induction a; simpl; auto. Qed.

Lemma take_append (a b : string) : Str.take (String.length a) (a ++ b) = a.
Proof. induction a; simpl; try congruence. Qed.

Lemma take_length_le n s : String.length (Str.take n s) <= n.
Proof.
  revert s. induction n as [|n IH]; intros [|a s]; simpl; try lia.
  specialize (IH s). lia.
Qed.

Lemma lower_append (a b : string) : Str.lower (a ++ b) = Str.lower a ++ Str.lower b.
Proof. induction a; simpl; congruence. Qed.

Lemma lower_length (a : string) : String.length (Str.lower a) = String.length a.
Proof. induction a; simpl; congruence. Qed.

Lemma all_chars_append f (a b : string) :
  Str.all_chars f (a ++ b) = Str.all_chars f a && Str.all_chars f b.
Proof. induction a; simpl; auto. rewrite IHa. now rewrite andb_assoc. Qed.

Lemma all_chars_impl (f g : ascii -> bool) s :
  (forall a, f a = true -> g a = true) ->
  Str.all_chars f s = true -> Str.all_chars g s = true.
Proof.
  intros H. induction s as [|a s IH]; simpl; auto.
  intros [H1 H2]%andb_prop. now rewrite (H _ H1), IH.
Qed.

Lemma delete_class_append p (a b : string) :
  Re.delete_class p (a ++ b) = Re.delete_class p a ++ Re.delete_class p b.
Proof. induction a; simpl; auto. destruct (p a); simpl; congruence. Qed.

Lemma replace_char_append x y (a b : string) :
  Str.replace_char x y (a ++ b) = Str.replace_char x y a ++ Str.replace_char x y b.
Proof. induction a; simpl; congruence. Qed.

Lemma delete_class_keep p s :
  Str.all_chars (fun a => negb (p a)) s = true -> Re.delete_class p s = s.
Proof.
  induction s as [|a s IH]; simpl; auto.
  intros [H1 H2]%andb_prop. apply negb_true_iff in H1. rewrite H1. now rewrite IH.
Qed.

Lemma delete_class_all p s :
  Str.all_chars p s = true -> Re.delete_class p s = "".
Proof.
  induction s as [|a s IH]; simpl; auto.
  intros [H1 H2]%andb_prop. now rewrite H1, IH.
Qed.

(** Characters, by cases on their eight bits. *)
Ltac by_bits a :=
  destruct a as [[] [] [] [] [] [] [] []]; try discriminate; try reflexivity.

Lemma digit_is_price_char a : Str.is_digit a = true -> price_char a = true.
Proof. unfold price_char. now intros ->. Qed.

Lemma digit_not_comma a : Str.is_digit a = true -> Ascii.eqb a "," = false.
Proof. by_bits a. Qed.

Lemma digit_not_dot a : Str.is_digit a = true -> Ascii.eqb "." a = false.
Proof. by_bits a. Qed.

Lemma digit_not_blank a : Str.is_digit a = true -> Str.is_numeral_blank a = false.
Proof. by_bits a. Qed.

Lemma digit_lower a : Str.is_digit a = true -> Str.lower_char a = a.
Proof. by_bits a. Qed.

Lemma lower_digit a : Str.is_digit (Str.lower_char a) = Str.is_digit a.
Proof. by_bits a. Qed.

Lemma replace_char_digits s :
  Str.all_digits s = true -> Str.replace_char "," "." s = s.
Proof.
  induction s as [|a s IH]; simpl; auto.
  intros [H1 H2]%andb_prop. rewrite (digit_not_comma _ H1). now rewrite IH.
Qed.

(** ** The matcher *)

Lemma span_len_append p (a b : string) :
  Str.all_chars p a = true ->
  Str.span_len p (a ++ b) = String.length a + Str.span_len p b.
Proof.
  induction a as [|c a IH]; simpl; auto.
  intros [H1 H2]%andb_prop. now rewrite H1, IH.
Qed.

Lemma span_len_no_digit s : Str.no_digit s = true -> Str.span_len Str.is_digit s = 0.
Proof.
  destruct s as [|a s]; simpl; auto.
  intros [H _]%andb_prop. apply negb_true_iff in H. now rewrite H.
Qed.

(** Greedy repetition before a continuation that cannot fail takes the
    longest run. *)
Lemma rep_greedy_total {R} p lo s i (k : string -> nat -> option R) :
  (forall s' j, k s' j <> None) ->
  lo <= Str.span_len p s ->
  Re.rep_greedy p lo s i k = k (Str.drop (Str.span_len p s) s) (i + Str.span_len p s).
Proof.
  intros Hk. revert lo i. induction s as [|a s IH]; intros lo i Hlo; simpl in *.
  - assert (lo = 0) by lia. subst. now rewrite Nat.add_0_r.
  - destruct (p a).
    + rewrite IH by lia. rewrite Nat.add_succ_r. simpl.
      destruct (k (Str.drop (Str.span_len p s) s) (S (i + Str.span_len p s))) eqn:E; auto.
      now apply Hk in E.
    + assert (lo = 0) by lia. subst. now rewrite Nat.add_0_r.
Qed.

Lemma rep_greedy_short {R} p lo s i (k : string -> nat -> option R) :
  Str.span_len p s < lo -> Re.rep_greedy p lo s i k = None.
Proof.
  revert lo i. induction s as [|a s IH]; intros lo i Hlo; simpl in *.
  - destruct lo; auto; lia.
  - destruct (p a).
    + rewrite IH by lia. destruct lo; auto; lia.
    + destruct lo; auto; lia.
Qed.

Lemma exec_word {R} w s i g (k : string -> nat -> Re.groups -> option R) :
  Re.exec (Re.word w) s i g k =
  if Str.starts_with w s
  then k (Str.drop (String.length w) s) (i + String.length w) g
  else None.
Proof.
  revert s i. induction w as [|a w IH]; intros s i; simpl.
  - rewrite Nat.add_0_r. now destruct s.
  - destruct s as [|b s]; auto.
    destruct (Ascii.eqb a b); simpl; auto.
    rewrite IH. now rewrite Nat.add_succ_r.
Qed.

(** Skipping the offsets at which a pattern cannot start. *)
Lemma search_from_find r w t n :
  (forall u, Str.starts_with w u = false -> Re.match_here r u = None) ->
  Str.find w t = Some n ->
  Re.search r t = Re.search r (Str.drop n t).
Proof.
  intros Hr. revert n. induction t as [|a t IH]; intros n; simpl.
  - destruct (Str.starts_with w ""); intros [=]; subst; reflexivity.
  - destruct (Str.starts_with w (String a t)) eqn:E.
    + intros [=]; subst; reflexivity.
    + destruct (Str.find w t) as [m|]; simpl; intros [=]; subst.
      rewrite (Hr _ E). simpl. now apply IH.
Qed.

Lemma search_none_find r w t :
  (forall u, Str.starts_with w u = false -> Re.match_here r u = None) ->
  Str.find w t = None ->
  Re.search r t = None.
Proof.
  intros Hr. induction t as [|a t IH]; simpl.
  - destruct (Str.starts_with w "") eqn:E; intros [=]. now rewrite (Hr _ E).
  - destruct (Str.starts_with w (String a t)) eqn:E; intros H; [discriminate|].
    rewrite (Hr _ E). apply IH. now destruct (Str.find w t).
Qed.

(** ** [\d+\.?\d*] *)

Lemma span_len_drop p s :
  Str.span_len p (Str.drop (Str.span_len p s) s) = 0.
Proof.
  induction s as [|a s IH]; simpl; auto.
  destruct (p a) eqn:E; simpl; auto. now rewrite E.
Qed.

Lemma number_match s :
  Re.match_here number_pattern s =
  if 1 <=? Str.span_len Str.is_digit s
  then Some (Re.MatchObj s (number_len s) [])
  else None.
Proof.
  unfold Re.match_here, number_pattern, number_len. cbn [Re.exec Re.seq].
  destruct (1 <=? Str.span_len Str.is_digit s) eqn:E.
  - apply Nat.leb_le in E. rewrite rep_greedy_total; auto.
    + pose proof (span_len_drop Str.is_digit s) as Hd.
      destruct (Str.drop (Str.span_len Str.is_digit s) s) as [|c r] eqn:D.
      * reflexivity.
      * destruct (Ascii.eqb "." c) eqn:Ec.
        -- apply Ascii.eqb_eq in Ec. subst c.
           rewrite rep_greedy_total; [|discriminate|lia].
           now rewrite Nat.add_1_r.
        -- rewrite rep_greedy_total; [|discriminate|lia].
           rewrite Hd, Nat.add_0_r. cbn [Str.drop].
           assert (c <> "."%char) by (intros ->; discriminate).
           by_bits c; congruence.
    + intros s' j.
      destruct s' as [|c r].
      * discriminate.
      * destruct (Ascii.eqb "." c).
        -- rewrite rep_greedy_total; [discriminate|discriminate|lia].
        -- rewrite rep_greedy_total; [discriminate|discriminate|lia].
  - apply Nat.leb_gt in E. now rewrite rep_greedy_short.
Qed.

(** ** Numerals *)

Lemma lstrip_by_id b s :
  Str.all_chars (fun a => negb (b a)) s = true -> Str.lstrip_by b s = s.
Proof.
  destruct s as [|a s]; simpl; auto.
  intros [H _]%andb_prop. apply negb_true_iff in H. now rewrite H.
Qed.

Lemma rstrip_by_id b s :
  Str.all_chars (fun a => negb (b a)) s = true -> Str.rstrip_by b s = s.
Proof.
  induction s as [|a s IH]; simpl; auto.
  intros [H1 H2]%andb_prop. apply negb_true_iff in H1.
  rewrite (IH H2). destruct s; auto. now rewrite H1.
Qed.

Lemma strip_by_id b s :
  Str.all_chars (fun a => negb (b a)) s = true -> Str.strip_by b s = s.
Proof.
  intros H. unfold Str.strip_by. rewrite lstrip_by_id; auto using rstrip_by_id.
Qed.

Lemma numeral_not_blank a :
  numeral_char a = true -> negb (Str.is_numeral_blank a) = true.
Proof. by_bits a. Qed.

Lemma digit_numeral a : Str.is_digit a = true -> numeral_char a = true.
Proof. unfold numeral_char. now intros ->. Qed.

Lemma digit_scan_sign a s :
  Str.is_digit a = true -> scan_sign (String a s) = (false, String a s).
Proof. by_bits a. Qed.

Lemma digit_not_i a : Str.is_digit a = true -> Ascii.eqb a "i" = false.
Proof. by_bits a. Qed.

Lemma digit_not_n a : Str.is_digit a = true -> Ascii.eqb a "n" = false.
Proof. by_bits a. Qed.

Lemma scan_digits_append b ip r :
  Str.all_digits ip = true -> ends_digits r = true ->
  scan_digits b (ip ++ r) = (ip, r).
Proof.
  unfold Str.all_digits. intros Hip Hr. revert b.
  induction ip as [|a ip IH]; intros b; simpl.
  - destruct r as [|c r]; auto. simpl in Hr.
    apply andb_prop in Hr as [H1 H2]. apply negb_true_iff in H1, H2.
    simpl. rewrite H1, H2. now rewrite andb_false_r.
  - simpl in Hip. apply andb_prop in Hip as [H1 H2].
    rewrite H1, (IH H2). reflexivity.
Qed.

Lemma scan_digits_all b ip :
  Str.all_digits ip = true -> scan_digits b ip = (ip, "").
Proof.
  intros H. rewrite <- (append_nil_r ip) at 1.
  now apply scan_digits_append.
Qed.

(** A digit string, read by [float] and by [int], in front of nothing or
    of a fraction. *)
Lemma float_numeral a ip fp (dot : bool) :
  Str.is_digit a = true -> Str.all_digits ip = true -> Str.all_digits fp = true ->
  Float.float (String a ip ++ (if dot then "." ++ fp else "")) =
  inr (decimal (String a ip) (if dot then fp else "")).
Proof.
  intros Ha Hip Hfp. unfold Float.float.
  assert (Hall : Str.all_digits (String a ip) = true) by (unfold Str.all_digits in *; cbn [Str.all_chars]; now rewrite Ha).
  rewrite strip_by_id.
  2:{ apply all_chars_impl with (f := numeral_char); [apply numeral_not_blank|].
      rewrite all_chars_append. apply andb_true_intro. split.
      - eapply all_chars_impl; [apply digit_numeral|exact Hall].
      - destruct dot; auto. simpl.
        eapply all_chars_impl; [apply digit_numeral|exact Hfp]. }
  cbn [append]. rewrite digit_scan_sign by easy.
  cbn [Str.lower String.eqb]. rewrite (digit_lower _ Ha).
  rewrite (digit_not_i _ Ha), (digit_not_n _ Ha). cbn [orb].
  unfold parse_decimal, decimal.
  assert (Hs : scan_digits false
                 (String a (ip ++ (if dot then String "." fp else ""))) =
               (String a ip, if dot then String "." fp else "")).
  { apply (scan_digits_append false (String a ip)); auto. now destruct dot. }
  rewrite Hs. destruct dot.
  - rewrite scan_digits_all by easy. reflexivity.
  - rewrite !append_nil_r. reflexivity.
Qed.

(** [int] on a run of digits: their value, up to 4300 digits, and a
    [ValueError] beyond. *)
Lemma int_digits a ds :
  Str.is_digit a = true -> Str.all_digits ds = true ->
  Int.int (String a ds) =
  if Int.max_str_digits <? String.length (String a ds)
  then inl (ValueError
              ("Exceeds the limit (4300 digits) for integer string conversion: value has " ++
               string_of_Z (Z.of_nat (String.length (String a ds))) ++
               " digits; use sys.set_int_max_str_digits() to increase the limit"))
  else inr (digits_value 0 (String a ds)).
Proof.
  intros Ha Hds. unfold Int.int.
  assert (Hall : Str.all_digits (String a ds) = true) by (unfold Str.all_digits in *; cbn [Str.all_chars]; now rewrite Ha).
  rewrite strip_by_id.
  2:{ apply all_chars_impl with (f := numeral_char); [apply numeral_not_blank|].
      eapply all_chars_impl; [apply digit_numeral|exact Hall]. }
  rewrite digit_scan_sign by easy.
  rewrite scan_digits_all by easy.
  now destruct (Int.max_str_digits <? String.length (String a ds)).
Qed.

(** [float] raises nothing but [ValueError]. *)
Lemma float_raises s e : Float.float s = inl e -> is_ValueError e = true.
Proof.
  unfold Float.float.
  destruct (scan_sign _) as [neg u].
  destruct (_ || _); [discriminate|].
  destruct (_ =? _)%string; [discriminate|].
  destruct (parse_decimal u) as [[m x]|]; [discriminate|].
  now intros [= <-].
Qed.

(** ** Signs *)

Lemma normal_nonneg m e : nonneg_float (normal false m e) = true.
Proof.
  unfold normal. destruct m; auto. now destruct (odd_part p e).
Qed.

Lemma of_ratio_nonneg n d : nonneg_float (of_ratio false n d) = true.
Proof.
  unfold of_ratio. destruct (n =? 0)%Z; auto.
  destruct (_ || _); auto using normal_nonneg.
Qed.

Lemma of_decimal_nonneg m e : nonneg_float (of_decimal false m e) = true.
Proof. unfold of_decimal. destruct (0 <=? e)%Z; apply of_ratio_nonneg. Qed.

Lemma nonneg_le f : nonneg_float f = true -> Num.le (PyInt 0) (PyFloat f) = true.
Proof.
  destruct f as [[] m e|[]|]; try discriminate; intros _; auto.
  unfold Num.le. simpl. apply Qle_bool_iff.
  apply Qmult_le_0_compat.
  - unfold Qle. simpl. lia.
  - apply Qpower_0_le. discriminate.
Qed.

(** ** Searching for a number *)

Lemma number_search_digit a t :
  Str.is_digit a = true ->
  Re.search number_pattern (String a t) =
  Some (Re.MatchObj (String a t) (number_len (String a t)) []).
Proof.
  intros Ha. cbn [Re.search]. rewrite number_match.
  cbn [Str.span_len]. now rewrite Ha.
Qed.

Lemma number_search_skip pre t :
  Str.no_digit pre = true ->
  Re.search number_pattern (pre ++ t) = Re.search number_pattern t.
Proof.
  unfold Str.no_digit. induction pre as [|c pre IH]; auto.
  cbn [Str.all_chars append]. intros [H1 H2]%andb_prop.
  apply negb_true_iff in H1.
  cbn [Re.search]. rewrite number_match. cbn [Str.span_len]. rewrite H1.
  cbn [Nat.leb]. now apply IH.
Qed.

Lemma number_search_none s :
  Str.no_digit s = true -> Re.search number_pattern s = None.
Proof.
  intros H. rewrite <- (append_nil_r s), number_search_skip by easy.
  reflexivity.
Qed.

Lemma findall_head r s m :
  Re.search r s = Some m ->
  exists rest, Re.findall r s = Re.group0 m :: rest.
Proof.
  intros H. unfold Re.findall. cbn [Re.findall_fuel]. rewrite H. eauto.
Qed.

Lemma findall_none r s : Re.search r s = None -> Re.findall r s = [].
Proof. intros H. unfold Re.findall. cbn [Re.findall_fuel]. now rewrite H. Qed.

(** ** Shape of a text *)

Lemma digit_split s :
  Str.no_digit s = true \/
  exists pre a t, s = pre ++ String a t /\ Str.no_digit pre = true /\
                  Str.is_digit a = true.
Proof.
  unfold Str.no_digit. induction s as [|c s IH]; auto.
  destruct (Str.is_digit c) eqn:E.
  - right. exists "", c, s. auto.
  - destruct IH as [IH|(pre & a & t & -> & Hp & Ha)].
    + left. cbn [Str.all_chars]. now rewrite E, IH.
    + right. exists (String c pre), a, t. cbn [Str.all_chars append].
      now rewrite E, Hp.
Qed.

Lemma take_add n m s :
  Str.take (n + m) s = Str.take n s ++ Str.take m (Str.drop n s).
Proof.
  revert s. induction n as [|n IH]; intros s; simpl.
  - reflexivity.
  - destruct s as [|a s]; simpl.
    + now destruct m.
    + now rewrite IH.
Qed.

Lemma take_span p s : Str.all_chars p (Str.take (Str.span_len p s) s) = true.
Proof.
  induction s as [|a s IH]; simpl; auto.
  destruct (p a) eqn:E; simpl; auto. now rewrite E.
Qed.

(** What [\d+\.?\d*] takes at a digit: digits, then possibly a full stop
    and digits. *)
Lemma number_take a t :
  Str.is_digit a = true ->
  exists ip fp (dot : bool),
    Str.all_digits ip = true /\ Str.all_digits fp = true /\
    Str.take (number_len (String a t)) (String a t) =
    String a ip ++ (if dot then "." ++ fp else "").
Proof.
  intros Ha. unfold number_len. cbn [Str.span_len]. rewrite Ha.
  set (n := Str.span_len Str.is_digit t).
  cbn [Str.drop].
  assert (Hn : Str.all_chars Str.is_digit (Str.take n t) = true) by apply take_span.
  destruct (Str.drop n t) as [|c r] eqn:D.
  - exists (Str.take n t), "", false. repeat split; auto.
    cbn [Str.take append]. now rewrite append_nil_r.
  - destruct (Ascii.eqb c ".") eqn:Ec.
    + apply Ascii.eqb_eq in Ec. subst c.
      exists (Str.take n t), (Str.take (Str.span_len Str.is_digit r) r), true.
      repeat split; auto; [apply take_span|].
      replace (S n + 1 + Str.span_len Str.is_digit r)
        with (S (n + (1 + Str.span_len Str.is_digit r))) by lia.
      cbn [Str.take append]. rewrite take_add, D. reflexivity.
    + exists (Str.take n t), "", false. repeat split; auto.
      assert (c <> "."%char) by (intros ->; discriminate).
      rewrite append_nil_r.
      by_bits c; congruence.
Qed.

(** ** Cleaning a price text *)

(** What cleaning leaves of a text without digits: full stops only. *)
Lemma clean_no_digit s : Str.no_digit s = true -> Str.no_digit (clean s) = true.
Proof.
  unfold Str.no_digit, clean.
  induction s as [|a s IH]; simpl; auto.
  intros [H1 H2]%andb_prop.
  destruct (price_char a) eqn:E; simpl; auto.
  rewrite (IH H2), andb_true_r.
  destruct (Ascii.eqb a ","); auto.
Qed.

Lemma clean_digits s : Str.all_digits s = true -> clean s = s.
Proof.
  intros H. unfold clean. rewrite delete_class_keep.
  - now apply replace_char_digits.
  - eapply all_chars_impl; [|exact H].
    intros a Ha. now rewrite (digit_is_price_char _ Ha).
Qed.

(** ** [extract_price] *)

Lemma extract_price_str s : extract_price (PriceStr s) = price_of_text s.
Proof.
  unfold extract_price. cbn [price_truthy].
  destruct s as [|a s]; reflexivity.
Qed.

Lemma extract_price_list s l : extract_price (PriceList (s :: l)) = price_of_text s.
Proof. reflexivity. Qed.

Lemma extract_price_other s : extract_price (PriceOther true s) = price_of_text s.
Proof. reflexivity. Qed.

Lemma price_of_text_no_digit s :
  Str.no_digit s = true -> price_of_text s = inr Float.zero.
Proof.
  intros H. unfold price_of_text.
  rewrite findall_none; auto.
  apply number_search_none. now apply clean_no_digit.
Qed.

Lemma clean_append a b : clean (a ++ b) = clean a ++ clean b.
Proof. unfold clean. now rewrite delete_class_append, replace_char_append. Qed.

Lemma clean_numeral s : Str.all_chars numeral_char (clean s) = true.
Proof.
  unfold clean. induction s as [|a s IH]; simpl; auto.
  destruct (price_char a) eqn:E; simpl; auto.
  rewrite IH, andb_true_r.
  destruct (Ascii.eqb a ",") eqn:Ec; auto.
  unfold price_char in E. rewrite Ec, orb_false_r in E. exact E.
Qed.

Lemma price_of_text_found pre a t :
  Str.no_digit pre = true -> Str.is_digit a = true ->
  price_of_text (pre ++ String a t) =
  Float.float (Str.take (number_len (String a (clean t))) (String a (clean t))).
Proof.
  intros Hp Ha. unfold price_of_text.
  assert (Hc : clean (pre ++ String a t) = clean pre ++ String a (clean t)).
  { rewrite clean_append. f_equal. unfold clean. simpl.
    rewrite (digit_is_price_char _ Ha). simpl.
    now rewrite (digit_not_comma _ Ha). }
  rewrite Hc.
  destruct (findall_head number_pattern (clean pre ++ String a (clean t))
              (Re.MatchObj (String a (clean t))
                 (number_len (String a (clean t))) [])) as [rest Hf].
  { rewrite number_search_skip by now apply clean_no_digit.
    now apply number_search_digit. }
  rewrite Hf. unfold Re.group0. cbn [Re.m_end Re.m_text].
  destruct (number_take a (clean t) Ha) as (ip & fp & dot & Hip & Hfp & Ht).
  rewrite Ht, float_numeral by easy. reflexivity.
Qed.

(** [extract_price] returns, and what it returns is [0.0] or more. *)
Lemma price_of_text_total s :
  exists f, price_of_text s = inr f /\ nonneg_float f = true.
Proof.
  destruct (digit_split s) as [H|(pre & a & t & -> & Hp & Ha)].
  - exists Float.zero. split; auto. now apply price_of_text_no_digit.
  - rewrite price_of_text_found by easy.
    destruct (number_take a (clean t) Ha) as (ip & fp & dot & Hip & Hfp & Ht).
    rewrite Ht, float_numeral by easy.
    eexists; split; [reflexivity|]. apply of_decimal_nonneg.
Qed.

Lemma extract_price_returns p :
  exists f, extract_price p = inr f /\ nonneg_float f = true.
Proof.
  destruct p as [|s|[|s l]|[] s].
  - now exists Float.zero.
  - rewrite extract_price_str. apply price_of_text_total.
  - now exists Float.zero.
  - rewrite extract_price_list. apply price_of_text_total.
  - rewrite extract_price_other. apply price_of_text_total.
  - now exists Float.zero.
Qed.

(** ** A single numeral in a text *)

Lemma number_len_decimal w fp r :
  Str.all_digits w = true -> Str.all_digits fp = true -> Str.no_digit r = true ->
  number_len (w ++ String "." (fp ++ r)) = String.length (w ++ String "." fp).
Proof.
  intros Hw Hfp Hr. unfold number_len.
  rewrite span_len_append by exact Hw. cbn [Str.span_len].
  replace (Str.is_digit ".") with false by reflexivity.
  rewrite Nat.add_0_r, drop_append.
  rewrite span_len_append by exact Hfp.
  rewrite (span_len_no_digit _ Hr), length_append. simpl. lia.
Qed.

Lemma span_len_all p w :
  Str.all_chars p w = true -> Str.span_len p w = String.length w.
Proof.
  induction w as [|a w IH]; simpl; auto.
  intros [H1 H2]%andb_prop. now rewrite H1, IH.
Qed.

Lemma take_length w : Str.take (String.length w) w = w.
Proof. induction w; simpl; congruence. Qed.

Lemma drop_length w : Str.drop (String.length w) w = "".
Proof. induction w; simpl; auto. Qed.

Lemma number_len_integer w :
  Str.all_digits w = true -> number_len w = String.length w.
Proof.
  intros Hw. unfold number_len.
  rewrite (span_len_all _ _ Hw), drop_length. reflexivity.
Qed.

Lemma number_len_stop w r :
  Str.all_digits w = true -> Str.no_digit r = true ->
  number_len (w ++ String "." r) = String.length (w ++ ".").
Proof.
  intros Hw Hr. rewrite <- (number_len_decimal w "" r); auto.
Qed.

Lemma dots_head c r :
  Str.all_chars numeral_char (String c r) = true ->
  Str.no_digit (String c r) = true ->
  c = "."%char /\ Str.no_digit r = true.
Proof.
  unfold Str.no_digit, numeral_char. cbn [Str.all_chars].
  intros [H1 _]%andb_prop [H2 H3]%andb_prop.
  apply negb_true_iff in H2. rewrite H2 in H1. simpl in H1.
  apply Ascii.eqb_eq in H1. auto.
Qed.

Lemma clean_digit_string a t :
  Str.is_digit a = true -> clean (String a t) = String a (clean t).
Proof.
  intros Ha. unfold clean. simpl.
  rewrite (digit_is_price_char _ Ha). simpl.
  now rewrite (digit_not_comma _ Ha).
Qed.

(** [pre ip sep fp post]: one numeral with a fraction. *)
Lemma price_of_text_decimal pre a ip (sep : ascii) fp post :
  Str.no_digit pre = true -> Str.is_digit a = true -> Str.all_digits ip = true ->
  sep = "."%char \/ sep = ","%char ->
  Str.all_digits fp = true -> Str.no_digit post = true ->
  price_of_text (pre ++ String a ip ++ String sep (fp ++ post)) =
  inr (decimal (String a ip) fp).
Proof.
  intros Hp Ha Hip Hsep Hfp Hpost.
  cbn [append]. rewrite price_of_text_found by easy.
  assert (Hc : clean (ip ++ String sep (fp ++ post)) =
               ip ++ String "." (fp ++ clean post)).
  { rewrite clean_append, (clean_digits ip Hip). f_equal.
    change (String sep (fp ++ post)) with (String sep "" ++ (fp ++ post)).
    rewrite !clean_append, (clean_digits fp Hfp).
    destruct Hsep as [-> | ->]; reflexivity. }
  rewrite Hc.
  change (String a (ip ++ String "." (fp ++ clean post)))
    with (String a ip ++ String "." (fp ++ clean post)).
  assert (Hw : Str.all_digits (String a ip) = true).
  { unfold Str.all_digits in *. cbn [Str.all_chars]. now rewrite Ha. }
  rewrite number_len_decimal
    by first [assumption | apply clean_no_digit; assumption].
  replace (String a ip ++ String "." (fp ++ clean post))
    with ((String a ip ++ String "." fp) ++ clean post)
    by (now rewrite append_assoc).
  rewrite take_append.
  apply (float_numeral a ip fp true); auto.
Qed.

(** [pre ip post]: one numeral without a fraction. *)
Lemma price_of_text_integer pre a ip post :
  Str.no_digit pre = true -> Str.is_digit a = true -> Str.all_digits ip = true ->
  Str.no_digit post = true ->
  price_of_text (pre ++ String a ip ++ post) = inr (decimal (String a ip) "").
Proof.
  intros Hp Ha Hip Hpost.
  cbn [append]. rewrite price_of_text_found by easy.
  rewrite clean_append, (clean_digits ip Hip).
  change (String a (ip ++ clean post)) with (String a ip ++ clean post).
  assert (Hw : Str.all_digits (String a ip) = true).
  { unfold Str.all_digits in *. cbn [Str.all_chars]. now rewrite Ha. }
  pose proof (clean_numeral post) as Hn.
  pose proof (clean_no_digit post Hpost : Str.no_digit (clean post) = true) as Hd.
  destruct (clean post) as [|c r].
  - rewrite append_nil_r, number_len_integer, take_length by exact Hw.
    pose proof (float_numeral a ip "" false Ha Hip Logic.eq_refl) as H.
    now rewrite append_nil_r in H.
  - destruct (dots_head c r Hn Hd) as [-> Hr].
    rewrite number_len_stop by easy.
    replace (String a ip ++ String "." r) with ((String a ip ++ ".") ++ r)
      by (now rewrite append_assoc).
    rewrite take_append.
    apply (float_numeral a ip "" true); auto.
Qed.

(** ** What a match went through *)

Lemma rep_greedy_result {R} p lo s i (k : string -> nat -> option R) x :
  Re.rep_greedy p lo s i k = Some x -> exists s' j, k s' j = Some x.
Proof.
  revert lo i. induction s as [|a s IH]; intros lo i; simpl.
  - destruct lo; [eauto|discriminate].
  - destruct (p a).
    + destruct (Re.rep_greedy p (pred lo) s (S i) k) eqn:E.
      * intros [= ->]. eauto.
      * destruct lo; [eauto|discriminate].
    + destruct lo; [eauto|discriminate].
Qed.

Lemma rep_lazy_result {R} p lo s i (k : string -> nat -> option R) x :
  Re.rep_lazy p lo s i k = Some x -> exists s' j, k s' j = Some x.
Proof.
  revert lo i. induction s as [|a s IH]; intros lo i; simpl.
  - destruct lo; [|discriminate]. destruct (k "" i) eqn:E; [|discriminate].
    intros [= ->]. eauto.
  - destruct lo.
    + destruct (k (String a s) i) eqn:E.
      * intros [= ->]. eauto.
      * destruct (p a); [eauto|discriminate].
    + destruct (p a); [eauto|discriminate].
Qed.

(** Every result of [exec] is a result of its continuation, called on
    groups that still have what [g] had. *)
Lemma exec_keeps {R} (P : Re.groups -> Prop) r :
  (forall n span g, P g -> P ((n, span) :: g)) ->
  forall s i g (k : string -> nat -> Re.groups -> option R) x,
    P g -> Re.exec r s i g k = Some x ->
    exists s' j g', P g' /\ k s' j g' = Some x.
Proof.
  intros HP. induction r as [|a|p|r1 IH1 r2 IH2|r1 IH1 r2 IH2|r1 IH1|gr lo p|n r1 IH1|];
    intros s i g k x Hg; cbn [Re.exec].
  - eauto.
  - destruct s as [|b s]; [discriminate|]. destruct (Ascii.eqb a b); [eauto|discriminate].
  - destruct s as [|b s]; [discriminate|]. destruct (p b); [eauto|discriminate].
  - intros H. apply IH1 in H as (s1 & j1 & g1 & Hg1 & H); auto.
    apply IH2 in H; auto.
  - destruct (Re.exec r1 s i g k) eqn:E.
    + intros [= ->]. eapply IH1; eauto.
    + intros H. eapply IH2; eauto.
  - destruct (Re.exec r1 s i g k) eqn:E.
    + intros [= ->]. eapply IH1; eauto.
    + eauto.
  - destruct gr; intros H.
    + apply rep_greedy_result in H as (s' & j & H). eauto.
    + apply rep_lazy_result in H as (s' & j & H). eauto.
  - intros H. apply IH1 in H as (s1 & j1 & g1 & Hg1 & H); auto.
    exists s1, j1, ((n, (i, j1)) :: g1). auto.
  - destruct s as [|a [|b s]]; try discriminate; [eauto|].
    destruct (Str.code a =? 10)%N; [eauto|discriminate].
Qed.

Lemma has_group_cons n m span g : has_group n g -> has_group n ((m, span) :: g).
Proof.
  unfold has_group. cbn [Re.lookup]. destruct (n =? m); auto. discriminate.
Qed.

Lemma search_result r s m :
  Re.search r s = Some m -> exists u, Re.match_here r u = Some m.
Proof.
  induction s as [|a s IH]; cbn [Re.search].
  - destruct (Re.match_here r "") eqn:E; [|discriminate]. intros [= ->]. eauto.
  - destruct (Re.match_here r (String a s)) eqn:E; [|exact IH].
    intros [= ->]. eauto.
Qed.

(** A trigger match always has its group 1. *)
Lemma trigger_group verb s m :
  Re.search (trigger verb) s = Some m -> exists g, Re.group 1 m = Some g.
Proof.
  intros H. apply search_result in H as [u H].
  unfold Re.match_here, trigger in H. cbn [Re.seq Re.exec] in H.
  apply (exec_keeps (fun _ => True)) in H as (s1 & j1 & g1 & _ & H); auto.
  apply rep_greedy_result in H as (s2 & j2 & H).
  apply rep_lazy_result in H as (s3 & j3 & H).
  apply (exec_keeps (has_group 1)) in H as (s4 & j4 & g4 & Hg & H).
  - injection H as <-. unfold Re.group. cbn [Re.m_groups Re.m_text].
    unfold has_group in Hg. destruct (Re.lookup 1 g4) as [[a b]|]; [eauto|congruence].
  - intros n span g. apply has_group_cons.
  - unfold has_group. cbn [Re.lookup Nat.eqb]. discriminate.
Qed.

Lemma first_match_trigger text m :
  first_match search_patterns text = Some m -> exists g, Re.group 1 m = Some g.
Proof.
  unfold search_patterns. cbn [first_match].
  repeat match goal with
         | |- context [Re.search (trigger ?v) text] =>
             let E := fresh "E" in
             destruct (Re.search (trigger v) text) eqn:E;
             [intros [= <-]; eapply trigger_group; eauto|]
         end.
  discriminate.
Qed.

(** ** The loop follows the first pattern that matches *)

Lemma first_intent_first_match patterns text :
  first_intent patterns text =
  match first_match patterns text with
  | Some m => intent_of m text
  | None => inr None
  end.
Proof.
  induction patterns as [|p ps IH]; cbn [first_intent first_match]; auto.
  destruct (Re.search p text); auto.
Qed.

Lemma extract_search_intent_last h t :
  extract_search_intent (h ++ [t]) = first_intent search_patterns (scanned t).
Proof.
  unfold extract_search_intent, PyList.last_item. rewrite rev_unit.
  destruct (h ++ [t])%list eqn:E; [|reflexivity].
  now destruct h.
Qed.

(** ** Patterns that start with a literal word *)

Lemma trigger_needs_word w opt u :
  Str.starts_with w u = false ->
  Re.match_here (trigger (Re.Seq (Re.word w) opt)) u = None.
Proof.
  intros H. unfold Re.match_here, trigger. cbn [Re.seq Re.exec].
  now rewrite exec_word, H.
Qed.

Lemma trigger_word_needs_word w u :
  Str.starts_with w u = false ->
  Re.match_here (trigger (Re.word w)) u = None.
Proof.
  intros H. unfold Re.match_here, trigger. cbn [Re.seq Re.exec].
  now rewrite exec_word, H.
Qed.

Lemma budget_needs_word u :
  Str.starts_with "entre" u = false ->
  Re.match_here budget_pattern u = None.
Proof.
  intros H. unfold Re.match_here, budget_pattern. cbn [Re.seq Re.exec].
  now rewrite exec_word, H.
Qed.

Lemma drop_add n m s : Str.drop (n + m) s = Str.drop m (Str.drop n s).
Proof.
  revert s. induction n as [|n IH]; intros s; simpl; auto.
  destruct s as [|a s]; auto. now destruct m.
Qed.

Lemma lower_starts_with_digit s :
  starts_with_digit (Str.lower s) = starts_with_digit s.
Proof. destruct s as [|a s]; simpl; auto. apply lower_digit. Qed.

(** ** The phrase of the prompt *)

Lemma phrase_trigger tail :
  Re.match_here (trigger (Re.Seq (Re.word "cherchon") (Re.Opt (Re.Chr "s"))))
    ("cherchons x entre 10 et 50" ++ tail) =
  Some (Re.MatchObj ("cherchons x entre 10 et 50" ++ tail) 17 [(1, (10, 11))]).
Proof. vm_compute. reflexivity. Qed.

Lemma phrase_budget tail :
  starts_with_digit tail = false ->
  Re.match_here budget_pattern ("entre 10 et 50" ++ tail) =
  Some (Re.MatchObj ("entre 10 et 50" ++ tail) 14 [(2, (12, 14)); (1, (6, 8))]).
Proof.
  destruct tail as [|a tail]; [reflexivity|].
  cbn [starts_with_digit].
  destruct a as [[] [] [] [] [] [] [] []]; intros H;
    solve [discriminate H | vm_compute; reflexivity].
Qed.

Lemma search_here r s m : Re.match_here r s = Some m -> Re.search r s = Some m.
Proof. intros H. destruct s; cbn [Re.search]; now rewrite H. Qed.

(** The phrase, with text before and after it. *)
Lemma phrase_intent (pre post : string) :
  let text := Str.lower (pre ++ "cherchons X entre 10 et 50" ++ post) in
  Str.find "cherchon" text = Some (String.length pre) ->
  Str.find "entre" text = Some (String.length pre + 12) ->
  starts_with_digit post = false ->
  first_intent search_patterns text =
  inr (Some {| query := "x";
               min_price := PyFloat (Finite false 5 1);
               max_price := PyFloat (Finite false 25 1) |}).
Proof.
  intros text Hc He Hd.
  assert (Ht : text = Str.lower pre ++ "cherchons x entre 10 et 50" ++ Str.lower post).
  { unfold text. now rewrite !lower_append. }
  assert (H1 : Re.search (trigger (Re.Seq (Re.word "cherchon") (Re.Opt (Re.Chr "s")))) text
               = Some (Re.MatchObj ("cherchons x entre 10 et 50" ++ Str.lower post)
                         17 [(1, (10, 11))])).
  { rewrite (search_from_find _ "cherchon" text (String.length pre));
      [|apply trigger_needs_word|exact Hc].
    rewrite Ht, <- (lower_length pre), drop_append.
    apply search_here, phrase_trigger. }
  assert (H2 : Re.search budget_pattern text
               = Some (Re.MatchObj ("entre 10 et 50" ++ Str.lower post)
                         14 [(2, (12, 14)); (1, (6, 8))])).
  { rewrite (search_from_find _ "entre" text (String.length pre + 12));
      [|apply budget_needs_word|exact He].
    rewrite Ht, drop_add, <- (lower_length pre), drop_append.
    apply search_here.
    apply (phrase_budget (Str.lower post)).
    now rewrite lower_starts_with_digit. }
  unfold search_patterns. cbn [first_intent]. rewrite H1, H2.
  generalize (Str.lower post) as tail. intros tail.
  vm_compute. reflexivity.
Qed.

Lemma dict_get_missing {A} (d : list (string * A)) key default :
  (forall v, ~ In (key, v) d) -> dict_get d key default = default.
Proof.
  induction d as [|[k v] d IH]; auto. intros H. cbn [dict_get].
  destruct (String.eqb_spec k key) as [->|_].
  - exfalso. apply (H v). now left.
  - apply IH. intros w Hw. apply (H w). now right.
Qed.

(** ** How far a match went *)

Lemma rep_greedy_span {R} p lo s i (k : string -> nat -> option R) x :
  Re.rep_greedy p lo s i k = Some x ->
  exists n, lo <= n /\ n <= Str.span_len p s /\ k (Str.drop n s) (i + n) = Some x.
Proof.
  revert lo i. induction s as [|a s IH]; intros lo i; simpl.
  - destruct lo; [|discriminate]. intros H. exists 0. rewrite Nat.add_0_r. auto.
  - destruct (p a).
    + destruct (Re.rep_greedy p (pred lo) s (S i) k) eqn:E.
      * intros [= ->]. apply IH in E as (n & H1 & H2 & H3).
        exists (S n). rewrite Nat.add_succ_r. simpl. repeat split; auto; lia.
      * destruct lo; [|discriminate]. intros H. exists 0.
        rewrite Nat.add_0_r. repeat split; auto; lia.
    + destruct lo; [|discriminate]. intros H. exists 0.
      rewrite Nat.add_0_r. auto.
Qed.

Lemma rep_lazy_span {R} p lo s i (k : string -> nat -> option R) x :
  Re.rep_lazy p lo s i k = Some x ->
  exists n, k (Str.drop n s) (i + n) = Some x.
Proof.
  revert lo i. induction s as [|a s IH]; intros lo i; simpl.
  - destruct lo; [|discriminate]. destruct (k "" i) eqn:E; [|discriminate].
    intros [= ->]. exists 0. now rewrite Nat.add_0_r.
  - assert (Hmore : (if p a then Re.rep_lazy p (pred lo) s (S i) k else None) = Some x ->
                    exists n, k (Str.drop n (String a s)) (i + n) = Some x).
    { destruct (p a); [|discriminate]. intros H. apply IH in H as [n H].
      exists (S n). now rewrite Nat.add_succ_r. }
    destruct lo; auto.
    destruct (k (String a s) i) eqn:E; auto.
    intros [= ->]. exists 0. now rewrite Nat.add_0_r.
Qed.

(** A pattern without groups hands its continuation the groups it got,
    further on in the same text. *)
Lemma exec_groupless {R} r :
  Re.groupless r = true ->
  forall s i g (k : string -> nat -> Re.groups -> option R) x,
    Re.exec r s i g k = Some x ->
    exists n, k (Str.drop n s) (i + n) g = Some x.
Proof.
  induction r as [|a|p|r1 IH1 r2 IH2|r1 IH1 r2 IH2|r1 IH1|gr lo p|n r1 IH1|];
    cbn [Re.groupless]; intros Hr s i g k x; cbn [Re.exec].
  - intros H. exists 0. now rewrite Nat.add_0_r.
  - destruct s as [|b s]; [discriminate|].
    destruct (Ascii.eqb a b); [|discriminate].
    intros H. exists 1. now rewrite Nat.add_1_r.
  - destruct s as [|b s]; [discriminate|].
    destruct (p b); [|discriminate].
    intros H. exists 1. now rewrite Nat.add_1_r.
  - apply andb_prop in Hr as [H1 H2]. intros H.
    apply (IH1 H1) in H as [n1 H]. apply (IH2 H2) in H as [n2 H].
    exists (n1 + n2). now rewrite drop_add, Nat.add_assoc.
  - apply andb_prop in Hr as [H1 H2].
    destruct (Re.exec r1 s i g k) eqn:E.
    + intros [= ->]. now apply (IH1 H1) in E.
    + intros H. now apply (IH2 H2) in H.
  - destruct (Re.exec r1 s i g k) eqn:E.
    + intros [= ->]. now apply (IH1 Hr) in E.
    + intros H. exists 0. now rewrite Nat.add_0_r.
  - destruct gr; intros H.
    + apply rep_greedy_span in H as (n & _ & _ & H). eauto.
    + apply rep_lazy_span in H. exact H.
  - discriminate.
  - destruct s as [|a [|b s]]; try discriminate.
    + intros H. exists 0. now rewrite Nat.add_0_r.
    + destruct (Str.code a =? 10)%N; [|discriminate].
      intros H. exists 0. now rewrite Nat.add_0_r.
Qed.

(** A group of digits: what [(\d+)] records is a run of digits, one at
    least. *)
Lemma digits_group {R} n s i g (k : string -> nat -> Re.groups -> option R) x :
  Re.exec (Re.Grp n (Re.Rep true 1 Str.is_digit)) s i g k = Some x ->
  exists len,
    1 <= len /\ Str.all_digits (Str.take len s) = true /\
    String.length (Str.take len s) = len /\
    k (Str.drop len s) (i + len) ((n, (i, i + len)) :: g) = Some x.
Proof.
  cbn [Re.exec]. intros H.
  apply rep_greedy_span in H as (len & H1 & H2 & H3).
  exists len. repeat split; auto.
  - clear -H2. revert len H2. induction s as [|a s IH]; intros [|len]; simpl; auto; try lia.
    destruct (Str.is_digit a) eqn:E; [|lia]. intros H.
    unfold Str.all_digits in *. cbn [Str.all_chars]. rewrite E. apply IH. lia.
  - clear -H2. revert len H2. induction s as [|a s IH]; intros [|len]; simpl; auto; try lia.
    destruct (Str.is_digit a) eqn:E; [|lia]. intros H. f_equal. apply IH. lia.
Qed.

Lemma float_of_digits d :
  Str.all_digits d = true -> 1 <= String.length d ->
  Float.float d = inr (decimal d "").
Proof.
  destruct d as [|a d]; simpl; [lia|]. intros H _.
  unfold Str.all_digits in H. cbn [Str.all_chars] in H.
  apply andb_prop in H as [Ha Hd].
  pose proof (float_numeral a d "" false Ha Hd Logic.eq_refl) as H.
  now rewrite append_nil_r in H.
Qed.

(** The groups of a budget match are numerals. *)
Lemma budget_groups text b :
  Re.search budget_pattern text = Some b ->
  exists d1 d2,
    Re.group 1 b = Some d1 /\ Re.group 2 b = Some d2 /\
    Float.float d1 = inr (decimal d1 "") /\
    Float.float d2 = inr (decimal d2 "").
Proof.
  intros H. apply search_result in H as [u H].
  unfold Re.match_here, budget_pattern in H. cbn [Re.seq] in H.
  change (Re.exec (Re.Seq ?a ?r) ?s ?i ?g ?k)
    with (Re.exec a s i g (fun s' j g' => Re.exec r s' j g' k)) in H.
  apply exec_groupless in H as [n0 H]; [|reflexivity].
  change (Re.exec (Re.Seq ?a ?r) ?s ?i ?g ?k)
    with (Re.exec a s i g (fun s' j g' => Re.exec r s' j g' k)) in H.
  apply exec_groupless in H as [n1 H]; [|reflexivity].
  change (Re.exec (Re.Seq ?a ?r) ?s ?i ?g ?k)
    with (Re.exec a s i g (fun s' j g' => Re.exec r s' j g' k)) in H.
  apply digits_group in H as (l1 & Hl1 & Hd1 & Hn1 & H).
  change (Re.exec (Re.Seq ?a ?r) ?s ?i ?g ?k)
    with (Re.exec a s i g (fun s' j g' => Re.exec r s' j g' k)) in H.
  apply exec_groupless in H as [n2 H]; [|reflexivity].
  change (Re.exec (Re.Seq ?a ?r) ?s ?i ?g ?k)
    with (Re.exec a s i g (fun s' j g' => Re.exec r s' j g' k)) in H.
  apply exec_groupless in H as [n3 H]; [|reflexivity].
  change (Re.exec (Re.Seq ?a ?r) ?s ?i ?g ?k)
    with (Re.exec a s i g (fun s' j g' => Re.exec r s' j g' k)) in H.
  apply exec_groupless in H as [n4 H]; [|reflexivity].
  change (Re.exec (Re.Seq ?a ?r) ?s ?i ?g ?k)
    with (Re.exec a s i g (fun s' j g' => Re.exec r s' j g' k)) in H.
  apply digits_group in H as (l2 & Hl2 & Hd2 & Hn2 & H).
  cbn [Re.exec] in H. injection H as <-.
  unfold Re.group. cbn [Re.m_groups Re.m_text Re.lookup Nat.eqb].
  rewrite !drop_add.
  replace (n0 + n1 + l1 - (n0 + n1)) with l1 by lia.
  replace (n0 + n1 + l1 + n2 + n3 + n4 + l2 - (n0 + n1 + l1 + n2 + n3 + n4))
    with l2 by lia.
  do 2 eexists. split; [reflexivity|]. split; [reflexivity|].
  split; apply float_of_digits; auto; lia.
Qed.

(** ** The detector never raises *)

Lemma budget_bound_returns text n default :
  n = 1 \/ n = 2 ->
  exists x, budget_bound (Re.search budget_pattern text) n default = inr x.
Proof.
  intros Hn. unfold budget_bound.
  destruct (Re.search budget_pattern text) as [b|] eqn:E; [|eauto].
  destruct (budget_groups text b E) as (d1 & d2 & H1 & H2 & F1 & F2).
  unfold group_str.
  destruct Hn as [-> | ->]; [rewrite H1|rewrite H2]; cbn [bind ret].
  - rewrite F1. cbn [bind]. eauto.
  - rewrite F2. cbn [bind]. eauto.
Qed.

Lemma intent_of_returns text m :
  first_match search_patterns text = Some m ->
  exists g i,
    Re.group 1 m = Some g /\
    intent_of m text = inr (Some i) /\ query i = Str.strip g.
Proof.
  intros Hm. destruct (first_match_trigger _ _ Hm) as [g Hg].
  destruct (budget_bound_returns text 1 (PyInt 0)) as [lo Hlo]; auto.
  destruct (budget_bound_returns text 2 (PyInt 1000)) as [hi Hhi]; auto.
  exists g. eexists. split; [exact Hg|].
  unfold intent_of, group_str. rewrite Hg. cbn [bind ret].
  rewrite Hlo, Hhi. cbn [bind ret]. split; reflexivity.
Qed.

Lemma extract_search_intent_returns (h : list turn) :
  exists r, extract_search_intent h = inr r.
Proof.
  destruct (rev h) as [|t h'] eqn:E.
  - apply (f_equal (@rev turn)) in E. rewrite rev_involutive in E. subst.
    now exists None.
  - apply (f_equal (@rev turn)) in E. rewrite rev_involutive in E. subst.
    cbn [rev]. rewrite extract_search_intent_last, first_intent_first_match.
    destruct (first_match search_patterns (scanned t)) as [m|] eqn:Hm; [|eauto].
    destruct (intent_of_returns _ _ Hm) as (g & i & _ & Hi & _). eauto.
Qed.

(** ** The loop of [fetch_amazon_products] *)

Lemma dict_get_find {A} (d : list (string * A)) key default :
  dict_get d key default =
  match dict_find d key with
  | Some v => v
  | None => default
  end.
Proof.
  induction d as [|[k v] d IH]; cbn; auto. now destruct (k =? key)%string.
Qed.

Lemma delete_non_digits s : Str.all_digits (digits_of s) = true.
Proof.
  unfold Str.all_digits, digits_of. induction s as [|a s IH]; simpl; auto.
  destruct (Str.is_digit a) eqn:E; simpl; auto. now rewrite E.
Qed.

(** A review count given as text: the number its digits spell, up to
    4300 digits; beyond, [int] raises. *)
Lemma read_reviews_count_text raw s :
  dict_get raw "ratings_total" (JNumber (PyInt 0)) = JString s ->
  (String.length (digits_of s) <= Int.max_str_digits ->
   read_reviews_count raw = inr (JNumber (PyInt (digits_value 0 (digits_of s))))) /\
  (Int.max_str_digits < String.length (digits_of s) ->
   exists msg, read_reviews_count raw = inl (ValueError msg)).
Proof.
  intros H. unfold read_reviews_count. rewrite H. fold (digits_of s).
  pose proof (delete_non_digits s) as Hd.
  destruct (digits_of s) as [|a ds] eqn:E.
  - split; [reflexivity|]. cbn. unfold Int.max_str_digits. lia.
  - unfold Str.all_digits in Hd. cbn [Str.all_chars] in Hd.
    apply andb_prop in Hd as [Ha Hds].
    cbn [String.eqb]. rewrite (int_digits a ds Ha Hds).
    split; intros Hl.
    + apply Nat.ltb_ge in Hl. rewrite Hl. reflexivity.
    + apply Nat.ltb_lt in Hl. rewrite Hl. cbn [bind]. eexists. reflexivity.
Qed.

Lemma read_reviews_count_readable raw :
  count_readable raw = true -> read_reviews_count raw = inr (reviews_of raw).
Proof.
  unfold count_readable. intros H.
  destruct (dict_get raw "ratings_total" (JNumber (PyInt 0))) as [|b|n|s|l|d] eqn:E;
    try (unfold reviews_of, read_reviews_count; rewrite E; reflexivity).
  apply Nat.leb_le in H.
  destruct (read_reviews_count_text raw s E) as [Hok _].
  unfold reviews_of. now rewrite (Hok H).
Qed.

Lemma read_reviews_count_raises raw :
  count_readable raw = false ->
  exists msg, read_reviews_count raw = inl (ValueError msg).
Proof.
  unfold count_readable. intros H.
  destruct (dict_get raw "ratings_total" (JNumber (PyInt 0))) as [|b|n|s|l|d] eqn:E;
    try discriminate.
  apply Nat.leb_gt in H. now apply (read_reviews_count_text raw s E).
Qed.

Lemma make_product_raises raw price_val :
  count_readable raw = false ->
  exists msg, make_product raw price_val = inl (ValueError msg).
Proof.
  intros H. destruct (read_reviews_count_raises raw H) as [msg Hm].
  exists msg. unfold make_product. now rewrite Hm.
Qed.

Lemma slice_to_firstn {A} (n : Z) (l : list A) :
  exists k, PyList.slice_to n l = firstn k l.
Proof. unfold PyList.slice_to. destruct (0 <=? n)%Z; eauto. Qed.

Lemma slice_to_all {A} (n : Z) (l : list A) :
  (Z.of_nat (List.length l) <= n)%Z -> PyList.slice_to n l = l.
Proof.
  intros H. unfold PyList.slice_to.
  replace (0 <=? n)%Z with true by (symmetry; apply Z.leb_le; lia).
  apply firstn_all2. lia.
Qed.

Section Loop.

Context {P : Python}.

Lemma extract_price_normalized raw :
  extract_price (as_price (price_field raw)) = inr (normalized_price raw).
Proof.
  unfold normalized_price.
  destruct (extract_price_returns (as_price (price_field raw))) as (f & -> & _).
  reflexivity.
Qed.

Lemma normalized_price_nonneg raw : nonneg_float (normalized_price raw) = true.
Proof.
  unfold normalized_price.
  destruct (extract_price_returns (as_price (price_field raw))) as (f & -> & H).
  exact H.
Qed.

Lemma make_product_readable raw :
  count_readable raw = true ->
  make_product raw (normalized_price raw) = inr (record_of raw).
Proof.
  intros H. unfold make_product. now rewrite read_reviews_count_readable.
Qed.

(** The loop on entries that are objects, when the review counts of
    those in the band can be read. *)
Lemma collect_entries entries min_price max_price :
  Forall (fun raw => count_readable raw = true)
    (filter (within_band min_price max_price) entries) ->
  collect (map JObject entries) min_price max_price =
  inr (map record_of (filter (within_band min_price max_price) entries)).
Proof.
  induction entries as [|raw rest IH]; auto.
  cbn [map collect filter Json.as_dict bind ret].
  rewrite extract_price_normalized. cbn [bind].
  destruct (within_band min_price max_price raw) eqn:Eb; intros H;
    unfold within_band in Eb; rewrite Eb.
  - inversion H as [|? ? Hr Hrest]; subst.
    rewrite make_product_readable by exact Hr. cbn [bind].
    rewrite IH by exact Hrest. reflexivity.
  - now apply IH.
Qed.

(** The loop stops at the first entry of the band whose review count
    cannot be read. *)
Lemma collect_unreadable entries min_price max_price :
  Exists (fun raw => count_readable raw = false)
    (filter (within_band min_price max_price) entries) ->
  exists msg, collect (map JObject entries) min_price max_price = inl (ValueError msg).
Proof.
  induction entries as [|raw rest IH]; cbn [filter]; intros H.
  - inversion H.
  - cbn [map collect Json.as_dict bind ret].
    rewrite extract_price_normalized. cbn [bind].
    destruct (within_band min_price max_price raw) eqn:Eb;
      unfold within_band in Eb; rewrite Eb.
    + destruct (count_readable raw) eqn:E.
      * rewrite make_product_readable by exact E. cbn [bind].
        inversion H as [? ? Hr|? ? Hrest]; subst; [congruence|].
        destruct (IH Hrest) as [msg ->]. now exists msg.
      * destruct (make_product_raises raw (normalized_price raw) E) as [msg ->].
        now exists msg.
    + now apply IH.
Qed.

(** Whatever the results are, a record the loop appended is the record
    of an entry of the band. *)
Lemma collect_records results min_price max_price products :
  collect results min_price max_price = inr products ->
  Forall (fun p => exists raw, p = record_of raw /\
                     within_band min_price max_price raw = true) products.
Proof.
  revert products. induction results as [|product rest IH]; intros products H.
  - injection H as <-. constructor.
  - cbn [collect] in H.
    destruct product as [|b|n|s|l|raw]; try discriminate.
    cbn [Json.as_dict bind ret] in H.
    rewrite extract_price_normalized in H. cbn [bind] in H.
    destruct (in_band min_price max_price (normalized_price raw)) eqn:Eb.
    + destruct (count_readable raw) eqn:E.
      * rewrite make_product_readable in H by exact E. cbn [bind] in H.
        destruct (collect rest min_price max_price) as [e|ps]; [discriminate|].
        injection H as <-. constructor; [|now apply IH].
        exists raw. split; auto.
      * destruct (make_product_raises raw (normalized_price raw) E) as [msg Hm].
        rewrite Hm in H. discriminate.
    + now apply IH.
Qed.

(** The sort returns when no comparison raises. *)
Lemma sort_returns (l : list product) :
  (forall a b, In a l -> In b l -> exists r, key_lt a b = inr r) ->
  exists sorted, sort_reverse key_lt l = inr sorted /\ Permutation l sorted.
Proof.
  intros H. destruct (sort_reverse key_lt l) as [e|sorted] eqn:E.
  - destruct (sort_reverse_raises _ _ _ _ E) as (a & b & Ha & Hb & Hab).
    destruct (H a b Ha Hb) as [r Hr]. congruence.
  - exists sorted. split; auto. eapply sort_reverse_permutes; eauto.
Qed.

Lemma rank_outcome n l out :
  rank n l = inr out ->
  exists sorted, Permutation l sorted /\ out = PyList.slice_to n sorted.
Proof.
  unfold rank. destruct (sort_reverse key_lt l) as [e|sorted] eqn:E; [discriminate|].
  intros [= <-]. exists sorted. split; auto. eapply sort_reverse_permutes; eauto.
Qed.

Lemma rank_ordered n l :
  Forall key_ordered l ->
  rank n l = inr (PyList.slice_to n (PyList.stable_descending key_below l)).
Proof. intros H. unfold rank. now rewrite Ranking.sort_ordered. Qed.

Lemma rank_nil n : rank n [] = inr [].
Proof.
  rewrite rank_ordered by constructor. cbn [PyList.stable_descending fold_right].
  destruct (slice_to_firstn n (@nil product)) as [k ->]. now rewrite firstn_nil.
Qed.

Lemma rank_In n l out p : rank n l = inr out -> In p out -> In p l.
Proof.
  intros H Hp. destruct (rank_outcome n l out H) as (sorted & Hperm & ->).
  destruct (slice_to_firstn n sorted) as [k Hk]. rewrite Hk in Hp.
  eapply Permutation_in; [symmetry; exact Hperm|].
  rewrite <- (firstn_skipn k). apply in_or_app. now left.
Qed.

Lemma raise_for_status_ok resp :
  ((status_code resp <? 400) || (600 <=? status_code resp))%Z = true ->
  raise_for_status resp = inr tt.
Proof.
  intros Hst. unfold raise_for_status.
  replace ((400 <=? status_code resp) && (status_code resp <? 600))%Z with false; auto.
  symmetry. apply orb_prop in Hst as [H|H];
    [apply Z.ltb_lt in H|apply Z.leb_le in H];
    apply andb_false_iff; [left; apply Z.leb_gt|right; apply Z.ltb_ge]; lia.
Qed.

(** The search on an answer whose organic results are objects, when the
    entries of the band give records with ordered keys. *)
Lemma search_products_success
    (requests_get : string -> search_params -> Z -> M response)
    (serp_key query : string) (min_price max_price : pynum) (num_results : Z)
    (resp : response) (data : Json.dict) (results : list Json.dict) :
  requests_get search_url (request_params serp_key query num_results) 15%Z = inr resp ->
  ((status_code resp <? 400) || (600 <=? status_code resp))%Z = true ->
  json resp = inr (JObject data) ->
  dict_get data "organic_results" (JArray []) = JArray (map JObject results) ->
  Forall (fun raw => count_readable raw = true /\ key_ordered (record_of raw))
    (filter (within_band min_price max_price) results) ->
  search_products requests_get serp_key query min_price max_price num_results =
  inr (PyList.slice_to num_results
         (PyList.stable_descending key_below
            (map record_of (filter (within_band min_price max_price) results)))).
Proof.
  intros Hget Hst Hjs Horg Hok. unfold search_products. rewrite Hget. cbn [bind].
  rewrite (raise_for_status_ok resp Hst). cbn [bind]. rewrite Hjs.
  cbn [bind Json.as_dict ret]. rewrite Horg. cbn [Json.iterate bind ret].
  rewrite collect_entries.
  - cbn [bind]. apply rank_ordered. apply Forall_map.
    eapply Forall_impl; [|exact Hok]. now intros raw [_ H].
  - eapply Forall_impl; [|exact Hok]. now intros raw [H _].
Qed.

End Loop.

(** The entries a filter keeps, by evaluation. *)
Ltac eval_filter :=
  match goal with
  | |- context [@filter ?A ?f ?l] =>
      let r := eval vm_compute in (@filter A f l) in
      replace (@filter A f l) with r by (vm_compute; reflexivity)
  end.

(** ** Lists that are sorted *)

Lemma sorted_app_inv {A} (R : A -> A -> Prop) (l1 : list A) (a : A) (l2 : list A) :
  StronglySorted R (l1 ++ a :: l2) ->
  Forall (fun x => R x a) l1 /\ Forall (R a) l2.
Proof.
  induction l1 as [|x l1 IH]; cbn [app]; intros H.
  - inversion H; subst. split; [constructor|assumption].
  - inversion H as [|? ? Hs Hx]; subst.
    destruct (IH Hs) as [H1 H2]. split; auto.
    constructor; auto.
    rewrite Forall_forall in Hx. apply Hx. apply in_or_app. right. now left.
Qed.

(** Two elements at two places of a sorted list are related, one way
    or the other. *)
Lemma sorted_pair {A} (R : A -> A -> Prop) (out : list A) (a b : A) (rest : list A) :
  StronglySorted R out -> Permutation (a :: b :: rest) out -> R a b \/ R b a.
Proof.
  intros Hs Hperm.
  assert (Ha : In a out) by (eapply Permutation_in; [exact Hperm|now left]).
  apply in_split in Ha as (l1 & l2 & ->).
  apply Permutation_cons_app_inv in Hperm.
  assert (Hb : In b (l1 ++ l2)) by (eapply Permutation_in; [exact Hperm|now left]).
  destruct (sorted_app_inv R l1 a l2 Hs) as [H1 H2].
  rewrite Forall_forall in H1, H2.
  apply in_app_or in Hb as [Hb|Hb]; auto.
Qed.

(** ** Runs on concrete inputs *)

Example extract_price_dollars :
  extract_price (PriceStr "$12.99") = inr (Finite false 7312719894942843 (-49)) /\
  price_label (Finite false 7312719894942843 (-49)) = "$12.99".
Proof. vm_compute. split; reflexivity. Qed.

Example extract_price_head_of_list :
  extract_price (PriceList ["1 299,00 EUR"; "1 499,00 EUR"]) = inr (Finite false 1299 0).
Proof. vm_compute. reflexivity. Qed.

Example format_delivery_cut :
  format_delivery (P := sample_python)
    (JArray [JString "Livraison GRATUITE mercredi 12 mars"; JString "Prime"]) =
  inr (JString "Livraison GRATUITE mercredi 12").
Proof. reflexivity. Qed.

Example earlier_pattern_wins :
  extract_search_intent [message "assistant" "Je recherche A. Cherchons B."] =
  inr (Some {| query := "b"; min_price := PyInt 0; max_price := PyInt 1000 |}).
Proof. vm_compute. reflexivity. Qed.

Example budget_with_dash :
  extract_search_intent
    [message "assistant" "Regardons un casque audio pour le bureau, entre 30-80"] =
  inr (Some {| query := "un casque audio";
               min_price := PyFloat (Finite false 15 1);
               max_price := PyFloat (Finite false 5 4) |}).
Proof. vm_compute. reflexivity. Qed.

(** The definition of line 149, had it stayed in force, would answer
    with the text of the error. *)
Example shadowed_reply_tells_the_error :
  chat_with_assistant_shadowed unit (fun _ => "{}") (fun _ => "[]") "Tu es Alex."
    failing_create "Bonjour" [] tt <>
  chat_with_assistant_shadowed unit (fun _ => "{}") (fun _ => "[]") "Tu es Alex."
    (fun _ => inl (APIError "timeout")) "Bonjour" [] tt.
Proof. vm_compute. discriminate. Qed.

(** * The claims *)

(** C1, as the code has it. End to end. Suppose the search call
    answers, the status of the answer is not an error status, and its
    body decodes to an object whose organic results are six objects,
    exactly three of them with a normalized price within [min_price,
    max_price]; and the ratings and the review counts of these three
    read as numbers other than nan, a review count given as text
    holding 4300 digits at most. Then [fetch_amazon_products], with its
    default count of 4, shows no warning and returns exactly the
    records of those three entries, sorted by rating then review count,
    descending, the records of equal key in the order of their entries;
    the price of each lies in the band and each carries the normalized
    label of its price: a dollar sign and the price to two decimals, or
    the placeholder when the price is 0. *)
Theorem in_band_products_returned_ranked {P : Python}
    (requests_get : string -> search_params -> Z -> M response)
    (serp_key query : string) (min_price max_price : pynum)
    (resp : response) (data : Json.dict) (results : list Json.dict) :
  requests_get search_url
    (request_params serp_key query default_num_results) 15%Z = inr resp ->
  ((status_code resp <? 400) || (600 <=? status_code resp))%Z = true ->
  json resp = inr (JObject data) ->
  dict_get data "organic_results" (JArray []) = JArray (map JObject results) ->
  List.length results = 6 ->
  List.length (filter (within_band min_price max_price) results) = 3 ->
  Forall (fun raw => count_readable raw = true /\ key_ordered (record_of raw))
         (filter (within_band min_price max_price) results) ->
  exists out,
    fetch_amazon_products requests_get serp_key query min_price max_price
      default_num_results = (out, []) /\
    Permutation
      (map record_of (filter (within_band min_price max_price) results)) out /\
    List.length out = 3 /\
    descending out /\
    (forall p, key_ordered p ->
       filter (key_same p) out =
       filter (key_same p)
         (map record_of (filter (within_band min_price max_price) results))) /\
    Forall (fun p => in_band min_price max_price (price p) = true /\
                     price_str p = price_label (price p)) out.
Proof.
  intros Hget Hstatus Hjson Horg _ H3 Hord.
  set (chosen := map record_of (filter (within_band min_price max_price) results)).
  assert (Hok : Forall key_ordered chosen).
  { unfold chosen. apply Forall_map.
    eapply Forall_impl; [|exact Hord]. now intros raw [_ H]. }
  exists (PyList.stable_descending key_below chosen).
  assert (Hlen : List.length (PyList.stable_descending key_below chosen) = 3).
  { rewrite Ranking.stable_descending_length. unfold chosen. now rewrite length_map. }
  split; [|split; [|split; [|split; [|split]]]].
  - unfold fetch_amazon_products.
    rewrite (search_products_success requests_get serp_key query min_price
               max_price default_num_results resp data results
               Hget Hstatus Hjson Horg Hord).
    fold chosen. rewrite slice_to_all; [reflexivity|].
    rewrite Hlen. unfold default_num_results. lia.
  - apply Ranking.stable_descending_perm.
  - exact Hlen.
  - apply Ranking.no_inversion_descending.
    + eapply Permutation_Forall; [apply Ranking.stable_descending_perm|exact Hok].
    + now apply Ranking.stable_descending_no_inversion.
  - intros p Hp. now apply Ranking.stable_descending_stable.
  - eapply Permutation_Forall; [apply Ranking.stable_descending_perm|].
    unfold chosen. apply Forall_map, Forall_forall.
    intros raw Hraw. apply filter_In in Hraw as [_ Hraw]. split; auto.
Qed.

Lemma in_band_products_returned_ranked_witness :
  exists out,
    fetch_amazon_products (P := sample_python) sample_get "key" "casque"
      (PyInt 10) (PyInt 50) default_num_results = (out, []) /\
    map title out = [JString "D"; JString "B"; JString "E"] /\
    map price_str out = ["$49.90"; "$12.99"; "$25.00"].
Proof.
  destruct (in_band_products_returned_ranked (P := sample_python) sample_get
              "key" "casque" (PyInt 10) (PyInt 50) sample_response
              [("organic_results", JArray (map JObject sample_results))]
              sample_results)
    as (out & H & _); try reflexivity.
  - eval_filter.
    repeat (constructor; [split; [reflexivity|split; reflexivity]|]). constructor.
  - exists out. split; [exact H|].
    vm_compute in H. injection H as <-. split; reflexivity.
Defined.

(** C1 as stated fails, with six entries of which three are in the
    band. When the review count of one of the three is a text of more
    than 4300 digits, [int] raises and the answer is no product and a
    warning. When the rating of one of the three is the text "nan", the
    three come back in an order that is not descending, whatever order
    the sort leaves them in; the sample sort leaves them as they were,
    the first below the third. *)
Lemma unreadable_field_breaks_the_search :
  (List.length long_count_results = 6 /\ List.length nan_results = 6) /\
  (forall P : Python,
     List.length (filter (within_band (PyInt 10) (PyInt 50)) long_count_results) = 3 /\
     exists warning,
       fetch_amazon_products (answering long_count_results) "key" "casque"
         (PyInt 10) (PyInt 50) default_num_results = ([], [warning])) /\
  (forall P : Python,
     List.length (filter (within_band (PyInt 10) (PyInt 50)) nan_results) = 3 /\
     exists out,
       fetch_amazon_products (answering nan_results) "key" "casque"
         (PyInt 10) (PyInt 50) default_num_results = (out, []) /\
       Permutation
         (map record_of (filter (within_band (PyInt 10) (PyInt 50)) nan_results))
         out /\
       ~ descending out) /\
  (exists p1 p2 p3,
     fetch_amazon_products (P := sample_python) (answering nan_results) "key"
       "casque" (PyInt 10) (PyInt 50) default_num_results = ([p1; p2; p3], []) /\
     map title [p1; p2; p3] = [JString "N1"; JString "N2"; JString "N3"] /\
     key_lt p1 p3 = inr true).
Proof.
  split; [split; reflexivity|]. split; [|split].
  - intros P. split; [vm_compute; reflexivity|].
    destruct (collect_unreadable long_count_results (PyInt 10) (PyInt 50))
      as [msg Hm].
    { eval_filter. apply Exists_cons_hd. vm_compute. reflexivity. }
    eexists. unfold fetch_amazon_products, search_products, answering.
    cbn [bind json status_code]. rewrite raise_for_status_ok by reflexivity.
    cbn [bind Json.as_dict sample_body ret dict_get String.eqb Ascii.eqb Bool.eqb
           Json.iterate].
    rewrite Hm. cbn [bind]. reflexivity.
  - intros P. split; [vm_compute; reflexivity|].
    set (chosen := map record_of
                     (filter (within_band (PyInt 10) (PyInt 50)) nan_results)).
    assert (Hc : collect (map JObject nan_results) (PyInt 10) (PyInt 50) = inr chosen).
    { apply collect_entries. vm_compute. repeat constructor. }
    assert (Hl : exists p1 p2 p3,
               chosen = [p1; p2; p3] /\
               (key_lt p1 p2 = inr false /\ key_lt p2 p1 = inr false /\
                key_same p2 p1 = false /\ key_same p1 p2 = false) /\
               forallb (fun a => forallb (fun b => match key_lt a b with
                                                   | inr _ => true
                                                   | inl _ => false
                                                   end) [p1; p2; p3]) [p1; p2; p3] = true).
    { eexists _, _, _. split; [vm_compute; reflexivity|].
      split; [repeat split|]; vm_compute; reflexivity. }
    destruct Hl as (p1 & p2 & p3 & Hch & (H12 & H21 & S21 & S12) & Hall).
    destruct (sort_returns chosen) as (sorted & Hs & Hperm).
    { rewrite Hch. intros a b Ha Hb.
      rewrite forallb_forall in Hall. specialize (Hall a Ha).
      rewrite forallb_forall in Hall. specialize (Hall b Hb).
      destruct (key_lt a b) as [e|r]; [discriminate|]. now exists r. }
    exists sorted. split; [|split; [exact Hperm|]].
    + unfold fetch_amazon_products, search_products, answering.
      cbn [bind json status_code]. rewrite raise_for_status_ok by reflexivity.
      cbn [bind Json.as_dict sample_body ret dict_get String.eqb Ascii.eqb Bool.eqb
             Json.iterate].
      rewrite Hc. cbn [bind]. unfold rank. rewrite Hs. cbn [bind ret].
      rewrite slice_to_all; [reflexivity|].
      rewrite <- (Permutation_length Hperm), Hch. unfold default_num_results.
      cbn [List.length]. lia.
    + intros Hd. rewrite Hch in Hperm.
      destruct (sorted_pair key_ge sorted p1 p2 [p3] Hd Hperm) as [[H|H]|[H|H]];
        congruence.
  - eexists _, _, _. split; [vm_compute; reflexivity|].
    split; vm_compute; reflexivity.
Qed.

(** C2, as the code has it. A string whose digits make up one decimal
    number is read as that number: the text before the number
    (currency symbols, letters, blanks, punctuation) and the text after
    it hold no digit, and the number is a run of digits, followed or not
    by a full stop or a comma and further digits, the comma standing
    for the decimal point; the number returned, [decimal ip fp], is the
    float of the numeral. The empty string and a string without any
    digit give 0.0. *)
Theorem extract_price_single_number (pre ip fp post : string) :
  Str.no_digit pre = true -> Str.all_digits ip = true -> ip <> "" ->
  Str.all_digits fp = true -> Str.no_digit post = true ->
  extract_price (PriceStr (pre ++ ip ++ post)) = inr (decimal ip "") /\
  extract_price (PriceStr (pre ++ ip ++ "." ++ fp ++ post)) = inr (decimal ip fp) /\
  extract_price (PriceStr (pre ++ ip ++ "," ++ fp ++ post)) = inr (decimal ip fp) /\
  Float.float ip = inr (decimal ip "") /\
  Float.float (ip ++ "." ++ fp) = inr (decimal ip fp) /\
  extract_price (PriceStr "") = inr Float.zero /\
  extract_price (PriceStr pre) = inr Float.zero.
Proof.
  intros Hpre Hip Hne Hfp Hpost.
  destruct ip as [|a ip]; [congruence|].
  unfold Str.all_digits in Hip. cbn [Str.all_chars] in Hip.
  apply andb_prop in Hip as [Ha Hip].
  rewrite !extract_price_str.
  split; [|split; [|split; [|split; [|split; [|split]]]]].
  - apply (price_of_text_integer pre a ip post); assumption.
  - apply (price_of_text_decimal pre a ip "." fp post); auto.
  - apply (price_of_text_decimal pre a ip "," fp post); auto.
  - pose proof (float_numeral a ip "" false Ha Hip Logic.eq_refl) as H.
    now rewrite append_nil_r in H.
  - apply (float_numeral a ip fp true); auto.
  - reflexivity.
  - now apply price_of_text_no_digit.
Qed.

Lemma extract_price_single_number_witness :
  extract_price (PriceStr "EUR 12,99 TTC") = inr (decimal "12" "99").
Proof.
  apply (extract_price_single_number "EUR " "12" "99" " TTC"); try reflexivity.
  discriminate.
Defined.

(** C2 as stated fails: a string that holds a decimal number after a
    currency symbol, and more digits further on, is read as neither of
    its numbers, the digits being joined; and a comma that groups
    thousands is read as the decimal point. *)
Lemma extract_price_joins_numbers :
  extract_price (PriceStr "$12.99 - $15.99") = inr (decimal "12" "9915") /\
  decimal "12" "9915" <> decimal "12" "99" /\
  decimal "12" "9915" <> decimal "15" "99" /\
  extract_price (PriceStr "$1,299.00") = inr (decimal "1" "299") /\
  decimal "1" "299" <> decimal "1299" "00".
Proof. vm_compute. repeat split; discriminate. Qed.

(** C3, as the code has it, for a history that ends with the turn [t].
    - The text of [t] contains "cherchons X entre 10 et 50"; in the
      lowered text the first "cherchon" and the first "entre" are the
      ones of that phrase, and no digit follows the phrase. Then the
      intent is query "x", [min_price] 10.0 and [max_price] 50.0.
    - A trigger pattern matches and the budget pattern does not: the
      intent has the stripped group of the trigger match as its query,
      and the defaults 0 and 1000.
    - No trigger pattern matches, which is the case when the lowered
      text contains none of "cherchon", "recherche", "regardon": the
      result is none.
    - Whenever a trigger pattern matches, an intent is returned, and
      its query is the stripped group of the match of the first
      pattern, in the order of the list, that matches. *)
Theorem intent_detection (h : list turn) (t : turn) :
  (forall pre post,
     dict_get t "content" "" = pre ++ "cherchons X entre 10 et 50" ++ post ->
     Str.find "cherchon" (scanned t) = Some (String.length pre) ->
     Str.find "entre" (scanned t) = Some (String.length pre + 12) ->
     starts_with_digit post = false ->
     extract_search_intent (h ++ [t]) =
     inr (Some {| query := "x";
                  min_price := PyFloat (Finite false 5 1);
                  max_price := PyFloat (Finite false 25 1) |})) /\
  (Num.eq (PyFloat (Finite false 5 1)) (PyInt 10) = true /\
   Num.eq (PyFloat (Finite false 25 1)) (PyInt 50) = true) /\
  (forall m,
     first_match search_patterns (scanned t) = Some m ->
     Re.search budget_pattern (scanned t) = None ->
     exists g, Re.group 1 m = Some g /\
       extract_search_intent (h ++ [t]) =
       inr (Some {| query := Str.strip g;
                    min_price := PyInt 0;
                    max_price := PyInt 1000 |})) /\
  (first_match search_patterns (scanned t) = None ->
     extract_search_intent (h ++ [t]) = inr None) /\
  (Str.find "cherchon" (scanned t) = None ->
   Str.find "recherche" (scanned t) = None ->
   Str.find "regardon" (scanned t) = None ->
     extract_search_intent (h ++ [t]) = inr None) /\
  (forall m,
     first_match search_patterns (scanned t) = Some m ->
     exists g i,
       Re.group 1 m = Some g /\
       extract_search_intent (h ++ [t]) = inr (Some i) /\
       query i = Str.strip g).
Proof.
  rewrite extract_search_intent_last, first_intent_first_match.
  split; [|split; [|split; [|split; [|split]]]].
  - intros pre post Hc Hf1 Hf2 Hd.
    rewrite <- first_intent_first_match.
    unfold scanned in *. rewrite Hc in *.
    now apply phrase_intent.
  - split; reflexivity.
  - intros m Hm Hb. rewrite Hm.
    destruct (first_match_trigger _ _ Hm) as [g Hg].
    exists g. split; [exact Hg|].
    unfold intent_of, group_str. rewrite Hg, Hb. reflexivity.
  - now intros ->.
  - intros H1 H2 H3. unfold search_patterns. cbn [first_match].
    rewrite (search_none_find _ "cherchon"); auto using trigger_needs_word.
    rewrite (search_none_find _ "recherche"); auto using trigger_word_needs_word.
    rewrite (search_none_find _ "regardon"); auto using trigger_needs_word.
  - intros m Hm. rewrite Hm. now apply intent_of_returns.
Qed.

Lemma intent_detection_witness :
  extract_search_intent
    [message "assistant" "Parfait ! cherchons X entre 10 et 50 euros"] =
  inr (Some {| query := "x";
               min_price := PyFloat (Finite false 5 1);
               max_price := PyFloat (Finite false 25 1) |}) /\
  (exists g,
     extract_search_intent [message "assistant" "Regardons les casques audio."] =
     inr (Some {| query := Str.strip g;
                  min_price := PyInt 0;
                  max_price := PyInt 1000 |})) /\
  extract_search_intent [message "assistant" "Quel est votre budget ?"] = inr None /\
  extract_search_intent [message "assistant" "Cherchons"] = inr None /\
  (exists i,
     extract_search_intent
       [message "assistant" "Je recherche un velo. Cherchons un casque."] =
     inr (Some i) /\ query i = "un casque").
Proof.
  split; [|split; [|split; [|split]]].
  - apply (proj1 (intent_detection []
                    (message "assistant" "Parfait ! cherchons X entre 10 et 50 euros"))
             "Parfait ! " " euros"); reflexivity.
  - destruct (intent_detection [] (message "assistant" "Regardons les casques audio."))
      as (_ & _ & H & _).
    destruct (H (Re.MatchObj "regardons les casques audio." 28 [(1, (10, 27))]))
      as (g & _ & Hg); [reflexivity|reflexivity|].
    exists g. exact Hg.
  - destruct (intent_detection [] (message "assistant" "Quel est votre budget ?"))
      as (_ & _ & _ & _ & H & _).
    apply H; reflexivity.
  - destruct (intent_detection [] (message "assistant" "Cherchons"))
      as (_ & _ & _ & H & _).
    apply H; reflexivity.
  - destruct (intent_detection []
                (message "assistant" "Je recherche un velo. Cherchons un casque."))
      as (_ & _ & _ & _ & _ & H).
    destruct (H (Re.MatchObj "cherchons un casque." 20 [(1, (10, 19))]))
      as (g & i & Hg & Hi & Hq); [reflexivity|].
    exists i. split; [exact Hi|].
    rewrite Hq. injection Hg as <-. reflexivity.
Defined.

(** C3 as stated fails: a last message can contain the phrase and give
    another budget, when a digit follows it, or another query, when an
    earlier trigger phrase comes first. *)
Lemma phrase_in_other_context :
  Str.find "cherchons X entre 10 et 50" "cherchons X entre 10 et 500" = Some 0 /\
  extract_search_intent [message "assistant" "cherchons X entre 10 et 500"] =
  inr (Some {| query := "x";
               min_price := PyFloat (Finite false 5 1);
               max_price := PyFloat (Finite false 125 2) |}) /\
  Num.eq (PyFloat (Finite false 125 2)) (PyInt 50) = false /\
  Str.find "cherchons X entre 10 et 50"
    "cherchons Y. cherchons X entre 10 et 50" = Some 13 /\
  extract_search_intent
    [message "assistant" "cherchons Y. cherchons X entre 10 et 50"] =
  inr (Some {| query := "y";
               min_price := PyFloat (Finite false 5 1);
               max_price := PyFloat (Finite false 25 1) |}).
Proof. vm_compute. repeat split. Qed.

(** C4, as the code has it. The ranking step on a list of product
    records whose ratings and review counts are numbers other than nan,
    for a requested count [n]. It returns the slice [:n] of a
    permutation of the list that is sorted by the key (rating,
    reviews_count), descending, with no tie-break but stability: the
    records of equal key keep their original order. When the keys are
    pairwise distinct, the order is strict. A count that is not negative
    keeps the first [n] records at most; a negative one drops the last
    [-n]. *)
Theorem rank_sorts_and_truncates {P : Python} (l : list product) (n : Z) :
  Forall key_ordered l ->
  exists sorted,
    rank n l = inr (PyList.slice_to n sorted) /\
    Permutation l sorted /\
    descending sorted /\
    (forall p, key_ordered p ->
       filter (key_same p) sorted = filter (key_same p) l) /\
    (distinct_keys l ->
       StronglySorted (fun a b => key_lt b a = inr true) sorted) /\
    ((0 <= n)%Z -> PyList.slice_to n sorted = firstn (Z.to_nat n) sorted) /\
    ((n < 0)%Z ->
     PyList.slice_to n sorted = firstn (List.length l - Z.to_nat (- n)) sorted).
Proof.
  intros Hok. exists (PyList.stable_descending key_below l).
  split; [now apply rank_ordered|].
  split; [apply Ranking.stable_descending_perm|].
  split.
  { apply Ranking.no_inversion_descending.
    - eapply Permutation_Forall; [apply Ranking.stable_descending_perm|exact Hok].
    - now apply Ranking.stable_descending_no_inversion. }
  split; [intros p Hp; now apply Ranking.stable_descending_stable|].
  split; [intros Hd; now apply Ranking.stable_descending_strict_keys|].
  unfold PyList.slice_to. rewrite Ranking.stable_descending_length. split; intros Hn.
  - replace (0 <=? n)%Z with true by (symmetry; now apply Z.leb_le). reflexivity.
  - replace (0 <=? n)%Z with false by (symmetry; now apply Z.leb_gt).
    f_equal. lia.
Qed.

Lemma rank_sorts_and_truncates_witness :
  exists sorted,
    rank (P := sample_python) 2
      (map (record_of (P := sample_python)) sample_results) =
    inr (firstn 2 sorted) /\
    descending sorted /\
    StronglySorted (fun a b => key_lt b a = inr true) sorted.
Proof.
  destruct (rank_sorts_and_truncates (P := sample_python)
              (map (record_of (P := sample_python)) sample_results) 2)
    as (sorted & H1 & _ & H2 & _ & H3 & H4 & _).
  - repeat (constructor; [split; reflexivity|]). constructor.
  - exists sorted. rewrite H4 in H1 by lia. split; [exact H1|]. split; [exact H2|].
    apply H3. unfold distinct_keys.
    repeat (constructor; [repeat (constructor; [reflexivity|]); constructor|]).
    constructor.
Defined.

(** C4 as stated fails. The keys (1, 10), (nan, 20) and (2, 30) are
    pairwise distinct, and no order of the three records is descending:
    the ranking step returns them, in some order, and the sample sort
    leaves them as they were, the first below the third. The keys
    (None, 1) and (2, 3) are distinct as well, and comparing them
    raises: the ranking step raises, as with the sample sort, or what
    it returns is not descending. *)
Lemma nan_key_is_not_ranked :
  (distinct_keys nan_records /\ distinct_keys null_records) /\
  (forall P : Python,
     exists out,
       rank 3 nan_records = inr out /\ Permutation nan_records out /\
       ~ descending out) /\
  (rank (P := sample_python) 3 nan_records = inr nan_records /\
   match nan_records with
   | [p1; _; p3] => key_lt p1 p3 = inr true
   | _ => False
   end) /\
  (forall P : Python,
     (exists e, rank 2 null_records = inl e) \/
     (exists out, rank 2 null_records = inr out /\ ~ descending out)) /\
  rank (P := sample_python) 2 null_records =
  inl (TypeError "'<' not supported between instances of 'NoneType' and 'int'").
Proof.
  split; [|split; [|split; [|split]]].
  - split; unfold distinct_keys;
      repeat (constructor; [repeat (constructor; [reflexivity|]); constructor|]);
      constructor.
  - intros P. destruct (sort_returns nan_records) as (sorted & Hs & Hperm).
    { intros a b Ha Hb.
      assert (Hall : forallb (fun a => forallb (fun b => match key_lt a b with
                                                         | inr _ => true
                                                         | inl _ => false
                                                         end) nan_records)
                       nan_records = true) by (vm_compute; reflexivity).
      rewrite forallb_forall in Hall. specialize (Hall a Ha).
      rewrite forallb_forall in Hall. specialize (Hall b Hb).
      destruct (key_lt a b) as [e|r]; [discriminate|]. now exists r. }
    exists sorted. split; [|split; [exact Hperm|]].
    + unfold rank. rewrite Hs. cbn [bind ret].
      rewrite slice_to_all; [reflexivity|].
      rewrite <- (Permutation_length Hperm). cbn. lia.
    + intros Hd. unfold nan_records in Hperm.
      destruct (sorted_pair key_ge sorted _ _ _ Hd Hperm) as [[H|H]|[H|H]];
        vm_compute in H; discriminate.
  - split; vm_compute; reflexivity.
  - intros P. destruct (rank 2 null_records) as [e|out] eqn:E; [left; now exists e|].
    right. exists out. split; auto.
    destruct (rank_outcome 2 null_records out E) as (sorted & Hperm & ->).
    rewrite slice_to_all by (rewrite <- (Permutation_length Hperm); cbn; lia).
    intros Hd. unfold null_records in Hperm.
    destruct (sorted_pair key_ge sorted _ _ _ Hd Hperm) as [[H|H]|[H|H]];
      vm_compute in H; discriminate.
  - vm_compute. reflexivity.
Qed.




(** C6. When the product-search call fails (the request raises, the
    status is an error status, or the body does not decode),
    [fetch_amazon_products] returns the empty list and shows one
    warning; nothing is raised to its caller. *)
Theorem search_failure_gives_empty_list {P : Python}
    (requests_get : string -> search_params -> Z -> M response)
    (serp_key query : string) (min_price max_price : pynum) (num_results : Z) :
  call_fails (requests_get search_url
                (request_params serp_key query num_results) 15%Z) ->
  exists warning,
    fetch_amazon_products requests_get serp_key query min_price max_price
      num_results = ([], [warning]).
Proof.
  unfold fetch_amazon_products, search_products, call_fails.
  destruct (requests_get _ _ _) as [e|r]; cbn [bind].
  - eauto.
  - unfold raise_for_status. intros [H|[e H]].
    + replace ((400 <=? status_code r)%Z && (status_code r <? 600)%Z) with true.
      * cbn [bind raise]. eauto.
      * symmetry. apply andb_true_intro. split; [apply Z.leb_le|apply Z.ltb_lt]; lia.
    + destruct ((400 <=? status_code r)%Z && (status_code r <? 600)%Z);
        cbn [bind raise ret]; [eauto|].
      rewrite H. cbn [bind]. eauto.
Qed.

Lemma search_failure_gives_empty_list_witness :
  exists warning,
    fetch_amazon_products (P := sample_python) failing_get "key" "casque"
      default_min_price default_max_price default_num_results = ([], [warning]).
Proof.
  apply (search_failure_gives_empty_list (P := sample_python) failing_get). exact I.
Defined.

(** C7. When the chat-completion call raises, [chat_with_assistant]
    (the definition in force, that of line 442) returns the fallback
    reply, the same string whatever the error, the message, the history
    and the context. *)
Theorem chat_failure_gives_fixed_reply
    (context : Type) (dumps_context : context -> string) (persona : string)
    (create : chat_request -> M (list (option string)))
    (user_message : string) (conversation_history : list turn)
    (user_context : context) (e : exn) :
  create (completion_request context dumps_context persona user_message
            conversation_history user_context) = inl e ->
  chat_with_assistant context dumps_context persona create user_message
    conversation_history user_context = fallback_reply.
Proof.
  intros H. unfold chat_with_assistant. now rewrite H.
Qed.

Lemma chat_failure_gives_fixed_reply_witness :
  chat_with_assistant unit (fun _ => "{}") "Tu es Alex." failing_create
    "Bonjour" [] tt = fallback_reply.
Proof.
  apply (chat_failure_gives_fixed_reply unit (fun _ => "{}") "Tu es Alex."
           failing_create "Bonjour" [] tt (APIError "rate limit")).
  reflexivity.
Defined.

(** C8. [extract_price] is total and non-negative: for every input,
    absent, string or list, it raises nothing and returns a float that
    is 0.0 or more; it returns 0.0 when there is no text to read or the
    text holds no digit. *)
Theorem extract_price_total_nonneg (p : price_repr) :
  exists f, extract_price p = inr f /\
    Num.le (PyInt 0) (PyFloat f) = true /\
    (match price_text p with
     | Some s => Str.no_digit s = true
     | None => True
     end -> f = Float.zero).
Proof.
  destruct (extract_price_returns p) as (f & H & Hf).
  exists f. split; [exact H|]. split; [now apply nonneg_le|].
  destruct p as [|s|[|s l]|[] s]; cbn [price_text]; intros Hs.
  - injection H as <-. reflexivity.
  - rewrite extract_price_str, price_of_text_no_digit in H by easy. congruence.
  - injection H as <-. reflexivity.
  - rewrite extract_price_list, price_of_text_no_digit in H by easy. congruence.
  - rewrite extract_price_other, price_of_text_no_digit in H by easy. congruence.
  - injection H as <-. reflexivity.
Qed.

Lemma extract_price_total_nonneg_witness :
  exists f, extract_price (PriceStr "gratuit") = inr f /\ f = Float.zero.
Proof.
  destruct (extract_price_total_nonneg (PriceStr "gratuit")) as (f & H & _ & Hz).
  exists f. split; [exact H|]. apply Hz. reflexivity.
Defined.




(** C10. On the empty history [extract_search_intent] returns none and
    raises nothing; on a history whose last turn has no 'content' key
    the text scanned is empty and the result is none. *)
Theorem no_intent_without_text :
  extract_search_intent [] = inr None /\
  forall (h : list turn) (t : turn),
    (forall v, ~ In ("content", v) t) ->
    scanned t = "" /\ extract_search_intent (h ++ [t]) = inr None.
Proof.
  split; [reflexivity|]. intros h t Ht.
  assert (Hs : scanned t = "").
  { unfold scanned. now rewrite dict_get_missing. }
  split; [exact Hs|].
  now rewrite extract_search_intent_last, Hs.
Qed.

Lemma no_intent_without_text_witness :
  extract_search_intent [message "user" "bonjour"; [("role", "assistant")]]
  = inr None.
Proof.
  apply (proj2 no_intent_without_text [message "user" "bonjour"]
           [("role", "assistant")]).
  intros v [H|[]]. discriminate.
Defined.

(** * Facts for the further properties *)

(** ** The search, whatever the service answers *)

Lemma in_band_le lo hi f : in_band lo hi f = true -> Num.le lo hi = true.
Proof.
  unfold in_band. intros [H1 H2]%andb_prop. eapply NumOrder.le_trans; eauto.
Qed.

(** The search on an answer whose organic results are objects, when the
    review counts of the entries of the band can be read: the records of
    these entries, handed to the ranking step. *)
Lemma search_products_readable {P : Python}
    (requests_get : string -> search_params -> Z -> M response)
    (serp_key query : string) (min_price max_price : pynum) (num_results : Z)
    (resp : response) (data : Json.dict) (results : list Json.dict) :
  requests_get search_url (request_params serp_key query num_results) 15%Z = inr resp ->
  ((status_code resp <? 400) || (600 <=? status_code resp))%Z = true ->
  json resp = inr (JObject data) ->
  dict_get data "organic_results" (JArray []) = JArray (map JObject results) ->
  Forall (fun raw => count_readable raw = true)
    (filter (within_band min_price max_price) results) ->
  search_products requests_get serp_key query min_price max_price num_results =
  rank num_results (map record_of (filter (within_band min_price max_price) results)).
Proof.
  intros Hget Hst Hjs Horg Hok. unfold search_products. rewrite Hget. cbn [bind].
  rewrite (raise_for_status_ok resp Hst). cbn [bind]. rewrite Hjs.
  cbn [bind Json.as_dict ret]. rewrite Horg. cbn [Json.iterate bind ret].
  rewrite collect_entries by exact Hok. reflexivity.
Qed.

(** The search raises, or returns what the ranking step makes of
    records of entries of the band. *)
Lemma search_products_outcome {P : Python}
    (requests_get : string -> search_params -> Z -> M response)
    (serp_key query : string) (min_price max_price : pynum) (num_results : Z) :
  (exists e, search_products requests_get serp_key query min_price max_price num_results = inl e) \/
  (exists products out,
     search_products requests_get serp_key query min_price max_price num_results = inr out /\
     Forall (fun p => exists raw, p = record_of raw /\
                        within_band min_price max_price raw = true) products /\
     rank num_results products = inr out).
Proof.
  unfold search_products. cbv zeta.
  destruct (requests_get search_url (request_params serp_key query num_results) 15%Z)
    as [e|resp]; [left; eexists; reflexivity|]. cbn [bind].
  destruct (raise_for_status resp) as [e|[]]; [left; eexists; reflexivity|]. cbn [bind].
  destruct (json resp) as [e|body]; [left; eexists; reflexivity|]. cbn [bind].
  destruct (Json.as_dict body) as [e|data]; [left; eexists; reflexivity|]. cbn [bind].
  destruct (Json.iterate (dict_get data "organic_results" (JArray []))) as [e|results];
    [left; eexists; reflexivity|]. cbn [bind].
  destruct (collect results min_price max_price) as [e|products] eqn:Ec;
    [left; eexists; reflexivity|]. cbn [bind].
  destruct (rank num_results products) as [e|out] eqn:Er;
    [left; eexists; reflexivity|].
  right. exists products, out. split; [reflexivity|]. split; [|exact Er].
  eapply collect_records; eauto.
Qed.

(** ** Zero and positive prices *)

Lemma normal_zero_or_positive m e : zero_or_positive (normal false m e).
Proof.
  unfold normal. destruct m as [|p|p]; try (now left).
  destruct (odd_part p e) as [p' e']. right.
  unfold Num.lt, Num.le. cbn [Num.value Num.float_value Num.xle].
  assert (H : (0 < inject_Z (Z.of_N (N.pos p')) * (2 # 1) ^ e')%Q).
  { apply Qmult_lt_0_compat.
    - unfold Qlt. simpl. lia.
    - apply Qpower_0_lt. reflexivity. }
  apply andb_true_intro. split.
  - apply Qle_bool_iff. now apply Qlt_le_weak.
  - apply negb_true_iff. destruct (Qle_bool _ _) eqn:E; auto.
    apply Qle_bool_iff in E. exfalso. eapply Qlt_not_le; eauto.
Qed.

Lemma of_ratio_zero_or_positive n d : zero_or_positive (of_ratio false n d).
Proof.
  unfold of_ratio. destruct (n =? 0)%Z; [now left|].
  destruct (_ || _); [now right|apply normal_zero_or_positive].
Qed.

Lemma of_decimal_zero_or_positive m e : zero_or_positive (of_decimal false m e).
Proof. unfold of_decimal. destruct (0 <=? e)%Z; apply of_ratio_zero_or_positive. Qed.

Lemma price_of_text_zero_or_positive s f :
  price_of_text s = inr f -> zero_or_positive f.
Proof.
  destruct (digit_split s) as [H|(pre & a & t & -> & Hp & Ha)].
  - rewrite price_of_text_no_digit by exact H. intros [= <-]. now left.
  - rewrite price_of_text_found by easy.
    destruct (number_take a (clean t) Ha) as (ip & fp & dot & Hip & Hfp & Ht).
    rewrite Ht, float_numeral by easy. intros [= <-].
    apply of_decimal_zero_or_positive.
Qed.

Lemma extract_price_zero_or_positive p f :
  extract_price p = inr f -> zero_or_positive f.
Proof.
  destruct p as [|s|[|s l]|[] s].
  - intros [= <-]. now left.
  - rewrite extract_price_str. apply price_of_text_zero_or_positive.
  - intros [= <-]. now left.
  - rewrite extract_price_list. apply price_of_text_zero_or_positive.
  - rewrite extract_price_other. apply price_of_text_zero_or_positive.
  - intros [= <-]. now left.
Qed.

Lemma normalized_price_zero_or_positive {P : Python} raw :
  zero_or_positive (normalized_price raw).
Proof.
  apply (extract_price_zero_or_positive (as_price (price_field raw))),
    extract_price_normalized.
Qed.

Lemma price_label_cases f :
  zero_or_positive f ->
  (f = Float.zero /\ price_label f = "Prix non disponible") \/
  (f <> Float.zero /\ price_label f = "$" ++ Float.format_2f f).
Proof.
  intros [->|H].
  - left. split; reflexivity.
  - right. split.
    + intros ->. discriminate H.
    + unfold price_label. now rewrite H.
Qed.

(** ** Digits of a text *)

Lemma digit_value_nonneg a : Str.is_digit a = true -> (0 <= digit_value a <= 9)%Z.
Proof. by_bits a; intros _; vm_compute; split; discriminate. Qed.

Lemma digits_value_nonneg s acc :
  Str.all_digits s = true -> (0 <= acc)%Z -> (0 <= digits_value acc s)%Z.
Proof.
  unfold Str.all_digits. revert acc.
  induction s as [|a s IH]; intros acc; cbn [Str.all_chars digits_value]; auto.
  intros [Ha Hs]%andb_prop Hacc. apply IH; auto.
  pose proof (digit_value_nonneg a Ha). lia.
Qed.

Lemma int_le_nonneg z : (0 <= z)%Z -> Num.le (PyInt 0) (PyInt z) = true.
Proof.
  intros H. unfold Num.le. cbn [Num.value Num.xle].
  apply Qle_bool_iff. unfold Qle. simpl. lia.
Qed.

(** ** Words of a text *)

Lemma split_from_word tok w rest :
  no_space w = true ->
  Str.split_from tok (w ++ rest) = Str.split_from (tok ++ w) rest.
Proof.
  unfold no_space. revert tok. induction w as [|a w IH]; intros tok; simpl.
  - now rewrite append_nil_r.
  - intros [Ha Hw]%andb_prop. apply negb_true_iff in Ha. rewrite Ha.
    rewrite IH by exact Hw. now rewrite append_assoc.
Qed.

Lemma split_from_blanks lead s :
  Str.all_chars Str.is_space lead = true ->
  Str.split_from "" (lead ++ s) = Str.split_from "" s.
Proof.
  induction lead as [|a lead IH]; simpl; auto.
  intros [Ha Hl]%andb_prop. rewrite Ha. auto.
Qed.

Lemma split_first_word lead w rest :
  Str.all_chars Str.is_space lead = true ->
  no_space w = true -> w <> "" -> word_end rest = true ->
  exists more, Str.split (lead ++ w ++ rest) = w :: more.
Proof.
  intros Hl Hw Hne Hr. unfold Str.split.
  rewrite split_from_blanks by exact Hl.
  rewrite split_from_word by exact Hw. cbn [append].
  destruct w as [|a w]; [congruence|].
  destruct rest as [|c rest]; simpl.
  - eauto.
  - simpl in Hr. rewrite Hr. eauto.
Qed.

(** ** The number [extract_price] reads *)

Lemma first_numeral_no_digit t :
  Str.no_digit t = true -> first_numeral t = ("", "").
Proof.
  intros H. unfold first_numeral.
  rewrite (span_len_all _ _ H), drop_length. reflexivity.
Qed.

Lemma first_numeral_skip pre a t :
  Str.no_digit pre = true -> Str.is_digit a = true ->
  first_numeral (pre ++ String a t) = first_numeral (String a t).
Proof.
  intros Hp Ha. unfold first_numeral.
  rewrite (span_len_append _ pre) by exact Hp.
  cbn [Str.span_len]. rewrite Ha. cbn [negb].
  now rewrite Nat.add_0_r, drop_append.
Qed.

Lemma first_numeral_float a t :
  Str.is_digit a = true ->
  Float.float (Str.take (number_len (String a t)) (String a t)) =
  inr (let (ip, fp) := first_numeral (String a t) in decimal ip fp) /\
  fst (first_numeral (String a t)) <> "".
Proof.
  intros Ha. unfold first_numeral, number_len. cbv zeta.
  cbn [Str.span_len]. rewrite Ha. cbn [negb Str.drop].
  cbn [Str.span_len]. rewrite Ha. cbn [Str.drop Str.take fst].
  set (n := Str.span_len Str.is_digit t).
  assert (Hn : Str.all_digits (Str.take n t) = true) by apply take_span.
  split; [|discriminate].
  destruct (Str.drop n t) as [|c r] eqn:D.
  - cbn [Str.take].
    pose proof (float_numeral a (Str.take n t) "" false Ha Hn Logic.eq_refl) as H.
    now rewrite append_nil_r in H.
  - destruct (Ascii.eqb c ".") eqn:Ec.
    + apply Ascii.eqb_eq in Ec. subst c.
      replace (S n + 1 + Str.span_len Str.is_digit r)
        with (S (n + (1 + Str.span_len Str.is_digit r))) by lia.
      cbn [Str.take]. rewrite take_add, D. cbn [Str.take Nat.add Str.drop].
      apply (float_numeral a (Str.take n t)
               (Str.take (Str.span_len Str.is_digit r) r) true Ha Hn).
      apply take_span.
    + assert (Hc : c <> "."%char) by (intros ->; discriminate).
      pose proof (float_numeral a (Str.take n t) "" false Ha Hn Logic.eq_refl) as H.
      rewrite append_nil_r in H.
      by_bits c; solve [exact H | congruence].
Qed.

Lemma price_of_text_read s : price_of_text s = inr (price_read s).
Proof.
  unfold price_read.
  destruct (digit_split s) as [H|(pre & a & t & -> & Hp & Ha)].
  - rewrite price_of_text_no_digit by exact H.
    rewrite first_numeral_no_digit by (now apply clean_no_digit). reflexivity.
  - rewrite price_of_text_found by easy.
    rewrite clean_append, (clean_digit_string a t Ha).
    rewrite first_numeral_skip by (auto using clean_no_digit).
    destruct (first_numeral_float a (clean t) Ha) as [-> Hne].
    destruct (first_numeral (String a (clean t))) as [ip fp]. cbn [fst] in Hne.
    destruct ip; [congruence|reflexivity].
Qed.

(** ** Pieces of a string *)

Lemma take_drop n s : Str.take n s ++ Str.drop n s = s.
Proof.
  revert s. induction n as [|n IH]; intros [|a s]; simpl; auto. now rewrite IH.
Qed.

Lemma take_all n s : String.length s <= n -> Str.take n s = s.
Proof.
  revert s. induction n as [|n IH]; intros [|a s]; simpl; auto; try lia.
  intros H. rewrite IH; auto. lia.
Qed.

Lemma take_take n s : Str.take n (Str.take n s) = Str.take n s.
Proof. apply take_all, take_length_le. Qed.

Lemma all_chars_take f n s :
  Str.all_chars f s = true -> Str.all_chars f (Str.take n s) = true.
Proof.
  revert s. induction n as [|n IH]; intros [|a s]; simpl; auto.
  intros [H1 H2]%andb_prop. now rewrite H1, IH.
Qed.

Lemma all_chars_drop f n s :
  Str.all_chars f s = true -> Str.all_chars f (Str.drop n s) = true.
Proof.
  revert s. induction n as [|n IH]; intros [|a s]; simpl; auto.
  intros [H1 H2]%andb_prop. auto.
Qed.

Lemma all_chars_lstrip f b s :
  Str.all_chars f s = true -> Str.all_chars f (Str.lstrip_by b s) = true.
Proof.
  induction s as [|a s IH]; simpl; auto.
  intros H. destruct (b a); auto.
  apply andb_prop in H as [_ H]. auto.
Qed.

Lemma all_chars_rstrip f b s :
  Str.all_chars f s = true -> Str.all_chars f (Str.rstrip_by b s) = true.
Proof.
  induction s as [|a s IH]; simpl; auto.
  intros [H1 H2]%andb_prop. specialize (IH H2).
  destruct (Str.rstrip_by b s) as [|c r].
  - destruct (b a); simpl; auto. now rewrite H1.
  - cbn [Str.all_chars] in *. now rewrite H1.
Qed.

Lemma all_chars_strip f s :
  Str.all_chars f s = true -> Str.all_chars f (Str.strip s) = true.
Proof. intros H. unfold Str.strip, Str.strip_by. now apply all_chars_rstrip, all_chars_lstrip. Qed.

(** ** Stripping twice *)

Lemma rstrip_by_idem b s :
  Str.rstrip_by b (Str.rstrip_by b s) = Str.rstrip_by b s.
Proof.
  induction s as [|a s IH]; simpl; auto.
  destruct (Str.rstrip_by b s) as [|c r] eqn:E.
  - destruct (b a) eqn:Ea; simpl; auto. now rewrite Ea.
  - cbn [Str.rstrip_by] in *. rewrite IH. reflexivity.
Qed.

Lemma lstrip_by_starts b s : starts_blank b (Str.lstrip_by b s) = false.
Proof.
  induction s as [|a s IH]; simpl; auto.
  destruct (b a) eqn:E; simpl; auto.
Qed.

Lemma rstrip_by_starts b s :
  starts_blank b s = false -> starts_blank b (Str.rstrip_by b s) = false.
Proof.
  destruct s as [|a s]; simpl; auto. intros H.
  destruct (Str.rstrip_by b s); simpl; auto. now rewrite H.
Qed.

Lemma lstrip_by_fixed b s : starts_blank b s = false -> Str.lstrip_by b s = s.
Proof. destruct s as [|a s]; simpl; auto. now intros ->. Qed.

Lemma strip_by_idem b s : Str.strip_by b (Str.strip_by b s) = Str.strip_by b s.
Proof.
  unfold Str.strip_by.
  rewrite (lstrip_by_fixed b (Str.rstrip_by b (Str.lstrip_by b s))).
  - apply rstrip_by_idem.
  - apply rstrip_by_starts, lstrip_by_starts.
Qed.

Lemma strip_idem s : Str.strip (Str.strip s) = Str.strip s.
Proof. apply strip_by_idem. Qed.

(** ** Lowered text *)

Lemma lower_char_idem a : Str.lower_char (Str.lower_char a) = Str.lower_char a.
Proof. by_bits a. Qed.

Lemma lower_lowered s : lowered (Str.lower s) = true.
Proof.
  unfold lowered. induction s as [|a s IH]; simpl; auto.
  now rewrite lower_char_idem, Ascii.eqb_refl.
Qed.

Lemma lowered_fixed s : lowered s = true -> Str.lower s = s.
Proof.
  unfold lowered. induction s as [|a s IH]; simpl; auto.
  intros [H1 H2]%andb_prop. apply Ascii.eqb_eq in H1. now rewrite H1, IH.
Qed.

(** ** Where a match lies *)

Lemma match_here_text r u m : Re.match_here r u = Some m -> Re.m_text m = u.
Proof.
  unfold Re.match_here. intros H.
  apply (exec_keeps (fun _ => True)) in H as (s' & j & g' & _ & H); auto.
  now injection H as <-.
Qed.

Lemma search_text r s m :
  Re.search r s = Some m -> exists k, Re.m_text m = Str.drop k s.
Proof.
  induction s as [|a s IH]; cbn [Re.search].
  - destruct (Re.match_here r "") eqn:E; [|discriminate]. intros [= ->].
    exists 0. now apply match_here_text in E.
  - destruct (Re.match_here r (String a s)) eqn:E.
    + intros [= ->]. exists 0. now apply match_here_text in E.
    + intros H. apply IH in H as [k H]. exists (S k). exact H.
Qed.

Lemma first_match_text patterns text m :
  first_match patterns text = Some m -> exists k, Re.m_text m = Str.drop k text.
Proof.
  induction patterns as [|p ps IH]; cbn [first_match]; [discriminate|].
  destruct (Re.search p text) eqn:E; auto.
  intros [= ->]. eapply search_text; eauto.
Qed.

Lemma group_chars f n m g :
  Str.all_chars f (Re.m_text m) = true -> Re.group n m = Some g ->
  Str.all_chars f g = true.
Proof.
  unfold Re.group. intros H. destruct (Re.lookup n (Re.m_groups m)) as [[a b]|]; [|discriminate].
  intros [= <-]. now apply all_chars_take, all_chars_drop.
Qed.

(** ** Shape of an intent *)

Lemma extract_search_intent_cases (h : list turn) :
  extract_search_intent h = inr None \/
  exists t m g i,
    first_match search_patterns (scanned t) = Some m /\
    Re.group 1 m = Some g /\
    intent_of m (scanned t) = inr (Some i) /\
    query i = Str.strip g /\
    extract_search_intent h = inr (Some i).
Proof.
  destruct (rev h) as [|t h'] eqn:E;
    apply (f_equal (@rev turn)) in E; rewrite rev_involutive in E; subst.
  - now left.
  - cbn [rev]. rewrite extract_search_intent_last, first_intent_first_match.
    destruct (first_match search_patterns (scanned t)) as [m|] eqn:Hm; [|now left].
    destruct (intent_of_returns _ _ Hm) as (g & i & Hg & Hi & Hq).
    right. exists t, m, g, i. rewrite Hi. auto.
Qed.

Lemma budget_bounds text m i :
  intent_of m text = inr (Some i) ->
  (min_price i = PyInt 0 /\ max_price i = PyInt 1000) \/
  (exists d1 d2, min_price i = PyFloat (decimal d1 "") /\
                 max_price i = PyFloat (decimal d2 "")).
Proof.
  unfold intent_of. destruct (group_str 1 m) as [e|g]; [discriminate|]. cbn [bind].
  unfold budget_bound.
  destruct (Re.search budget_pattern text) as [b|] eqn:E.
  - destruct (budget_groups text b E) as (d1 & d2 & H1 & H2 & F1 & F2).
    unfold group_str. rewrite H1, H2. cbn [bind ret]. rewrite F1, F2. cbn [bind ret].
    intros [= <-]. right. exists d1, d2. auto.
  - cbn [bind ret]. intros [= <-]. now left.
Qed.

(** ** Lists *)

Lemma last_n_suffix {A} (n : nat) (l : list A) :
  exists old, l = (old ++ PyList.last_n n l)%list /\
              List.length (PyList.last_n n l) = Nat.min n (List.length l).
Proof.
  unfold PyList.last_n. exists (firstn (List.length l - n) l). split.
  - now rewrite firstn_skipn.
  - rewrite length_skipn. lia.
Qed.

Lemma firstn_sorted {A} (R : A -> A -> Prop) k l :
  StronglySorted R l -> StronglySorted R (firstn k l).
Proof.
  intros H. revert k. induction H as [|a l H IH Ha]; intros [|k]; simpl; try constructor.
  - apply IH.
  - rewrite Forall_forall in *. intros x Hx. apply Ha.
    rewrite <- (firstn_skipn k l). apply in_or_app. now left.
Qed.

(** ** Splitting on a fence *)

Lemma starts_with_append p x : Str.starts_with p (p ++ x) = true.
Proof. induction p as [|a p IH]; simpl; auto. now rewrite Ascii.eqb_refl. Qed.

Lemma starts_with_split p t :
  Str.starts_with p t = true -> t = p ++ Str.drop (String.length p) t.
Proof.
  revert t. induction p as [|a p IH]; intros t; simpl; auto.
  destruct t as [|b t]; [discriminate|].
  intros [H1 H2]%andb_prop. apply Ascii.eqb_eq in H1. subst. simpl.
  f_equal. auto.
Qed.

Lemma split_on_from_nonempty sep k tok s : split_on_from sep k tok s <> [].
Proof.
  revert k tok. induction s as [|a s IH]; intros k tok; cbn [split_on_from].
  - discriminate.
  - destruct k; auto. destruct (Str.starts_with sep (String a s)); auto. discriminate.
Qed.

Lemma split_on_from_skip sep p tok s :
  split_on_from sep (String.length p) tok (p ++ s) = split_on_from sep 0 tok s.
Proof. induction p as [|a p IH]; simpl; auto. Qed.

Lemma split_on_fence x :
  split_on "```" ("```" ++ x) = "" :: split_on_from "```" 0 "" x.
Proof.
  unfold split_on. cbn [append split_on_from Str.starts_with String.length Nat.sub].
  rewrite !Ascii.eqb_refl. reflexivity.
Qed.

Lemma split_on_from_body tok body rest :
  no_backquote body = true ->
  split_on_from "```" 0 tok (body ++ rest) = split_on_from "```" 0 (tok ++ body) rest.
Proof.
  unfold no_backquote. revert tok.
  induction body as [|a body IH]; intros tok;
    cbn [append split_on_from Str.starts_with Str.all_chars].
  - now rewrite append_nil_r.
  - intros [Ha Hb]%andb_prop. apply negb_true_iff in Ha.
    rewrite (Ascii.eqb_sym "`" a), Ha. cbn [andb].
    rewrite IH by exact Hb. now rewrite append_assoc.
Qed.

Lemma split_on_from_end tok :
  split_on_from "```" 0 tok "" = [tok].
Proof. reflexivity. Qed.

Lemma fence_second_piece body close :
  no_backquote body = true ->
  close = "" \/ (exists tail, close = "```" ++ tail) ->
  exists more, split_on "```" ("```" ++ body ++ close) = "" :: body :: more.
Proof.
  intros Hb Hc. rewrite split_on_fence, split_on_from_body by exact Hb.
  cbn [append]. destruct Hc as [->|[tail ->]].
  - exists []. reflexivity.
  - eexists. cbn [append split_on_from Str.starts_with].
    rewrite !Ascii.eqb_refl. cbn [andb]. reflexivity.
Qed.

Lemma json_text_total result : exists text, json_text result = inr text.
Proof.
  unfold json_text. destruct (Str.starts_with "```" result) eqn:E.
  - apply starts_with_split in E. rewrite E, split_on_fence.
    pose proof (split_on_from_nonempty "```" 0 ""
                  (Str.drop (String.length "```") result)) as H.
    destruct (split_on_from _ _ _ _) as [|x l]; [congruence|].
    cbn. eauto.
  - cbn. eauto.
Qed.

(** * Further properties of the program *)

(** ** Product search *)

(** X1. When the search call answers with a status that is no error and
    a body that decodes to an object whose organic results are objects
    (none when the key is missing), and the review counts of the
    entries in the band can be read, [fetch_amazon_products] does this
    and nothing else: it hands the records of the entries whose
    normalized price lies in the band, in their order, to the ranking
    step, returns what that returns, with no message, and returns no
    product and one message when that raises. When the ratings and the
    review counts of these records are numbers other than nan, the
    ranking step does not raise. *)
Theorem fetch_ranks_the_in_band_entries {P : Python}
    (requests_get : string -> search_params -> Z -> M response)
    (serp_key query : string) (min_price max_price : pynum) (num_results : Z)
    (resp : response) (data : Json.dict) (results : list Json.dict) :
  requests_get search_url (request_params serp_key query num_results) 15%Z = inr resp ->
  ((status_code resp <? 400) || (600 <=? status_code resp))%Z = true ->
  json resp = inr (JObject data) ->
  dict_get data "organic_results" (JArray []) = JArray (map JObject results) ->
  Forall (fun raw => count_readable raw = true)
    (filter (within_band min_price max_price) results) ->
  fetch_amazon_products requests_get serp_key query min_price max_price num_results =
  match rank num_results
          (map record_of (filter (within_band min_price max_price) results)) with
  | inr products => (products, [])
  | inl e => ([], ["⚠️ Erreur recherche : " ++ exn_str e])
  end /\
  (Forall key_ordered
     (map record_of (filter (within_band min_price max_price) results)) ->
   exists products,
     rank num_results
       (map record_of (filter (within_band min_price max_price) results)) =
     inr products /\
     fetch_amazon_products requests_get serp_key query min_price max_price
       num_results = (products, [])).
Proof.
  intros Hget Hst Hjs Horg Hok.
  assert (E : fetch_amazon_products requests_get serp_key query min_price max_price
                num_results =
              match rank num_results
                      (map record_of
                         (filter (within_band min_price max_price) results)) with
              | inr products => (products, [])
              | inl e => ([], ["⚠️ Erreur recherche : " ++ exn_str e])
              end).
  { unfold fetch_amazon_products.
    now rewrite (search_products_readable _ _ _ _ _ _ resp data results
                   Hget Hst Hjs Horg Hok). }
  split; [exact E|].
  intros Hkeys. rewrite E, (rank_ordered num_results _ Hkeys).
  eexists. split; reflexivity.
Qed.

Lemma fetch_ranks_the_in_band_entries_witness :
  exists products,
    rank (P := sample_python) 2
      (map (record_of (P := sample_python))
         (filter (within_band (P := sample_python) (PyInt 10) (PyInt 50))
            sample_results)) = inr products /\
    fetch_amazon_products (P := sample_python) sample_get "key" "casque"
      (PyInt 10) (PyInt 50) 2 = (products, []).
Proof.
  destruct (fetch_ranks_the_in_band_entries (P := sample_python) sample_get "key"
              "casque" (PyInt 10) (PyInt 50) 2 sample_response
              [("organic_results", JArray (map JObject sample_results))]
              sample_results) as [_ H]; try reflexivity.
  - eval_filter. repeat (constructor; [reflexivity|]). constructor.
  - apply H. eval_filter. repeat (constructor; [split; reflexivity|]). constructor.
Defined.

(** What [fetch_amazon_products] returns: nothing, or what the ranking
    step makes of records of entries of the band. *)
Lemma fetch_outcome {P : Python}
    (requests_get : string -> search_params -> Z -> M response)
    (serp_key query : string) (min_price max_price : pynum) (num_results : Z) :
  fst (fetch_amazon_products requests_get serp_key query min_price max_price num_results) = [] \/
  exists products,
    Forall (fun p => exists raw, p = record_of raw /\
                       within_band min_price max_price raw = true) products /\
    rank num_results products =
    inr (fst (fetch_amazon_products requests_get serp_key query min_price max_price
                num_results)).
Proof.
  unfold fetch_amazon_products.
  destruct (search_products_outcome requests_get serp_key query min_price max_price
              num_results) as [[e ->]|(products & out & -> & Hrec & Hr)];
    [now left|right].
  now exists products.
Qed.

Lemma rank_length {P : Python} n l out :
  (0 <= n)%Z -> rank n l = inr out -> List.length out <= Z.to_nat n.
Proof.
  intros Hn H. destruct (rank_outcome n l out H) as (sorted & _ & ->).
  unfold PyList.slice_to.
  replace (0 <=? n)%Z with true by (symmetry; now apply Z.leb_le).
  apply firstn_le_length.
Qed.

Lemma fetch_length {P : Python}
    (requests_get : string -> search_params -> Z -> M response)
    (serp_key query : string) (min_price max_price : pynum) (num_results : Z) :
  (0 <= num_results)%Z ->
  List.length
    (fst (fetch_amazon_products requests_get serp_key query min_price max_price
            num_results)) <= Z.to_nat num_results.
Proof.
  intros Hn.
  destruct (fetch_outcome requests_get serp_key query min_price max_price num_results)
    as [->|(products & _ & Hr)]; [simpl; lia|].
  eapply rank_length; eauto.
Qed.

(** X2. Whatever the search service does, [fetch_amazon_products] called
    with a count that is not negative returns at most that many
    products, and the price of each lies in the band asked for. *)
Theorem fetch_results_within_bounds {P : Python}
    (requests_get : string -> search_params -> Z -> M response)
    (serp_key query : string) (min_price max_price : pynum) (num_results : Z) :
  (0 <= num_results)%Z ->
  (Z.of_nat (List.length
     (fst (fetch_amazon_products requests_get serp_key query min_price max_price
             num_results))) <= num_results)%Z /\
  Forall (fun p => in_band min_price max_price (price p) = true)
    (fst (fetch_amazon_products requests_get serp_key query min_price max_price
            num_results)).
Proof.
  intros Hn. split.
  - pose proof (fetch_length requests_get serp_key query min_price max_price
                  num_results Hn). lia.
  - destruct (fetch_outcome requests_get serp_key query min_price max_price num_results)
      as [->|(products & Hrec & Hr)]; [constructor|].
    apply Forall_forall. intros p Hp. apply (rank_In _ _ _ _ Hr) in Hp.
    rewrite Forall_forall in Hrec. now destruct (Hrec p Hp) as (raw & -> & H).
Qed.

Lemma fetch_results_within_bounds_witness :
  (Z.of_nat (List.length
     (fst (fetch_amazon_products (P := sample_python) sample_get "key" "casque"
             (PyInt 10) (PyInt 50) 2))) <= 2)%Z /\
  Forall (fun p => in_band (PyInt 10) (PyInt 50) (price p) = true)
    (fst (fetch_amazon_products (P := sample_python) sample_get "key" "casque"
            (PyInt 10) (PyInt 50) 2)).
Proof.
  apply (fetch_results_within_bounds (P := sample_python) sample_get "key" "casque"
           (PyInt 10) (PyInt 50) 2).
  lia.
Defined.

(** X3. A band whose lower bound is not at most its upper bound, be it
    reversed or with nan for a bound, holds no price:
    [fetch_amazon_products] returns no product, whatever the service
    answers. *)
Theorem fetch_nothing_in_an_empty_band {P : Python}
    (requests_get : string -> search_params -> Z -> M response)
    (serp_key query : string) (min_price max_price : pynum) (num_results : Z) :
  Num.le min_price max_price = false ->
  fst (fetch_amazon_products requests_get serp_key query min_price max_price
         num_results) = [].
Proof.
  intros Hb.
  destruct (fetch_outcome requests_get serp_key query min_price max_price num_results)
    as [->|(products & Hrec & Hr)]; auto.
  destruct products as [|p products].
  - rewrite rank_nil in Hr. now injection Hr.
  - inversion Hrec as [|? ? (raw & _ & H) _]; subst.
    apply in_band_le in H. congruence.
Qed.

Lemma fetch_nothing_in_an_empty_band_witness :
  fst (fetch_amazon_products (P := sample_python) sample_get "key" "casque"
         (PyInt 50) (PyInt 10) 4) = [].
Proof.
  apply (fetch_nothing_in_an_empty_band (P := sample_python) sample_get "key"
           "casque" (PyInt 50) (PyInt 10) 4).
  reflexivity.
Defined.

(** X4. Every product [fetch_amazon_products] returns has a price that
    is 0.0 or more, and its label tells the two apart: the placeholder
    exactly when the price is 0.0, otherwise a dollar sign and the price
    to two decimals. *)
Theorem fetch_price_labels {P : Python}
    (requests_get : string -> search_params -> Z -> M response)
    (serp_key query : string) (min_price max_price : pynum) (num_results : Z) :
  Forall (fun p =>
            Num.le (PyInt 0) (PyFloat (price p)) = true /\
            ((price p = Float.zero /\ price_str p = "Prix non disponible") \/
             (price p <> Float.zero /\
              price_str p = "$" ++ Float.format_2f (price p))))
    (fst (fetch_amazon_products requests_get serp_key query min_price max_price
            num_results)).
Proof.
  destruct (fetch_outcome requests_get serp_key query min_price max_price num_results)
    as [->|(products & Hrec & Hr)]; [constructor|].
  apply Forall_forall. intros p Hp. apply (rank_In _ _ _ _ Hr) in Hp.
  rewrite Forall_forall in Hrec. destruct (Hrec p Hp) as (raw & -> & _).
  cbn [price price_str record_of].
  split.
  - apply nonneg_le, normalized_price_nonneg.
  - apply price_label_cases, normalized_price_zero_or_positive.
Qed.

(** ** Fields of a product *)

(** X5. A review count given as text is read from its digits alone,
    taken in order and whatever stands between them (blanks,
    separators, signs, units). With 4300 digits at most it is the
    number they spell, never a negative one, and 0 when there is no
    digit. With more digits [int] raises [ValueError], and no record is
    built. *)
Theorem reviews_count_joins_the_digits (raw : Json.dict) (s : string) :
  dict_find raw "ratings_total" = Some (JString s) ->
  Str.all_digits (digits_of s) = true /\
  (String.length (digits_of s) <= Int.max_str_digits ->
   read_reviews_count raw = inr (JNumber (PyInt (digits_value 0 (digits_of s)))) /\
   (0 <= digits_value 0 (digits_of s))%Z /\
   (Str.no_digit s = true -> read_reviews_count raw = inr (JNumber (PyInt 0)))) /\
  (Int.max_str_digits < String.length (digits_of s) ->
   exists msg,
     read_reviews_count raw = inl (ValueError msg) /\
     forall price_val, make_product raw price_val = inl (ValueError msg)).
Proof.
  intros H.
  assert (Hg : dict_get raw "ratings_total" (JNumber (PyInt 0)) = JString s)
    by now rewrite dict_get_find, H.
  pose proof (delete_non_digits s) as Hd.
  destruct (read_reviews_count_text raw s Hg) as [Hok Hlong].
  split; [exact Hd|]. split.
  - intros Hl. split; [now apply Hok|]. split.
    + apply digits_value_nonneg; auto. lia.
    + intros Hn. rewrite (Hok Hl). unfold digits_of.
      rewrite delete_class_all; auto.
  - intros Hl. destruct (Hlong Hl) as [msg Hm]. exists msg. split; [exact Hm|].
    intros price_val. unfold make_product. now rewrite Hm.
Qed.

Lemma reviews_count_joins_the_digits_witness :
  read_reviews_count
    (sample_entry "B" None None (Some (JString "1 234 avis"))) =
  inr (JNumber (PyInt 1234)) /\
  exists msg,
    read_reviews_count
      (sample_entry "B" None None (Some (JString (nines 4301)))) =
    inl (ValueError msg).
Proof.
  split.
  - destruct (reviews_count_joins_the_digits
                (sample_entry "B" None None (Some (JString "1 234 avis")))
                "1 234 avis" Logic.eq_refl) as (_ & H & _).
    destruct H as (H & _); [apply Nat.leb_le; vm_compute; reflexivity|].
    exact H.
  - destruct (reviews_count_joins_the_digits
                (sample_entry "B" None None (Some (JString (nines 4301))))
                (nines 4301) Logic.eq_refl) as (_ & _ & H).
    destruct H as (msg & Hm & _).
    + apply Nat.ltb_lt. vm_compute. reflexivity.
    + now exists msg.
Defined.

(** X6. A rating given as text is read from its first word alone: the
    float of that word, or 0 when the word is no float; blanks before
    the word and everything after it are ignored. *)
Theorem rating_reads_the_first_word (raw : Json.dict) (lead w rest : string) :
  dict_find raw "rating" = Some (JString (lead ++ w ++ rest)) ->
  Str.all_chars Str.is_space lead = true ->
  no_space w = true -> w <> "" -> word_end rest = true ->
  read_rating raw = match Float.float w with
                    | inr f => Parsed f
                    | inl _ => Kept (JNumber (PyInt 0))
                    end.
Proof.
  intros H Hl Hw Hne Hr. unfold read_rating. rewrite dict_get_find, H.
  destruct (split_first_word lead w rest Hl Hw Hne Hr) as [more ->].
  cbn [PyList.first bind ret]. reflexivity.
Qed.

Lemma rating_reads_the_first_word_witness :
  read_rating (sample_entry "B" None (Some (JString " 4.5 sur 5")) None) =
  match Float.float "4.5" with
  | inr f => Parsed f
  | inl _ => Kept (JNumber (PyInt 0))
  end.
Proof.
  apply (rating_reads_the_first_word
           (sample_entry "B" None (Some (JString " 4.5 sur 5")) None)
           " " "4.5" " sur 5"); try reflexivity.
  discriminate.
Defined.

(** X7. What [extract_price] makes of a text, without patterns: it drops
    every character but digits, full stops and commas, reads commas as
    full stops, and returns as a decimal the first run of digits
    together with the digits that follow a full stop right after the
    run; a second full stop ends the number, and a text without digit
    gives 0.0. Of a list it reads the first element only. *)
Theorem extract_price_reads_the_first_numeral (s : string) (others : list string) :
  extract_price (PriceStr s) = inr (price_read s) /\
  extract_price (PriceList (s :: others)) = inr (price_read s) /\
  extract_price (PriceOther true s) = inr (price_read s).
Proof.
  rewrite extract_price_str, extract_price_list, extract_price_other.
  repeat split; apply price_of_text_read.
Qed.

(** X8. [format_delivery] on a list that starts with a text looks at
    this first element only, and gives the same as on that element
    alone when it is not empty; the result is a prefix of the text, the
    whole text when it has at most 30 characters, and [format_delivery]
    leaves its own result as it is. *)
Theorem format_delivery_keeps_a_prefix {P : Python}
    (text : string) (others : list json_value) :
  exists s rest,
    format_delivery (JArray (JString text :: others)) = inr (JString s) /\
    text = s ++ rest /\
    (String.length text <= 30 -> s = text) /\
    (text <> "" ->
     format_delivery (JString text) = inr (JString s) /\
     format_delivery (JString s) = inr (JString s)).
Proof.
  exists (Str.take 30 text), (Str.drop 30 text). repeat split.
  - now rewrite take_drop.
  - apply take_all.
  - destruct text; [congruence|reflexivity].
  - destruct text as [|a text]; [congruence|].
    pose proof (take_take 30 (String a text)) as Ht.
    cbn [Str.take] in Ht. unfold format_delivery.
    cbn [Str.take json_truthy String.eqb negb ret Json.str]. now rewrite Ht.
Qed.

(** ** The intent detector *)

(** X9. [extract_search_intent] looks at nothing but the text of the
    last turn, and at that without regard to case: the turns before it,
    the role of the last turn and the case of its letters make no
    difference. *)
Theorem intent_reads_only_the_last_text (h h' : list turn) (t t' : turn) :
  Str.lower (dict_get t "content" "") = Str.lower (dict_get t' "content" "") ->
  extract_search_intent (h ++ [t]) = extract_search_intent (h' ++ [t']).
Proof.
  intros H. rewrite !extract_search_intent_last. unfold scanned. now rewrite H.
Qed.

Lemma intent_reads_only_the_last_text_witness :
  extract_search_intent
    ([message "user" "Cherchons un casque"] ++ [message "assistant" "Cherchons UNE LAMPE."]) =
  extract_search_intent ([] ++ [[("content", "cherchons une lampe."); ("role", "user")]]).
Proof.
  apply (intent_reads_only_the_last_text
           [message "user" "Cherchons un casque"] []
           (message "assistant" "Cherchons UNE LAMPE.")
           [("content", "cherchons une lampe."); ("role", "user")]).
  reflexivity.
Defined.

(** X10. [extract_search_intent] never raises: the digits the budget
    pattern captured always convert. The bounds of an intent are the
    defaults 0 and 1000 together, or two floats read from the text
    together, and neither bound is negative or nan. *)
Theorem intent_detection_never_raises (h : list turn) :
  exists r,
    extract_search_intent h = inr r /\
    forall i, r = Some i ->
      ((min_price i = PyInt 0 /\ max_price i = PyInt 1000) \/
       (exists lo hi, min_price i = PyFloat lo /\ max_price i = PyFloat hi)) /\
      Num.le (PyInt 0) (min_price i) = true /\
      Num.le (PyInt 0) (max_price i) = true.
Proof.
  destruct (extract_search_intent_cases h) as [->|(t & m & g & i & _ & _ & Hi & _ & ->)].
  - exists None. split; auto. discriminate.
  - exists (Some i). split; auto. intros i' [= <-].
    destruct (budget_bounds _ _ _ Hi) as [[-> ->]|(d1 & d2 & -> & ->)].
    + repeat split; auto.
    + repeat split; eauto; apply nonneg_le, of_decimal_nonneg.
Qed.

(** X11. The query of an intent is in lower case and has no blank at
    either end: lowering it or stripping it again changes nothing. *)
Theorem query_is_lowered_and_stripped (h : list turn) (i : intent) :
  extract_search_intent h = inr (Some i) ->
  Str.lower (query i) = query i /\ Str.strip (query i) = query i.
Proof.
  intros H.
  destruct (extract_search_intent_cases h) as [E|(t & m & g & i' & Hm & Hg & _ & Hq & E)];
    rewrite E in H; [discriminate|]. injection H as <-.
  rewrite Hq. split; [|apply strip_idem].
  apply lowered_fixed. unfold lowered. apply all_chars_strip.
  apply (group_chars _ 1 m); auto.
  destruct (first_match_text _ _ _ Hm) as [k ->].
  apply all_chars_drop. apply lower_lowered.
Qed.

Lemma query_is_lowered_and_stripped_witness :
  Str.lower "un casque audio" = "un casque audio" /\
  Str.strip "un casque audio" = "un casque audio".
Proof.
  apply (query_is_lowered_and_stripped
           [message "assistant" "Regardons  Un Casque AUDIO  pour le bureau"]
           {| query := "un casque audio";
              min_price := PyInt 0; max_price := PyInt 1000 |}).
  vm_compute. reflexivity.
Defined.

(** ** Ranking *)

(** X12. Ranking a ranked list again changes nothing: for a count that
    is not negative and ratings and review counts that are numbers
    other than nan, [rank] returns, and applied to its own result it
    gives that result back. *)
Theorem rank_is_idempotent {P : Python} (num_results : Z) (products : list product) :
  (0 <= num_results)%Z -> Forall key_ordered products ->
  exists ranked,
    rank num_results products = inr ranked /\
    rank num_results ranked = inr ranked.
Proof.
  intros Hn Hok.
  exists (PyList.slice_to num_results (PyList.stable_descending key_below products)).
  split; [now apply rank_ordered|].
  assert (Hs : StronglySorted (fun a b => key_below a b = false)
                 (PyList.stable_descending key_below products))
    by now apply Ranking.stable_descending_no_inversion.
  assert (Hok' : Forall key_ordered (PyList.stable_descending key_below products))
    by (eapply Permutation_Forall; [apply Ranking.stable_descending_perm|exact Hok]).
  revert Hs Hok'. generalize (PyList.stable_descending key_below products) as sorted.
  intros sorted Hs Hok'. unfold PyList.slice_to.
  replace (0 <=? num_results)%Z with true by (symmetry; now apply Z.leb_le).
  rewrite rank_ordered.
  - rewrite Ranking.stable_descending_sorted_id by now apply firstn_sorted.
    unfold PyList.slice_to.
    replace (0 <=? num_results)%Z with true by (symmetry; now apply Z.leb_le).
    now rewrite firstn_firstn, Nat.min_id.
  - apply Forall_forall. intros p Hp. rewrite Forall_forall in Hok'. apply Hok'.
    rewrite <- (firstn_skipn (Z.to_nat num_results) sorted).
    apply in_or_app. now left.
Qed.

Lemma rank_is_idempotent_witness :
  exists ranked,
    rank (P := sample_python) 2
      (map (record_of (P := sample_python)) sample_results) = inr ranked /\
    rank (P := sample_python) 2 ranked = inr ranked.
Proof.
  apply (rank_is_idempotent (P := sample_python) 2
           (map (record_of (P := sample_python)) sample_results)).
  - lia.
  - repeat (constructor; [split; reflexivity|]). constructor.
Defined.

(** ** The chat *)

(** X13. The request [chat_with_assistant] sends holds the system
    message first, then the last eight turns of the history (all of
    them when there are fewer), in order, then the user's message last:
    ten messages at most, and a reply of 300 tokens at most. *)
Theorem completion_request_window
    (context : Type) (dumps_context : context -> string) (persona : string)
    (user_message : string) (conversation_history : list turn)
    (user_context : context) :
  exists system older recent,
    messages (completion_request context dumps_context persona user_message
                conversation_history user_context) =
    (system :: recent ++ [message "user" user_message])%list /\
    dict_get system "role" "" = "system" /\
    conversation_history = (older ++ recent)%list /\
    List.length recent = Nat.min 8 (List.length conversation_history) /\
    List.length (messages (completion_request context dumps_context persona
                             user_message conversation_history user_context)) <= 10 /\
    max_tokens (completion_request context dumps_context persona user_message
                  conversation_history user_context) = 300%Z.
Proof.
  destruct (last_n_suffix 8 conversation_history) as (older & Ho & Hl).
  eexists. exists older, (PyList.last_n 8 conversation_history).
  unfold completion_request. cbn [messages max_tokens app].
  split; [reflexivity|]. split; [reflexivity|]. split; [exact Ho|].
  split; [exact Hl|]. split; [|reflexivity].
  cbn [List.length]. rewrite length_app, Hl. cbn [List.length]. lia.
Qed.

(** X14. What [chat_with_assistant] answers: the content of the first
    choice, stripped, so without blank at either end; and the fixed
    apology in every other case, that is when the call raises, when
    there is no choice, and when the first choice has no content. *)
Theorem chat_reply_is_stripped_content_or_apology
    (context : Type) (dumps_context : context -> string) (persona : string)
    (create : chat_request -> M (list (option string)))
    (user_message : string) (conversation_history : list turn)
    (user_context : context) :
  match create (completion_request context dumps_context persona user_message
                  conversation_history user_context) with
  | inr (Some content :: _) =>
      chat_with_assistant context dumps_context persona create user_message
        conversation_history user_context = Str.strip content /\
      Str.strip (Str.strip content) = Str.strip content
  | _ =>
      chat_with_assistant context dumps_context persona create user_message
        conversation_history user_context = fallback_reply
  end.
Proof.
  unfold chat_with_assistant.
  destruct (create _) as [e|[|[content|] rest]]; try reflexivity.
  split; [reflexivity|apply strip_idem].
Qed.

(** ** Configuration *)

(** X15. The script goes on past its start only when both keys are set
    in the environment and neither is empty, and then shows no message;
    otherwise it stops after one error message. An empty value counts
    as a missing one. *)
Theorem startup_needs_both_keys (getenv : string -> option string) :
  match startup getenv with
  | (Some config, shown) =>
      shown = [] /\
      exists openai serp,
        getenv "OPENAI_API_KEY" = Some openai /\ openai <> "" /\
        getenv "SERPAPI_API_KEY" = Some serp /\ serp <> "" /\
        config = {| config_openai_key := Some openai; config_serp_key := Some serp |}
  | (None, shown) =>
      List.length shown = 1 /\
      (getenv "OPENAI_API_KEY" = None \/ getenv "OPENAI_API_KEY" = Some "" \/
       getenv "SERPAPI_API_KEY" = None \/ getenv "SERPAPI_API_KEY" = Some "")
  end.
Proof.
  unfold startup, check_api_keys, load_config. cbn [config_openai_key config_serp_key].
  destruct (getenv "OPENAI_API_KEY") as [[|a o]|]; cbn; auto.
  destruct (getenv "SERPAPI_API_KEY") as [[|b s]|]; cbn; auto 6.
  split; auto. exists (String a o), (String b s). repeat split; auto; discriminate.
Qed.

(** ** Advice on a product and the user's context *)

(** X16. What [analyze_product_conversational] answers: the content of
    the first choice, stripped; and the text "Analyse en cours..." in
    every other case, that is when the call raises, when there is no
    choice, and when the first choice has no content. The request holds
    one message, from the user, and asks for 120 tokens at most. *)
Theorem analysis_is_stripped_content_or_placeholder {P : Python}
    (context : Type) (dumps : context -> string)
    (create : chat_request -> M (list (option string)))
    (product : product) (user_context : context) :
  (exists prompt,
     messages (analysis_request context dumps product user_context) =
     [message "user" prompt]) /\
  max_tokens (analysis_request context dumps product user_context) = 120%Z /\
  match create (analysis_request context dumps product user_context) with
  | inr (Some content :: _) =>
      analyze_product_conversational context dumps create product
        user_context = Str.strip content /\
      Str.strip (Str.strip content) = Str.strip content
  | _ =>
      analyze_product_conversational context dumps create product
        user_context = "Analyse en cours..."
  end.
Proof.
  split; [eexists; reflexivity|]. split; [reflexivity|].
  unfold analyze_product_conversational.
  destruct (create _) as [e|[|[content|] rest]]; try reflexivity.
  split; [reflexivity|apply strip_idem].
Qed.

(** X17. A fenced reply is decoded without its fence: when the reply to
    [update_user_context], stripped, is a fence of three backquotes,
    then "json" or nothing, then a body without backquote, then a
    closing fence with whatever follows it, or no closing fence at all,
    the context returned is what [json.loads] makes of the body, and the
    empty dictionary when it raises. *)
Theorem fenced_reply_is_decoded
    (context : Type) (dumps : context -> string) (loads : string -> M json_value)
    (create : chat_request -> M (list (option string)))
    (user_message : string) (current_context : context)
    (content : string) (others : list (option string)) (tag body close : string) :
  create (update_request context dumps user_message current_context) =
    inr (Some content :: others) ->
  Str.strip content = "```" ++ tag ++ body ++ close ->
  tag = "json" \/ (tag = "" /\ Str.starts_with "json" body = false) ->
  no_backquote body = true ->
  close = "" \/ (exists tail, close = "```" ++ tail) ->
  update_user_context context dumps loads create user_message current_context =
  match loads body with
  | inr v => v
  | inl _ => JObject []
  end.
Proof.
  intros Hc Hs Ht Hb Hcl. unfold update_user_context. rewrite Hc.
  cbn [bind reply_text PyList.first ret]. rewrite Hs.
  assert (Hj : json_text ("```" ++ tag ++ body ++ close) = inr body).
  { unfold json_text. rewrite starts_with_append.
    destruct Ht as [->|[-> Hn]].
    - destruct (fence_second_piece ("json" ++ body) close) as [more Hm]; auto.
      rewrite append_assoc in Hm. rewrite Hm. reflexivity.
    - destruct (fence_second_piece body close Hb Hcl) as [more Hm].
      cbn [append] in *. rewrite Hm. cbn [list_item nth_error bind ret].
      now rewrite Hn. }
  rewrite Hj. cbn [bind]. reflexivity.
Qed.

Lemma fenced_reply_is_decoded_witness :
  update_user_context unit (fun _ => "{}")
    (fun s => if (s =? "{}")%string then inr (JObject []) else inl (JSONDecodeError s))
    (fun _ => inr [Some " ```json{}``` "]) "Bonjour" tt =
  match (if ("{}" =? "{}")%string then inr (JObject []) else inl (JSONDecodeError "{}"))
  with
  | inr v => v
  | inl _ => JObject []
  end.
Proof.
  apply (fenced_reply_is_decoded unit (fun _ => "{}")
           (fun s => if (s =? "{}")%string then inr (JObject [])
                     else inl (JSONDecodeError s))
           (fun _ => inr [Some " ```json{}``` "]) "Bonjour" tt
           " ```json{}``` " [] "json" "{}" "```").
  - reflexivity.
  - reflexivity.
  - now left.
  - reflexivity.
  - right. now exists "".
Defined.

(** X18. [update_user_context] never fails on the fence: whatever the
    reply, taking the piece after the opening fence finds one, so the
    context returned is what [json.loads] makes of the text left, and
    the empty dictionary when it raises. A reply that starts neither
    with a fence nor with "json" is decoded as it is, stripped; and the
    empty dictionary is returned when the call raises, gives no choice
    or gives a first choice without content. *)
Theorem update_user_context_decodes_the_reply
    (context : Type) (dumps : context -> string) (loads : string -> M json_value)
    (create : chat_request -> M (list (option string)))
    (user_message : string) (current_context : context) :
  match create (update_request context dumps user_message current_context) with
  | inr (Some content :: _) =>
      exists text,
        json_text (Str.strip content) = inr text /\
        update_user_context context dumps loads create user_message current_context =
        match loads text with
        | inr v => v
        | inl _ => JObject []
        end /\
        (Str.starts_with "```" (Str.strip content) = false ->
         Str.starts_with "json" (Str.strip content) = false ->
         text = Str.strip content)
  | _ =>
      update_user_context context dumps loads create user_message current_context =
      JObject []
  end.
Proof.
  unfold update_user_context.
  destruct (create _) as [e|[|[content|] rest]]; try reflexivity.
  cbn [bind reply_text PyList.first ret].
  destruct (json_text_total (Str.strip content)) as [text Ht].
  exists text. rewrite Ht. cbn [bind]. repeat split.
  intros H1 H2. unfold json_text in Ht. rewrite H1 in Ht. cbn [bind ret] in Ht.
  rewrite H2 in Ht. now injection Ht.
Qed.

(** * Facts about a run of the script *)

Lemma written_items (t : turn) :
  written t ->
  exists role content,
    dict_find t "role" = Some role /\ dict_find t "content" = Some content.
Proof. intros (role & content & ->). exists role, content. split; reflexivity. Qed.

Lemma slice_to_drops_last {A} (l : list A) (x : A) :
  PyList.slice_to (-1) (l ++ [x]) = l.
Proof.
  unfold PyList.slice_to. cbn [Z.leb Z.compare].
  rewrite length_app. cbn [List.length].
  replace (Z.to_nat (Z.of_nat (List.length l + 1) + -1)) with (List.length l) by lia.
  rewrite firstn_app, Nat.sub_diag, firstn_all. cbn [firstn]. apply app_nil_r.
Qed.


Lemma last_role_append (conv : list turn) (t : turn) :
  match rev (conv ++ [t]) with
  | u :: _ => dict_find u "role"
  | [] => None
  end = dict_find t "role".
Proof. now rewrite rev_unit. Qed.

Section ScriptFacts.

Context {P : Python} {R : Runtime}.

Implicit Types (s : session).

(** ** The pieces of a run *)

Lemma start_session_started s :
  well_formed s ->
  started (fst (start_session s)) /\ snd (start_session s) = inr tt /\
  (started s -> fst (start_session s) = s) /\
  (conversation s = None ->
   fst (start_session s) =
   {| conversation := Some [message "assistant" welcome_msg];
      user_context := Some empty_context;
      products_shown := products_shown s |}).
Proof.
  intros [H|[H1 H2]]; unfold start_session.
  - pose proof H as (rest & current & Hc & Hw & Hu). rewrite Hc. cbn.
    repeat split; auto. discriminate.
  - rewrite H1. cbn. repeat split; auto.
    + exists [], empty_context. cbn. auto.
    + intros (rest & current & Hc & _). congruence.
Qed.

Lemma show_history_written turns s :
  Forall written turns -> show_history turns s = (s, inr tt).
Proof.
  induction 1 as [|t turns Ht _ IH]; [reflexivity|].
  destruct (written_items t Ht) as (role & content & Hr & Hc).
  cbn [show_history]. unfold next, item. rewrite Hr. cbn. rewrite Hc. cbn.
  exact IH.
Qed.

Lemma show_history_state turns s : fst (show_history turns s) = s.
Proof.
  induction turns as [|t turns IH]; [reflexivity|].
  cbn [show_history]. unfold next, item.
  destruct (dict_find t "role"); cbn; auto.
  destruct (dict_find t "content"); cbn; auto.
Qed.

Lemma welcome_written : written (message "assistant" welcome_msg).
Proof. now exists "assistant", welcome_msg. Qed.

Lemma started_turns s :
  started s ->
  exists conv current,
    conversation s = Some conv /\ Forall written conv /\
    user_context s = Some current.
Proof.
  intros (rest & current & Hc & Hw & Hu). exists (message "assistant" welcome_msg :: rest), current.
  repeat split; auto. constructor; auto using welcome_written.
Qed.

Lemma started_well_formed s : started s -> well_formed s.
Proof. now left. Qed.

Lemma next_done {A B} (c : Run A) (f : A -> Run B) s s' a :
  c s = (s', inr a) -> next c f s = f a s'.
Proof. unfold next. now intros ->. Qed.

Lemma next_stop {A B} (c : Run A) (f : A -> Run B) s s' h :
  c s = (s', inl h) -> next c f s = (s', inl h).
Proof. unfold next. now intros ->. Qed.

Lemma lift_inr {A} (c : M A) (a : A) s : c = inr a -> lift c s = (s, inr a).
Proof. unfold lift. now intros ->. Qed.

Lemma lift_inl {A} (c : M A) (e : exn) s :
  c = inl e -> lift c s = (s, inl (Uncaught e)).
Proof. unfold lift. now intros ->. Qed.

Lemma the_conversation_some s conv :
  conversation s = Some conv -> the_conversation s = (s, inr conv).
Proof. unfold the_conversation. now intros ->. Qed.

Lemma the_user_context_some s current :
  user_context s = Some current -> the_user_context s = (s, inr current).
Proof. unfold the_user_context. now intros ->. Qed.

Lemma append_turn_some s conv t :
  conversation s = Some conv ->
  append_turn t s =
  ({| conversation := Some (conv ++ [t])%list;
      user_context := user_context s;
      products_shown := products_shown s |}, inr tt).
Proof.
  intros H. unfold append_turn.
  now rewrite (next_done _ _ _ _ _ (the_conversation_some s conv H)).
Qed.

Lemma started_append s rest (current : context) t shown :
  conversation s = Some (message "assistant" welcome_msg :: rest) ->
  Forall written rest -> written t ->
  started {| conversation := Some ((message "assistant" welcome_msg :: rest) ++ [t])%list;
             user_context := Some current;
             products_shown := shown |}.
Proof.
  intros Hc Hw Ht. exists (rest ++ [t])%list, current. cbn. repeat split; auto.
  apply Forall_app. auto.
Qed.

(** A product is drawn, or the run ends where drawing it raised; the
    session stays. *)
Lemma show_product_outcome create p s current :
  user_context s = Some current ->
  show_product create p s = (s, inr tt) \/
  exists e, In (inl e) (card p) /\
            show_product create p s = (s, inl (Uncaught e)).
Proof.
  intros Hu. unfold show_product, card.
  destruct (Json.slice_to 70 (title p)) as [e|t] eqn:Et.
  { right. exists e. split; [left; reflexivity|].
    apply next_stop. now apply lift_inl. }
  rewrite (next_done _ _ s s t) by now apply lift_inr.
  destruct (format_metrics p) as [e|[]] eqn:Em.
  { right. exists e. split; [right; left; reflexivity|].
    apply next_stop. now apply lift_inl. }
  rewrite (next_done _ _ s s tt) by now apply lift_inr.
  destruct (format_delivery (delivery p)) as [e|d] eqn:Ed.
  { right. exists e. split; [right; right; left; reflexivity|].
    apply next_stop. now apply lift_inl. }
  rewrite (next_done _ _ s s d) by now apply lift_inr.
  rewrite (next_done _ _ s s current) by now apply the_user_context_some.
  cbv zeta. destruct (json_truthy (image p)); [|now left].
  destruct (show_image (image p)) as [e|[]] eqn:Ei.
  - right. exists e. split; [do 3 right; left; reflexivity|]. now apply lift_inl.
  - left. now apply lift_inr.
Qed.

Lemma show_products_outcome create products s :
  started s ->
  fst (show_products create products s) = s /\
  (snd (show_products create products s) = inr tt \/
   exists e, card_raises e /\
             snd (show_products create products s) = inl (Uncaught e)).
Proof.
  intros Hs. destruct (started_turns s Hs) as (conv & current & Hc & Hw & Hu).
  induction products as [|p ps IH]; [cbn; auto|].
  cbn [show_products].
  destruct (show_product_outcome create p s current Hu) as [H|(e & He & H)].
  - now rewrite (next_done _ _ s s tt H).
  - rewrite (next_stop _ _ s s (Uncaught e) H). split; auto.
    right. exists e. split; auto. now exists p.
Qed.

(** What the search step does, case by case. *)
Lemma search_step_cases create requests_get s :
  started s ->
  (searches s = false /\ search_step create requests_get s = (s, inr tt)) \/
  (searches s = true /\
   exists conv i,
     conversation s = Some conv /\
     extract_search_intent conv = inr (Some i) /\
     (search_step create requests_get s = (shown_session s, inr tt) \/
      (exists e, card_raises e /\
         search_step create requests_get s = (shown_session s, inl (Uncaught e))) \/
      (exists products,
         products =
           fst (fetch_amazon_products requests_get serp_key (query i) (min_price i)
                  (max_price i) default_num_results) /\
         products <> [] /\
         search_step create requests_get s =
         ({| conversation :=
               Some (conv ++ [message "assistant"
                                (search_summary (query i) (List.length products))])%list;
             user_context := user_context s;
             products_shown := Some true |}, inr tt)))).
Proof.
  intros Hs. destruct (started_turns s Hs) as (conv & current & Hc & Hw & Hu).
  set (out := search_step create requests_get s).
  assert (Hout : search_step create requests_get s = out) by reflexivity.
  clearbody out. revert Hout.
  unfold search_step, searches. rewrite Hc.
  rewrite (next_done _ _ s s conv) by now apply the_conversation_some.
  destruct (extract_search_intent_returns conv) as [r Hr]. rewrite Hr.
  rewrite (next_done _ _ s s r) by now apply lift_inr.
  unfold next at 1, session_state.
  destruct r as [i|]; [|intros <-; left; split; reflexivity].
  destruct (get (products_shown s) false) eqn:Eg; cbn [negb];
    [intros <-; left; split; reflexivity|].
  unfold next at 1, set_products_shown. fold (shown_session s).
  intros Hout. right. split; auto. exists conv, i. split; auto. split; auto.
  revert Hout.
  set (products := fst (fetch_amazon_products requests_get serp_key (query i)
                          (min_price i) (max_price i) default_num_results)).
  destruct products as [|p ps] eqn:Ep; [intros <-; now left|]. right.
  assert (Hs1 : started (shown_session s)).
  { destruct Hs as (rest & cur & H1 & H2 & H3). exists rest, cur. auto. }
  destruct (show_products_outcome create (p :: ps) (shown_session s) Hs1)
    as [Hf [Ho|(e & Hq & Ho)]].
  - right. exists (p :: ps). split; auto. split; [discriminate|].
    rewrite <- Hout.
    rewrite (next_done _ _ (shown_session s) (shown_session s) tt).
    + rewrite (append_turn_some _ conv); auto.
    + rewrite <- Hf at 2. rewrite <- Ho. now destruct (show_products _ _ _).
  - left. exists e. split; auto. rewrite <- Hout.
    apply next_stop. rewrite <- Hf at 2. rewrite <- Ho.
    now destruct (show_products _ _ _).
Qed.

(** What the input step does with a message. *)
Lemma input_step_turn create text s conv current :
  conversation s = Some conv -> user_context s = Some current -> text <> "" ->
  input_step create (Some text) s =
  (let response :=
     chat_with_assistant context dumps_indented ASSISTANT_PERSONA create text conv current in
   let context_update :=
     update_user_context context dumps loads create text current in
   if json_truthy context_update then
     match snd (dict_update current context_update) with
     | Some e =>
         ({| conversation := Some (conv ++ [message "user" text])%list;
             user_context := Some (fst (dict_update current context_update));
             products_shown := Some false |}, inl (Uncaught e))
     | None =>
         ({| conversation :=
               Some (conv ++ [message "user" text; message "assistant" response])%list;
             user_context := Some (fst (dict_update current context_update));
             products_shown := Some false |}, inl Rerun)
     end
   else
     ({| conversation :=
           Some (conv ++ [message "user" text; message "assistant" response])%list;
         user_context := Some current;
         products_shown := Some false |}, inl Rerun)).
Proof.
  intros Hc Hu Ht. destruct s as [c0 u0 p0]. cbn in Hc, Hu. subst c0 u0.
  unfold input_step.
  destruct (String.eqb_spec text "") as [->|_]; [congruence|].
  cbv [next append_turn the_conversation the_user_context set_conversation
         set_products_shown set_user_context done stop
         conversation user_context products_shown].
  rewrite slice_to_drops_last.
  destruct (json_truthy (update_user_context context dumps loads create text current)).
  - destruct (dict_update current _) as [updated [e|]]; cbn [fst snd].
    + reflexivity.
    + now rewrite <- app_assoc.
  - now rewrite <- app_assoc.
Qed.

Lemma sidebar_cases new_conversation s current :
  user_context s = Some current ->
  sidebar new_conversation s =
  match show_context current with
  | inl e => (s, inl (Uncaught e))
  | inr _ => if new_conversation then (no_session, inl Rerun) else (s, inr tt)
  end.
Proof.
  intros Hu. unfold sidebar.
  rewrite (next_done _ _ s s current) by now apply the_user_context_some.
  unfold next, lift. destruct (show_context current) as [e|[]]; auto.
  now destruct new_conversation.
Qed.

(** ** How a run ends *)

Lemma main_before_input create requests_get user_input new_conversation s :
  main create requests_get user_input new_conversation s =
  next (before_input create requests_get)
    (fun _ => next (input_step create user_input)
                (fun _ => sidebar new_conversation)) s.
Proof.
  unfold main, before_input, next.
  destruct (start_session s) as [s0 [h|[]]]; [reflexivity|].
  destruct (the_conversation s0) as [s1 [h|conv]]; [reflexivity|].
  destruct (show_history conv s1) as [s2 [h|[]]]; [reflexivity|].
  now destruct (search_step create requests_get s2) as [s3 [h|[]]].
Qed.

Section Outcome.

(** [E]: what may be raised while a product or the context is drawn.
    [I]: a property of the conversation that holds when nothing was said
    and whenever the assistant spoke last. *)
Variable E : exn -> Prop.
Variable I : session -> Prop.
Hypothesis I_conversation :
  forall s s', conversation s = conversation s' -> I s -> I s'.
Hypothesis I_none : forall s, conversation s = None -> I s.
Hypothesis I_assistant :
  forall s conv text,
    conversation s = Some (conv ++ [message "assistant" text])%list -> I s.
Hypothesis card_raise : forall e, card_raises e -> E e.
Hypothesis context_raise : forall c e, show_context c = inl e -> E e.

Lemma search_step_ends create requests_get s :
  started s -> I s -> ends_well E I (search_step create requests_get s).
Proof.
  intros Hs Hi.
  assert (Hs1 : started (shown_session s)).
  { destruct Hs as (rest & cur & H1 & H2 & H3). exists rest, cur. auto. }
  assert (Hi1 : I (shown_session s)) by (apply (I_conversation s); auto).
  destruct (search_step_cases create requests_get s Hs)
    as [[_ ->]|(_ & conv & i & Hc & _ & [->|[(e & Hp & ->)|(ps & _ & _ & ->)]])];
    unfold ends_well; cbn [fst snd]; auto.
  split.
  - eapply I_assistant. reflexivity.
  - destruct Hs as (rest & cur & H1 & H2 & H3). rewrite H3.
    rewrite H1 in Hc. injection Hc as <-.
    apply (started_append s rest cur); auto. eexists _, _. reflexivity.
Qed.

(** The update that the input step makes: when it raises, [E] holds
    of what it raises and [I] of every session. *)
Lemma input_step_ends create user_input s :
  started s -> I s ->
  (forall text current e,
     user_input = Some text -> text <> "" -> user_context s = Some current ->
     json_truthy (update_user_context context dumps loads create text current) = true ->
     snd (dict_update current
            (update_user_context context dumps loads create text current)) = Some e ->
     E e /\ forall s', I s') ->
  ends_well E I (input_step create user_input s).
Proof.
  intros Hs Hi update_raise.
  destruct user_input as [text|]; [|split; auto].
  destruct (String.eqb_spec text "") as [->|Ht]; [split; auto|].
  pose proof Hs as (rest & cur & Hc & Hw & Hu).
  rewrite (input_step_turn create text s _ cur Hc Hu Ht). cbv zeta.
  assert (Hu1 : forall (c : context) shown,
            started {| conversation :=
                         Some ((message "assistant" welcome_msg :: rest) ++
                               [message "user" text])%list;
                       user_context := Some c; products_shown := shown |}).
  { intros c shown. apply (started_append s rest c); auto. eexists _, _. reflexivity. }
  assert (Hu2 : forall (c : context) shown x,
            started {| conversation :=
                         Some ((message "assistant" welcome_msg :: rest) ++
                               [message "user" text; message "assistant" x])%list;
                       user_context := Some c; products_shown := shown |}).
  { intros c shown x. exists (rest ++ [message "user" text; message "assistant" x])%list, c.
    cbn. repeat split; auto. apply Forall_app. split; auto.
    repeat constructor; eexists _, _; reflexivity. }
  assert (Hi2 : forall (c : context) shown x,
            I {| conversation :=
                   Some ((message "assistant" welcome_msg :: rest) ++
                         [message "user" text; message "assistant" x])%list;
                 user_context := Some c; products_shown := shown |}).
  { intros c shown x.
    apply (I_assistant _ ((message "assistant" welcome_msg :: rest) ++ [message "user" text]) x).
    cbn [conversation]. now rewrite <- app_assoc. }
  destruct (json_truthy _) eqn:Ej.
  - destruct (snd (dict_update cur _)) as [e|] eqn:Ee.
    + destruct (update_raise text cur e Logic.eq_refl Ht Hu Ej Ee) as [He Hall].
      split; cbn [fst snd]; auto.
    + split; cbn [fst snd]; auto. left. apply Hu2.
  - split; cbn [fst snd]; auto. left. apply Hu2.
Qed.

Lemma sidebar_ends new_conversation s :
  started s -> I s -> ends_well E I (sidebar new_conversation s).
Proof.
  intros Hs Hi. pose proof Hs as (rest & cur & Hc & Hw & Hu).
  rewrite (sidebar_cases new_conversation s cur Hu).
  destruct (show_context cur) as [e|[]] eqn:Ee.
  - split; cbn [fst snd]; eauto.
  - destruct new_conversation; split; cbn [fst snd]; auto.
    right. split; reflexivity.
Qed.

Lemma ends_well_next {A B} (c : Run A) (f : A -> Run B) s :
  ends_well E I (c s) ->
  (forall a, snd (c s) = inr a -> ends_well E I (f a (fst (c s)))) ->
  ends_well E I (next c f s).
Proof.
  unfold next. destruct (c s) as [s' [h|a]]; cbn [fst snd]; auto.
Qed.

Lemma before_input_ends create requests_get s :
  well_formed s -> I s -> ends_well E I (before_input create requests_get s).
Proof.
  intros Hw Hi.
  destruct (start_session_started s Hw) as (Hs0 & Hr0 & Hk & Hn).
  assert (Hi0 : I (fst (start_session s))).
  { destruct Hw as [Hs|[Hc _]].
    - now rewrite (Hk Hs).
    - rewrite (Hn Hc). apply (I_assistant _ [] welcome_msg). reflexivity. }
  unfold before_input. unfold next at 1.
  destruct (start_session s) as [s0 r0]. cbn [fst snd] in *. subst r0.
  destruct (started_turns s0 Hs0) as (conv & current & Hc & Hwr & Hu).
  rewrite (next_done _ _ s0 s0 conv) by now apply the_conversation_some.
  rewrite (next_done _ _ s0 s0 tt) by now apply show_history_written.
  now apply search_step_ends.
Qed.

(** A run ends well when the update it makes, if it raises, raises
    something [E] holds of, [I] holding then of every session. *)
Lemma main_ends create requests_get user_input new_conversation s :
  well_formed s -> I s ->
  (forall current v e,
     context_update create requests_get user_input s = Some (current, v) ->
     snd (dict_update current v) = Some e -> E e /\ forall s', I s') ->
  ends_well E I (main create requests_get user_input new_conversation s).
Proof.
  intros Hw Hi Hup. rewrite main_before_input.
  pose proof (before_input_ends create requests_get s Hw Hi) as Hb.
  apply ends_well_next; [exact Hb|]. intros [] H1.
  destruct Hb as [Hi1 Hs1]. rewrite H1 in Hs1.
  assert (Hin : ends_well E I
                  (input_step create user_input
                     (fst (before_input create requests_get s)))).
  { apply input_step_ends; auto.
    intros text current e -> Ht Hu Hj He.
    apply (Hup current
             (update_user_context context dumps loads create text current) e);
      auto.
    unfold context_update.
    destruct (before_input create requests_get s) as [s1 r1].
    cbn [fst snd] in *. subst r1.
    destruct (String.eqb_spec text "") as [->|_]; [congruence|].
    rewrite Hu. cbv zeta. now rewrite Hj. }
  apply ends_well_next; [exact Hin|]. intros [] H2.
  destruct Hin as [Hi2 Hs2]. rewrite H2 in Hs2.
  now apply sidebar_ends.
Qed.

End Outcome.

(** The session a run leaves is well formed, and [I] holds of it. *)
Lemma ends_well_state (E : exn -> Prop) (I : session -> Prop) {A}
    (out : session * (halt + A)) :
  ends_well E I out -> well_formed (fst out) /\ I (fst out).
Proof.
  intros [Hi Ho]. split; auto.
  destruct (snd out) as [[|k|e]|a]; auto using started_well_formed; try tauto.
  left. tauto.
Qed.

(** ** A run, from its start *)

Lemma start_session_twice s :
  well_formed s -> start_session (fst (start_session s)) = (fst (start_session s), inr tt).
Proof.
  intros Hw. destruct (start_session_started s Hw) as ((rest & cur & Hc & _) & _).
  unfold start_session at 1. now rewrite Hc.
Qed.

Lemma main_start create requests_get user_input new_conversation s :
  well_formed s ->
  main create requests_get user_input new_conversation s =
  main create requests_get user_input new_conversation (fst (start_session s)).
Proof.
  intros Hw. unfold main. unfold next at 1 6.
  rewrite (start_session_twice s Hw).
  destruct (start_session_started s Hw) as (_ & Hr & _).
  destruct (start_session s) as [s0 r0]. cbn [fst snd] in *. now subst r0.
Qed.

Lemma main_started create requests_get user_input new_conversation s :
  started s ->
  main create requests_get user_input new_conversation s =
  next (search_step create requests_get)
    (fun _ => next (input_step create user_input)
                (fun _ => sidebar new_conversation)) s.
Proof.
  intros Hs. destruct (start_session_started s (started_well_formed s Hs)) as (_ & Hr & Hk & _).
  specialize (Hk Hs). unfold main. unfold next at 1.
  destruct (start_session s) as [s0 r0]. cbn [fst snd] in *. subst r0 s0.
  destruct (started_turns s Hs) as (conv & current & Hc & Hwr & Hu).
  rewrite (next_done _ _ s s conv) by now apply the_conversation_some.
  now rewrite (next_done _ _ s s tt) by now apply show_history_written.
Qed.

Lemma main_without_search create requests_get user_input new_conversation s :
  started s -> searches s = false ->
  main create requests_get user_input new_conversation s =
  next (input_step create user_input) (fun _ => sidebar new_conversation) s.
Proof.
  intros Hs Hn. rewrite main_started by exact Hs.
  destruct (search_step_cases create requests_get s Hs) as [[_ H]|[H _]]; [|congruence].
  now rewrite (next_done _ _ s s tt H).
Qed.

Lemma searches_shown s : products_shown s = Some true -> searches s = false.
Proof.
  intros H. unfold searches. rewrite H.
  destruct (conversation s) as [conv|]; auto.
  now destruct (extract_search_intent conv) as [e|[i|]].
Qed.

Lemma start_session_shown s :
  products_shown (fst (start_session s)) = products_shown s.
Proof. unfold start_session. now destruct (conversation s). Qed.

Lemma no_search_when_shown create requests_get requests_get' user_input
    new_conversation s :
  well_formed s -> products_shown s = Some true ->
  main create requests_get user_input new_conversation s =
  main create requests_get' user_input new_conversation s.
Proof.
  intros Hw Hp.
  rewrite (main_start create requests_get _ _ s Hw).
  rewrite (main_start create requests_get' _ _ s Hw).
  destruct (start_session_started s Hw) as (Hs & _).
  assert (Hn : searches (fst (start_session s)) = false)
    by (apply searches_shown; now rewrite start_session_shown).
  now rewrite !main_without_search.
Qed.

Lemma idle_run_state create requests_get s :
  started s ->
  started (fst (main create requests_get None false s)) /\
  ((searches s = false /\ fst (main create requests_get None false s) = s) \/
   products_shown (fst (main create requests_get None false s)) = Some true).
Proof.
  intros Hs. rewrite main_started by exact Hs.
  assert (Hrest : forall s1, started s1 ->
            fst (next (input_step create None) (fun _ => sidebar false) s1) = s1).
  { intros s1 (rest & cur & Hc & Hw & Hu).
    unfold next at 1. cbn [input_step done].
    rewrite (sidebar_cases false s1 cur Hu). now destruct (show_context cur) as [e|[]]. }
  assert (Hs1 : started (shown_session s)).
  { destruct Hs as (rest & cur & H1 & H2 & H3). exists rest, cur. auto. }
  destruct (search_step_cases create requests_get s Hs)
    as [[Hn H]|(_ & conv & i & Hc & _ & [H|[(e & Hp & H)|(ps & _ & _ & H)]])].
  - rewrite (next_done _ _ s s tt H), Hrest by exact Hs. auto.
  - rewrite (next_done _ _ _ _ tt H), Hrest by exact Hs1. auto.
  - rewrite (next_stop _ _ _ _ _ H). auto.
  - assert (Hs2 : started
              {| conversation :=
                   Some (conv ++ [message "assistant"
                                    (search_summary (query i) (List.length ps))])%list;
                 user_context := user_context s;
                 products_shown := Some true |}).
    { destruct Hs as (rest & cur & H1 & H2 & H3). rewrite H3.
      rewrite H1 in Hc. injection Hc as <-.
      apply (started_append s rest cur); auto. eexists _, _. reflexivity. }
    rewrite (next_done _ _ _ _ tt H), Hrest by exact Hs2. auto.
Qed.

Lemma reachable_well_formed s : reachable s -> well_formed s.
Proof.
  induction 1 as [|s create requests_get user_input new_conversation _ Hw].
  - right. split; reflexivity.
  - apply (ends_well_state (fun _ => True) (fun _ => True)).
    apply main_ends; auto.
Qed.

Lemma spoke_last_conversation s s' :
  conversation s = conversation s' ->
  assistant_spoke_last s -> assistant_spoke_last s'.
Proof.
  intros E [H1|H1]; [left|right]; unfold last_role in *; now rewrite <- E.
Qed.

Lemma spoke_last_assistant s conv text :
  conversation s = Some (conv ++ [message "assistant" text])%list ->
  assistant_spoke_last s.
Proof. intros E. right. unfold last_role. rewrite E. now rewrite rev_unit. Qed.

(** A run whose update does not raise keeps the last word with the
    assistant. *)
Lemma main_spoke_last create requests_get user_input new_conversation s :
  well_formed s -> assistant_spoke_last s ->
  update_passes create requests_get user_input s ->
  ends_well (fun _ => True) assistant_spoke_last
    (main create requests_get user_input new_conversation s).
Proof.
  intros Hw Hi Hup. apply main_ends; auto.
  - exact spoke_last_conversation.
  - intros s1 E. now left.
  - exact spoke_last_assistant.
  - intros current v e Hc He. unfold update_passes in Hup. rewrite Hc in Hup.
    congruence.
Qed.

Lemma reachable_updating_ends s :
  reachable_updating s -> well_formed s /\ assistant_spoke_last s.
Proof.
  induction 1 as [|s create requests_get user_input new_conversation _ [Hw Hi] Hup].
  - split; [right; split; reflexivity|now left].
  - eapply ends_well_state. now apply main_spoke_last.
Qed.



(** * Further properties: the runs of the script *)

(** X19. Whatever the user does and the services answer, the session
    state is always in one of two shapes: nothing there, neither
    conversation nor context; or a context and a conversation that
    starts with the welcome and is made of turns with a role and a
    content. So no run ever ends for want of a key in a turn. *)
Theorem session_stays_well_formed s :
  reachable s ->
  well_formed s /\
  forall create requests_get user_input new_conversation key,
    snd (main create requests_get user_input new_conversation s) <> inl (KeyError key).
Proof.
  intros H. pose proof (reachable_well_formed s H) as Hw. split; auto.
  intros create requests_get user_input new_conversation key Hk.
  destruct (main_ends (fun _ => True) (fun _ => True)) with (create := create)
    (requests_get := requests_get) (user_input := user_input)
    (new_conversation := new_conversation) (s := s) as [_ Ho]; auto.
  now rewrite Hk in Ho.
Qed.


(** X21. The assistant has the last word as long as no update of the
    context raises: in every state the script can be in after runs
    whose update of the context, if they made one, did not raise, the
    conversation, if there is one, ends with a turn of the assistant.
    A run whose update raises ends there, and leaves the user's message
    last. *)
Theorem assistant_always_speaks_last s :
  reachable_updating s ->
  assistant_spoke_last s /\
  forall create requests_get user_input new_conversation current v e,
    context_update create requests_get user_input s = Some (current, v) ->
    snd (dict_update current v) = Some e ->
    snd (main create requests_get user_input new_conversation s) =
    inl (Uncaught e) /\
    last_role (fst (main create requests_get user_input new_conversation s)) =
    Some "user".
Proof.
  intros H. destruct (reachable_updating_ends s H) as [Hw Hi]. split; auto.
  intros create requests_get user_input new_conversation current v e Hc He.
  rewrite main_before_input.
  destruct (before_input_ends (fun _ => True) (fun _ => True)) with
    (create := create) (requests_get := requests_get) (s := s) as [_ Hs1]; auto.
  unfold context_update in Hc.
  destruct (before_input create requests_get s) as [s1 [h|[]]] eqn:Eb;
    [discriminate|].
  rewrite (next_done _ _ s s1 tt Eb). cbn [fst snd] in Hs1.
  destruct user_input as [text|]; [|discriminate].
  destruct (String.eqb_spec text "") as [->|Ht]; [discriminate|].
  destruct Hs1 as (rest & cur & Hconv & Hwr & Hu). rewrite Hu in Hc.
  cbv zeta in Hc.
  destruct (json_truthy (update_user_context context dumps loads create text cur))
    eqn:Ej; [|discriminate].
  injection Hc as <- <-.
  pose proof (input_step_turn create text s1 _ cur Hconv Hu Ht) as Hin.
  cbv zeta in Hin. rewrite Ej, He in Hin.
  rewrite (next_stop _ _ _ _ _ Hin). cbn [fst snd]. split; auto.
  unfold last_role. cbn [conversation]. now rewrite rev_unit.
Qed.

(** X22. A message of the user, in a run that makes no search: the
    reply is asked for with the conversation as it was before the
    message, then the message and the reply are appended in that order,
    the context is updated when the update is not empty, the flag of
    shown products is lowered, and the run ends in [st.rerun()] without
    reaching the sidebar. *)
Theorem user_turn_appends_message_and_reply
    create requests_get text new_conversation s conv current :
  reachable s ->
  conversation s = Some conv -> user_context s = Some current ->
  searches s = false -> text <> "" ->
  (json_truthy (update_user_context context dumps loads create text current) = true ->
   snd (dict_update current
          (update_user_context context dumps loads create text current)) = None) ->
  main create requests_get (Some text) new_conversation s =
  ({| conversation :=
        Some (conv ++
              [message "user" text;
               message "assistant"
                 (chat_with_assistant context dumps_indented ASSISTANT_PERSONA create
                    text conv current)])%list;
      user_context :=
        Some (if json_truthy (update_user_context context dumps loads create text current)
              then fst (dict_update current
                          (update_user_context context dumps loads create text current))
              else current);
      products_shown := Some false |}, inl Rerun).
Proof.
  intros H Hc Hu Hn Ht Hup.
  assert (Hs : started s).
  { destruct (reachable_well_formed s H) as [Hs|[Hc' _]]; [exact Hs|congruence]. }
  rewrite main_without_search by assumption.
  apply next_stop. rewrite (input_step_turn create text s conv current Hc Hu Ht).
  cbv zeta. destruct (json_truthy _); auto. now rewrite Hup.
Qed.

(** X23. One search per message. A run that starts with the flag of
    shown products up makes no search; and of two runs in a row without
    input, the second makes none: the result of such a run is the same
    whatever the search service would answer. *)
Theorem one_search_per_message s :
  reachable s ->
  (products_shown s = Some true ->
   forall create requests_get requests_get' user_input new_conversation,
     main create requests_get user_input new_conversation s =
     main create requests_get' user_input new_conversation s) /\
  (forall create1 requests_get1 create2 requests_get2 requests_get2',
     main create2 requests_get2 None false
       (fst (main create1 requests_get1 None false s)) =
     main create2 requests_get2' None false
       (fst (main create1 requests_get1 None false s))).
Proof.
  intros H. pose proof (reachable_well_formed s H) as Hw. split.
  - intros Hp create requests_get requests_get' user_input new_conversation.
    now apply no_search_when_shown.
  - intros create1 requests_get1 create2 requests_get2 requests_get2'.
    rewrite (main_start create1 requests_get1 _ _ s Hw).
    destruct (start_session_started s Hw) as (Hs & _).
    destruct (idle_run_state create1 requests_get1 _ Hs) as [Hs1 [[Hn ->]|Hp]].
    + now rewrite !main_without_search.
    + apply no_search_when_shown; auto using started_well_formed.
Qed.

(** X24. A run that makes a search, without input: when the last turn
    reads as a request and the flag of shown products is not up, the
    run puts the flag up and leaves the conversation as it was, or
    longer by one turn of the assistant, the summary, which names the
    query of the request and a number of products from 1 to 4. *)
Theorem search_run_reports_up_to_four_products
    create requests_get s conv search_intent :
  reachable s ->
  conversation s = Some conv ->
  extract_search_intent conv = inr (Some search_intent) ->
  get (products_shown s) false = false ->
  products_shown (fst (main create requests_get None false s)) = Some true /\
  (conversation (fst (main create requests_get None false s)) = Some conv \/
   exists n,
     1 <= n <= 4 /\
     conversation (fst (main create requests_get None false s)) =
     Some (conv ++ [message "assistant"
                      (search_summary (query search_intent) n)])%list).
Proof.
  intros H Hc Hi Hf.
  assert (Hs : started s).
  { destruct (reachable_well_formed s H) as [Hs|[Hc' _]]; [exact Hs|congruence]. }
  assert (Hq : searches s = true) by (unfold searches; now rewrite Hc, Hi, Hf).
  rewrite main_started by exact Hs.
  assert (Hrest : forall s1, started s1 ->
            fst (next (input_step create None) (fun _ => sidebar false) s1) = s1).
  { intros s1 (rest & cur & Hc1 & Hw1 & Hu1).
    unfold next at 1. cbn [input_step done].
    rewrite (sidebar_cases false s1 cur Hu1). now destruct (show_context cur) as [e|[]]. }
  assert (Hs1 : started (shown_session s)).
  { destruct Hs as (rest & cur & H1 & H2 & H3). exists rest, cur. auto. }
  destruct (search_step_cases create requests_get s Hs)
    as [[Hn _]|(_ & conv' & i & Hc' & Hi' & [E|[(e & Hp & E)|(ps & Hps & Hne & E)]])];
    [congruence| | |].
  - rewrite (next_done _ _ _ _ tt E), Hrest by exact Hs1. cbn. auto.
  - rewrite (next_stop _ _ _ _ _ E). cbn. auto.
  - assert (conv' = conv) by congruence. subst conv'.
    assert (i = search_intent) by congruence. subst i.
    assert (Hs2 : started
              {| conversation :=
                   Some (conv ++ [message "assistant"
                                    (search_summary (query search_intent)
                                       (List.length ps))])%list;
                 user_context := user_context s;
                 products_shown := Some true |}).
    { destruct Hs as (rest & cur & H1 & H2 & H3). rewrite H3.
      rewrite H1 in Hc. injection Hc as <-.
      apply (started_append s rest cur); auto. eexists _, _. reflexivity. }
    rewrite (next_done _ _ _ _ tt E), Hrest by exact Hs2. cbn. split; auto.
    right. exists (List.length ps). split; auto.
    split.
    + destruct ps; [congruence|simpl; lia].
    + rewrite Hps.
      apply (fetch_length requests_get serp_key (query search_intent)
               (min_price search_intent) (max_price search_intent)
               default_num_results).
      unfold default_num_results. lia.
Qed.


End ScriptFacts.

(** A run on the sample services: after the reply that asks for a
    search, the run that follows finds three products between 10 and 50
    and appends its summary. *)
Example search_run_appends_summary :
  conversation
    (fst (main (P := sample_python) (R := sample_runtime) sample_create
            sample_get None false sample_session)) =
  Some [message "assistant" welcome_msg;
        message "user" "Bonjour";
        message "assistant" "Cherchons un casque entre 10 et 50.";
        message "assistant" (search_summary "un casque" 3)] /\
  products_shown
    (fst (main (P := sample_python) (R := sample_runtime) sample_create
            sample_get None false sample_session)) = Some true.
Proof. vm_compute. split; reflexivity. Qed.

(** The same run when the service answers with a product whose title is
    null: the slice of line 301 raises, and the run ends there. *)
Example null_title_ends_the_run :
  snd (main (P := sample_python) (R := sample_runtime) sample_create
         (answering [[("title", JNull); ("price", JString "$20")]])
         None false sample_session) =
  inl (Uncaught (TypeError "'NoneType' object is not subscriptable")).
Proof. vm_compute. reflexivity. Qed.

Lemma session_stays_well_formed_witness :
  well_formed sample_session /\
  forall create requests_get user_input new_conversation key,
    snd (main (P := sample_python) (R := sample_runtime) create requests_get
           user_input new_conversation sample_session) <> inl (KeyError key).
Proof.
  apply (session_stays_well_formed (P := sample_python) (R := sample_runtime)
           sample_session).
  unfold sample_session. apply reach_run, reach_start.
Defined.


Lemma assistant_always_speaks_last_witness : assistant_spoke_last sample_session.
Proof.
  apply (assistant_always_speaks_last (P := sample_python) (R := sample_runtime)
           sample_session).
  unfold sample_session. apply updating_run; [apply updating_start|].
  vm_compute. exact I.
Defined.

Lemma user_turn_appends_message_and_reply_witness :
  main (P := sample_python) (R := sample_runtime) sample_create sample_get
    (Some "Bonjour") false fresh_session =
  (@Build_session sample_runtime
     (Some ([message "assistant" welcome_msg] ++
            [message "user" "Bonjour";
             message "assistant"
               (chat_with_assistant unit sample_dumps "Tu es Alex." sample_create
                  "Bonjour" [message "assistant" welcome_msg] tt)])%list)
     (Some (if json_truthy
                 (update_user_context unit sample_dumps sample_loads sample_create
                    "Bonjour" tt)
            then fst (sample_update tt
                        (update_user_context unit sample_dumps sample_loads
                           sample_create "Bonjour" tt))
            else tt))
     (Some false), inl Rerun).
Proof.
  apply (user_turn_appends_message_and_reply (P := sample_python) (R := sample_runtime) sample_create
           sample_get "Bonjour" false fresh_session
           [message "assistant" welcome_msg] tt).
  - assert (E : fst (main (P := sample_python) (R := sample_runtime)
                         sample_create sample_get None false no_session) =
                fresh_session (R := sample_runtime)) by (vm_compute; reflexivity).
    rewrite <- E. apply reach_run, reach_start.
  - reflexivity.
  - reflexivity.
  - vm_compute. reflexivity.
  - discriminate.
  - reflexivity.
Defined.

Lemma one_search_per_message_witness :
  (products_shown sample_session = Some true ->
   forall create requests_get requests_get' user_input new_conversation,
     main (P := sample_python) (R := sample_runtime) create requests_get
       user_input new_conversation sample_session =
     main (P := sample_python) (R := sample_runtime) create requests_get'
       user_input new_conversation sample_session) /\
  (forall create1 requests_get1 create2 requests_get2 requests_get2',
     main (P := sample_python) (R := sample_runtime) create2 requests_get2 None false
       (fst (main (P := sample_python) (R := sample_runtime) create1
               requests_get1 None false sample_session)) =
     main (P := sample_python) (R := sample_runtime) create2 requests_get2' None false
       (fst (main (P := sample_python) (R := sample_runtime) create1
               requests_get1 None false sample_session))).
Proof.
  apply (one_search_per_message (P := sample_python) (R := sample_runtime)
           sample_session).
  unfold sample_session. apply reach_run, reach_start.
Defined.

Lemma search_run_reports_up_to_four_products_witness :
  products_shown
    (fst (main (P := sample_python) (R := sample_runtime) sample_create
            sample_get None false sample_session)) = Some true /\
  (conversation
     (fst (main (P := sample_python) (R := sample_runtime) sample_create
             sample_get None false sample_session)) =
   Some [message "assistant" welcome_msg;
         message "user" "Bonjour";
         message "assistant" "Cherchons un casque entre 10 et 50."] \/
   exists n,
     1 <= n <= 4 /\
     conversation
       (fst (main (P := sample_python) (R := sample_runtime) sample_create
               sample_get None false sample_session)) =
     Some ([message "assistant" welcome_msg;
            message "user" "Bonjour";
            message "assistant" "Cherchons un casque entre 10 et 50."] ++
           [message "assistant"
              (search_summary
                 (query {| query := "un casque";
                           min_price := PyFloat (Finite false 5 1);
                           max_price := PyFloat (Finite false 25 1) |}) n)])%list).
Proof.
  apply (search_run_reports_up_to_four_products (P := sample_python) (R := sample_runtime) sample_create sample_get sample_session).
  - unfold sample_session. apply reach_run, reach_start.
  - vm_compute. reflexivity.
  - vm_compute. reflexivity.
  - vm_compute. reflexivity.
Defined.

